(** * Pepper agent runtime: a shallow embedding of the orchestration core

    The development follows the Python sources module by module:
    [pepper/llm_client/model.py] (events), [pepper/services/summarizer.py],
    [pepper/services/state_tracker.py], [pepper/tool/manager.py],
    [pepper/llm_client/llm_client.py], [pepper/agent/worker.py] and
    [pepper/agent/scheduler.py], then the provider adapters
    [pepper/llm_client/anthropic_client.py] and
    [pepper/llm_client/bedrock_anthropic_client.py],
    [pepper/agent/workflow.py] and [pepper/tool/config_loader.py].

    Python objects that are mutated in place become explicit state; a call
    either returns or raises, and a raise keeps the mutations made so far. *)

From Stdlib Require Import ZArith Lia.
From stdpp Require Import gmap strings list pretty.

(** ** Python values, exceptions and the effect monad *)

Module Py.

(** The values [json.loads] produces and [json.dumps] consumes, also used for
    fields typed [Any] or [str | dict | list[dict]]. Floats do not occur in
    any value the modelled functions inspect and are left out. *)
#[warnings="-register-all"]
Inductive pyval : Type :=
  | PNone
  | PBool (b : bool)
  | PInt (z : Z)
  | PStr (s : string)
  | PList (items : list pyval)
  | PDict (entries : list (string * pyval)).

(** Python truthiness ([if x:], [x or y]). *)
Definition truthy (v : pyval) : bool :=
  match v with
  | PNone => false
  | PBool b => b
  | PInt z => negb (z =? 0)%Z
  | PStr s => negb (String.eqb s "")
  | PList items => match items with [] => false | _ => true end
  | PDict entries => match entries with [] => false | _ => true end
  end.

(** [if s:] on a [str]. *)
Definition str_truthy (s : string) : bool := negb (String.eqb s "").

(** [if o:] on an [Optional[str]]. *)
Definition opt_truthy (o : option string) : bool :=
  match o with Some s => str_truthy s | None => false end.

(** [d.get(k)] on a dict held as an association list with distinct keys. *)
Fixpoint dict_get (entries : list (string * pyval)) (k : string) : option pyval :=
  match entries with
  | [] => None
  | (k', v) :: rest => if String.eqb k' k then Some v else dict_get rest k
  end.

Inductive exn : Type :=
  | ValueError (msg : string)
  | TypeError (msg : string)
  | KeyError (key : string)
  | AttributeError (msg : string)
  | ValidationError (msg : string)
  | TimeoutError
  | ExternalError (msg : string).

(** The outcome of a call. *)
Inductive Res (A : Type) : Type :=
  | Returned (a : A)
  | Raised (e : exn).
Arguments Returned {A} a.
Arguments Raised {A} e.

#[global] Instance Res_ret : MRet Res := λ A a, Returned a.
#[global] Instance Res_bind : MBind Res := λ A B f r,
  match r with
  | Returned a => f a
  | Raised e => Raised e
  end.

(** A computation over mutable state [St]: the state after a raise is the state
    at the raise, as for a Python object mutated before an exception. *)
Definition M (St A : Type) : Type := St → Res A * St.

#[global] Instance M_ret {St} : MRet (M St) := λ A a s, (Returned a, s).
#[global] Instance M_bind {St} : MBind (M St) := λ A B f m s,
  match m s with
  | (Returned a, s') => f a s'
  | (Raised e, s') => (Raised e, s')
  end.
#[global] Instance M_throw {St} : MThrow exn (M St) := λ A e s, (Raised e, s).

Definition get {St} : M St St := λ s, (Returned s, s).
Definition put {St} (s : St) : M St unit := λ _, (Returned tt, s).
Definition modify {St} (f : St → St) : M St unit := λ s, (Returned tt, f s).
Definition lift_res {St A} (r : Res A) : M St A := λ s, (r, s).

(** [for x in xs: body(x)] *)
Fixpoint for_each {St A} (body : A → M St unit) (xs : list A) : M St unit :=
  match xs with
  | [] => mret tt
  | x :: rest => body x ;; for_each body rest
  end.

End Py.
Import Py.

(** ** pepper/llm_client/model.py *)

Module Model.

(** The base fields [Event.id] (for the variants that do not redeclare it) and
    [Event.created_at] are read by none of the modelled functions and are
    left out of the records. *)
Record ToolCall := mkToolCall {
  tc_id : string;
  tc_name : string;
  tc_arguments : string }.

Record ToolCallResult := mkToolCallResult {
  tr_id : string;
  tr_name : option string;
  tr_result : pyval }.

Record AssistantMessage := mkAssistantMessage {
  am_content : option string;
  am_tool_calls : option (list ToolCall);
  am_finish_reason : option string }.

(** The union listed in [AgentState.events]. *)
Inductive Event : Type :=
  | EToolCall (tc : ToolCall)
  | EToolCallResult (tr : ToolCallResult)
  | EUserMessage (content : string)
  | EAssistantMessage (am : AssistantMessage)
  | EGenericEvent (type : option string) (content : pyval)
  | ESendToUser (content : string)
  | EWait (content : string).

(** [event.__class__.__name__] *)
Definition class_name (e : Event) : string :=
  match e with
  | EToolCall _ => "ToolCall"
  | EToolCallResult _ => "ToolCallResult"
  | EUserMessage _ => "UserMessage"
  | EAssistantMessage _ => "AssistantMessage"
  | EGenericEvent _ _ => "GenericEvent"
  | ESendToUser _ => "SendToUser"
  | EWait _ => "Wait"
  end.

(** [if assistant_msg.tool_calls:] is true for a non-empty list only. *)
Definition requested_tool_calls (am : AssistantMessage) : list ToolCall :=
  default [] (am_tool_calls am).

End Model.
Import Model.

(** ** The world outside the process *)

(** What the context store ([episodic.ContextStore]) keeps per identifier. *)
Inductive ContextData : Type :=
  | AgentStateData (events : list Event) (summary : option string)
  | DebugData (event_type : string) (timestamp : string) (data : pyval)
  | MessageData (message : string).

Record ContextRecord := mkContextRecord {
  ctx_data : ContextData;
  ctx_namespace : string;
  ctx_type : string;
  ctx_tags : list string }.

(** The shared, mutable surroundings of the agents: the records of the
    context store, how often the clock was read, how many completions were
    requested from the router, the tool calls handed to the dispatch layer,
    and how many chat completions the summarizer requested from its OpenAI
    client. *)
Record World := mkWorld {
  cs_records : gmap string ContextRecord;
  clock_reads : nat;
  completions : nat;
  tool_dispatches : list ToolCall;
  summarizations : nat }.

Definition set_cs_records (f : gmap string ContextRecord → gmap string ContextRecord)
    (w : World) : World :=
  mkWorld (f (cs_records w)) (clock_reads w) (completions w) (tool_dispatches w)
          (summarizations w).
Definition set_clock_reads (f : nat → nat) (w : World) : World :=
  mkWorld (cs_records w) (f (clock_reads w)) (completions w) (tool_dispatches w)
          (summarizations w).
Definition set_completions (f : nat → nat) (w : World) : World :=
  mkWorld (cs_records w) (clock_reads w) (f (completions w)) (tool_dispatches w)
          (summarizations w).
Definition set_tool_dispatches (f : list ToolCall → list ToolCall) (w : World) : World :=
  mkWorld (cs_records w) (clock_reads w) (completions w) (f (tool_dispatches w))
          (summarizations w).
Definition set_summarizations (f : nat → nat) (w : World) : World :=
  mkWorld (cs_records w) (clock_reads w) (completions w) (tool_dispatches w)
          (f (summarizations w)).

Definition empty_world : World := mkWorld ∅ 0 0 [] 0.

(** Library functions of Python and pydantic the sources call. *)
Class PyLib := {
  (** [json.loads]; [None] when it raises. *)
  json_loads : string → option pyval;
  json_dumps : pyval → string;
  (** [str(v)], as an f-string renders a value. *)
  py_str : pyval → string;
  (** pydantic's [model_dump_json]. *)
  model_dump_json : Event → string;
  (** [time.time()] as an f-string renders it, by the number of earlier reads. *)
  time_time : nat → string;
  (** [datetime.now(timezone.utc).strftime(...)], likewise. *)
  utc_now_str : nat → string }.

(** Modelled from the spec: the context store is an external collaborator
    ([episodic]) whose code is not part of the repository; section 6 of the
    specification gives [store(id, data, namespace, type)] "idempotent
    overwrite-by-id semantics", which is an insertion into a finite map. *)
Definition context_store_store (context_id : string) (r : ContextRecord) (w : World) : World :=
  set_cs_records (λ m, <[context_id := r]> m) w.

(** One read of the clock, by an object [X] living in the world. *)
Definition read_clock `{PyLib} {X} : M (X * World) string :=
  λ '(x, w), (Returned (time_time (clock_reads w)), (x, set_clock_reads Nat.succ w)).

(** [await context_store.store(...)] *)
Definition cs_store {X} (context_id : string) (r : ContextRecord) : M (X * World) unit :=
  λ '(x, w), (Returned tt, (x, context_store_store context_id r w)).

(** Modelled from the spec: [query(filter{namespaces, limit})] of the
    external context store; the order of the records it returns is the
    store's own, so the query is a function of the stored records. *)
Class ContextQuery := {
  context_store_query : gmap string ContextRecord → string → nat → list ContextRecord }.

(** The prompt texts, which the code reads from constants and files. *)
Class Prompts := {
  (** [summarize_prompt.format(optional_message_structure=...)] *)
  summarize_prompt_format : string → string;
  scheduler_message_structure : string;
  WORKER_SYSTEM_PROMPT : string;
  SCHEDULER_SYSTEM_PROMPT : string }.

(** The chat completion the summarizer requests from its OpenAI client, by
    the number of earlier requests and the two prompts (system, user): it may
    raise, now and not later, and the reply may carry no content. *)
Class SummarizerClient := {
  chat_completions_create : nat → string → string → Res (option string) }.

Definition nl : string := String (Ascii.ascii_of_nat 10) "".
(** The double quote character, as a string. *)
Definition dq : string := String (Ascii.ascii_of_nat 34) "".

(** An f-string rendering an [Optional[str]]. *)
Definition fmt_opt (o : option string) : string := default "None" o.

(** ** pepper/services/summarizer.py *)

Module Summarizer.
Section Summarizer.
Context `{PyLib} `{Prompts} `{SummarizerClient}.

Definition _format_event (event : Event) : string :=
  match event with
  | EUserMessage content => "<user_message>" +:+ content +:+ "</user_message>" +:+ nl
  | EAssistantMessage am => "<thinking>" +:+ fmt_opt (am_content am) +:+ "</thinking>" +:+ nl
  | EToolCall tc =>
      "<tool_call>id: " +:+ tc_id tc +:+ " Function: " +:+ tc_name tc
        +:+ " Arguments: " +:+ tc_arguments tc +:+ "</tool_call>" +:+ nl
  | EToolCallResult tr =>
      "<tool_result>id: " +:+ tr_id tr +:+ " Return: " +:+ py_str (tr_result tr)
        +:+ "</tool_result>" +:+ nl
  | EGenericEvent type content =>
      "<event>type: " +:+ fmt_opt type +:+ " content: " +:+ py_str content +:+ "</event>" +:+ nl
  | ESendToUser content => "<send_to_user>" +:+ content +:+ "</send_to_user>" +:+ nl
  | EWait _ =>
      "<event>type: " +:+ class_name event +:+ " content: " +:+ model_dump_json event
        +:+ "</event>" +:+ nl
  end.

(** The user prompt [_summarize] builds: the past summary, when there is one,
    comes before the new conversation. *)
Definition summarize_user_prompt (text : string) (past_summary : option string) : string :=
  "Please summarize the conversation:" +:+ nl +:+ nl
  +:+ (match past_summary with
       | Some past => if str_truthy past
                      then "The past summary is: " +:+ past +:+ nl +:+ nl
                      else ""
       | None => ""
       end)
  +:+ "The following is the new conversation:" +:+ nl +:+ nl +:+ text.

(** The request is made in the world, which counts it whether it returns
    or raises. *)
Definition _summarize {X} (text message_structure : string) (past_summary : option string)
    : M (X * World) (option string) :=
  λ '(x, w),
    (chat_completions_create (summarizations w)
       (summarize_prompt_format message_structure)
       (summarize_user_prompt text past_summary),
     (x, set_summarizations Nat.succ w)).

(** [text = ""; for event in events: text += self._format_event(event)] *)
Definition render_events (events : list Event) : string :=
  foldl (λ text event, text +:+ _format_event event) "" events.

Definition summarize_conversation {X} (events : list Event) (past_summary : option string)
    (use_message_structure : bool) : M (X * World) (option string) :=
  let message_structure :=
    if use_message_structure then scheduler_message_structure else "" in
  _summarize (render_events events) message_structure past_summary.

End Summarizer.
End Summarizer.

(** ** pepper/services/state_tracker.py *)

Module StateTracker.

(** The attributes of a [StateTracker]; [context_store] is the world's store
    and [summarizer] has no state. *)
Record t := mk {
  namespace : option string;
  past_agent_state : option (list Event * option string);
  len_limit : nat;
  summarize_last_n_events : nat;
  recent_messages : list string;
  events : list Event;
  summary : option string;
  auto_store_every_n_events : nat;
  auto_store_counter : nat }.

Definition set_events (f : list Event → list Event) (s : t) : t :=
  mk (namespace s) (past_agent_state s) (len_limit s) (summarize_last_n_events s)
     (recent_messages s) (f (events s)) (summary s)
     (auto_store_every_n_events s) (auto_store_counter s).
Definition set_summary (v : option string) (s : t) : t :=
  mk (namespace s) (past_agent_state s) (len_limit s) (summarize_last_n_events s)
     (recent_messages s) (events s) v
     (auto_store_every_n_events s) (auto_store_counter s).
Definition set_recent_messages (f : list string → list string) (s : t) : t :=
  mk (namespace s) (past_agent_state s) (len_limit s) (summarize_last_n_events s)
     (f (recent_messages s)) (events s) (summary s)
     (auto_store_every_n_events s) (auto_store_counter s).
Definition set_auto_store_counter (f : nat → nat) (s : t) : t :=
  mk (namespace s) (past_agent_state s) (len_limit s) (summarize_last_n_events s)
     (recent_messages s) (events s) (summary s)
     (auto_store_every_n_events s) (f (auto_store_counter s)).
Definition set_past_agent_state (v : option (list Event * option string)) (s : t) : t :=
  mk (namespace s) v (len_limit s) (summarize_last_n_events s)
     (recent_messages s) (events s) (summary s)
     (auto_store_every_n_events s) (auto_store_counter s).

(** [StateTracker.__init__] *)
Definition __init__ (namespace : option string) : t :=
  mk namespace None 100 60 [] [] None 20 0.

(** [is_meaningful]: a content that was not sent to the user recently and is
    not the literal [WAIT]. *)
Definition is_meaningful (self : t) (content : string) : bool :=
  if bool_decide (content ∈ recent_messages self) then false
  else if String.eqb content "WAIT" then false
  else true.

Section StateTracker.
Context `{PyLib} `{Prompts} `{SummarizerClient} `{ContextQuery}.

(** Methods run on the tracker and the world it lives in. *)
Definition self : M (t * World) t := λ '(s, w), (Returned s, (s, w)).
Definition update (f : t → t) : M (t * World) unit := λ '(s, w), (Returned tt, (f s, w)).

Definition store_events : M (t * World) unit :=
  s ← self;
  match namespace s with
  | None => mret tt
  | Some ns =>
      now ← read_clock;
      cs_store (ns +:+ "_" +:+ now)
        (mkContextRecord (AgentStateData (events s) (summary s)) ns "AgentState" [])
  end.

(** What an event of a stored state is read back as. [store_events] stores
    [event_group.model_dump()], in which an event is the dict of its fields,
    without its class, and [retrieve_history] validates that dict again when
    it builds the [AgentState] from [latest_state.data], against the union
    of [AgentState.events]. The union is not tagged: pydantic takes the class
    that sets the most fields of the dict and, among equals, the leftmost of
    the union. The dicts of [SendToUser] and [Wait] have the fields of
    [UserMessage] ([id], [created_at], [content]), which stands before them
    in the union, so both come back as [UserMessage]; the dict of each other
    class has a field more than the classes before it accept, or one they
    require is missing, and comes back as its own class. *)
Definition revalidated (e : Event) : Event :=
  match e with
  | ESendToUser content | EWait content => EUserMessage content
  | _ => e
  end.

(** [latest_state = await self.context_store.query(...)] *)
Definition query_latest (ns : string) : M (t * World) (list ContextRecord) :=
  λ '(s, w), (Returned (context_store_query (cs_records w) ns 1), (s, w)).

Definition retrieve_history : M (t * World) unit :=
  s ← self;
  match namespace s with
  | None => mret tt
  | Some ns =>
      latest_state ← query_latest ns;
      match last latest_state with
      | None => mret tt
      | Some latest_state =>
          match ctx_data latest_state with
          | AgentStateData evs sm =>
              let evs := map revalidated evs in
              update (set_past_agent_state (Some (evs, sm))) ;;
              update (set_events (λ _, evs)) ;;
              update (set_summary (if opt_truthy sm then sm else None))
          | _ => mthrow (ValidationError "AgentState")
          end
      end
  end.

Definition add_event (event : Event) : M (t * World) unit :=
  update (set_events (λ evs, evs ++ [event])) ;;
  update (set_auto_store_counter Nat.succ) ;;
  s ← self;
  (if auto_store_every_n_events s <=? auto_store_counter s
   then store_events ;; update (set_auto_store_counter (λ _, 0))
   else mret tt) ;;
  (match event with
   | ESendToUser content =>
       update (set_recent_messages (λ msgs, msgs ++ [content])) ;;
       s ← self;
       if 5 <? length (recent_messages s)
       then update (set_recent_messages (drop 1))
       else mret tt
   | _ => mret tt
   end) ;;
  s ← self;
  if len_limit s <? length (events s)
  then
    new_summary ← Summarizer.summarize_conversation
                    (take (summarize_last_n_events s) (events s))
                    (summary s) true;
    update (set_summary new_summary) ;;
    update (set_events (drop (summarize_last_n_events s)))
  else mret tt.

(** A sequence of [add_event] calls on one tracker. *)
Definition add_events (evs : list Event) : M (t * World) unit :=
  for_each add_event evs.


End StateTracker.
End StateTracker.

(** ** pepper/tool/manager.py *)

Module ToolManager.

(** A coroutine of the dispatch layer seen from its caller: it completes after
    some seconds with an outcome, or it never completes. *)
Inductive Run (A : Type) : Type :=
  | Done (seconds : nat) (r : Res A)
  | Pending.
Arguments Done {A} seconds r.
Arguments Pending {A}.

(** [asyncio.wait_for(coro, timeout=timeout_seconds)]: after how many seconds
    the caller resumes, and with what: the outcome of a coroutine that
    completes before the timeout, [TimeoutError] otherwise. The timeout
    fires at [timeout_seconds]: a coroutine that would complete at exactly
    that time is cancelled like a later one. The cancelled coroutine is taken
    to unwind at once and without raising, so that the caller resumes at the
    timeout. *)
Definition with_timeout {A} (timeout_seconds : nat) (coro : Run A) : nat * Res A :=
  match coro with
  | Done seconds r =>
      if seconds <? timeout_seconds then (seconds, r)
      else (timeout_seconds, Raised TimeoutError)
  | Pending => (timeout_seconds, Raised TimeoutError)
  end.

(** What a session with a tool provider (an MCP server reached over stdio)
    does with one [call_tool] request. *)
Inductive ContentBlock : Type :=
  | TextContent (text : string)
  (** a block without a [text] attribute, with the message of the
      [AttributeError] that reading it raises *)
  | OtherContent (attribute_error : string).

Inductive SessionResult : Type :=
  | CallToolResult (content : list ContentBlock)
  (** an exception raised inside the session, as [str(e)] *)
  | SessionException (message : string).

Inductive SessionRun : Type :=
  | Completes (seconds : nat) (r : SessionResult)
  | NeverCompletes.

Class ToolProviders := {
  (** server parameters, tool name, arguments *)
  stdio_session : string → string → pyval → SessionRun }.

Record t := mk {
  server_dict : gmap string string;
  timeout_seconds : nat;
  openai_dispatch : option (gmap string (string * string)) }.

Section ToolManager.
Context `{PyLib} `{ToolProviders}.

Definition quoted (s : string) : string := "'" +:+ s +:+ "'".

(** The body of [call], inside the [with_timeout] decorator. *)
Definition call_body (self : t) (server_name tool_name : string) (arguments : pyval)
    : Run pyval :=
  match server_dict self !! server_name with
  | None =>
      Done 0 (Returned (PDict [("error", PStr ("Unknown server " +:+ quoted server_name))]))
  | Some params =>
      match stdio_session params tool_name arguments with
      | NeverCompletes => Pending
      | Completes seconds (SessionException message) =>
          Done seconds (Returned (PDict [("error", PStr message)]))
      | Completes seconds (CallToolResult content) =>
          Done seconds (Returned
            match last content with
            | Some (OtherContent attribute_error) => PDict [("error", PStr attribute_error)]
            | Some (TextContent text) =>
                PDict [("server_name", PStr server_name); ("tool_name", PStr tool_name);
                       ("result", PStr text)]
            | None =>
                PDict [("server_name", PStr server_name); ("tool_name", PStr tool_name);
                       ("result", PStr "")]
            end)
      end
  end.

(** [@with_timeout(900) async def call(...)]: the decorator is applied with
    the literal 900, not with [self.timeout_seconds]. *)
Definition call (self : t) (server_name tool_name : string) (arguments : pyval)
    : nat * Res pyval :=
  with_timeout 900 (call_body self server_name tool_name arguments).

(** [json.loads(args_str or "{}")], with [{}] when it raises. *)
Definition parse_arguments (args_str : string) : pyval :=
  match json_loads (if str_truthy args_str then args_str else "{}") with
  | Some args => args
  | None => PDict []
  end.

Definition unknown_tool_payload (fn_name : string) : pyval :=
  PDict [("error", PStr ("Unknown tool function: " +:+ fn_name))].

Definition call_openai_tool (self : t) (tool_call : ToolCall) : nat * Res ToolCallResult :=
  let tc_id := tc_id tool_call in
  let fn_name := tc_name tool_call in
  let args := parse_arguments (tc_arguments tool_call) in
  match openai_dispatch self with
  | None => (0, Raised (TypeError "argument of type 'NoneType' is not iterable"))
  | Some dispatch =>
      match dispatch !! fn_name with
      | None =>
          (0, Returned (mkToolCallResult tc_id (Some fn_name)
                          (PStr (json_dumps (unknown_tool_payload fn_name)))))
      | Some (server_name, tool_name) =>
          match call self server_name tool_name args with
          | (seconds, Returned result) =>
              (seconds, Returned (mkToolCallResult tc_id (Some fn_name)
                                    (PStr (json_dumps result))))
          | (seconds, Raised e) => (seconds, Raised e)
          end
      end
  end.

End ToolManager.

(** *** Discovery

    Python strings are sequences of code points and the strings here are
    byte strings; the two agree on ASCII text, which tool and server names
    are. On other text a character is several bytes here, which matters for
    the slices [[:64]] and [[:512]] only. *)

(** [s[:n]] *)
Fixpoint str_take (n : nat) (s : string) : string :=
  match n, s with
  | S n', String c rest => String c (str_take n' rest)
  | _, _ => EmptyString
  end.

Fixpoint str_map (f : Ascii.ascii → Ascii.ascii) (s : string) : string :=
  match s with
  | EmptyString => EmptyString
  | String c rest => String (f c) (str_map f rest)
  end.

(** The characters the pattern [[^a-zA-Z0-9_-]] does not match. *)
Definition name_char (c : Ascii.ascii) : bool :=
  let n := Ascii.nat_of_ascii c in
  (97 <=? n) && (n <=? 122) || (65 <=? n) && (n <=? 90) || (48 <=? n) && (n <=? 57)
  || (n =? 95) || (n =? 45).

(** [re.sub(r"[^a-zA-Z0-9_-]", "_", name)[:64]] *)
Definition _sanitize (name : string) : string :=
  str_take 64 (str_map (λ c, if name_char c then c else Ascii.ascii_of_nat 95) name).

(** The ASCII characters [str.strip] removes. *)
Definition space_char (c : Ascii.ascii) : bool :=
  let n := Ascii.nat_of_ascii c in
  (9 <=? n) && (n <=? 13) || (28 <=? n) && (n <=? 32).

Fixpoint lstrip (s : string) : string :=
  match s with
  | String c rest => if space_char c then lstrip rest else s
  | EmptyString => EmptyString
  end.

(** [s.rstrip()]: a character stays when it is no space or something stays
    after it. *)
Fixpoint rstrip (s : string) : string :=
  match s with
  | String c rest =>
      match rstrip rest with
      | EmptyString => if space_char c then EmptyString else String c EmptyString
      | kept => String c kept
      end
  | EmptyString => EmptyString
  end.

Definition strip (s : string) : string := rstrip (lstrip s).

(** [s.strip() or fallback] *)
Definition strip_or (s fallback : string) : string :=
  if str_truthy (strip s) then strip s else fallback.

(** One entry of a server's tool list, as [list_tools] builds it: a tool with
    its name, description and schema, or the [{"error": ...}] entry of a
    server whose listing failed. *)
Inductive ToolEntry : Type :=
  | ListedTool (name : string) (description : option string) (schema : pyval)
  | FailedListing (error : string).

Record ServerEntry := mkServerEntry {
  se_name : string;
  se_tools : list ToolEntry }.

(** [{"type": "function", "function": {"name", "description", "parameters"}}] *)
Record OpenAITool := mkOpenAITool {
  fn_name : string;
  fn_description : string;
  fn_parameters : pyval }.

(** The [parameters] of a tool: its schema when that is an object schema, a
    wrapping object schema otherwise. *)
Definition parameters_of (schema : pyval) : pyval :=
  let schema := if truthy schema then schema else PDict [] in
  let wrapped input :=
    PDict [("type", PStr "object");
           ("properties", PDict [("input", input)]);
           ("required", PList [PStr "input"]);
           ("additionalProperties", PBool true)] in
  match schema with
  | PDict entries =>
      match dict_get entries "type" with
      | Some (PStr "object") => schema
      | _ => wrapped schema
      end
  | _ => wrapped (PDict [("type", PStr "string")])
  end.

(** The body of the inner loop of [_convert_mcp_to_openai_tools] for a tool
    entry without [error]: the tool offered and its dispatch entry. *)
Definition convert_tool (server_name name : string) (description : option string)
    (schema : pyval) : OpenAITool * (string * (string * string)) :=
  let tool_name := strip_or name "tool" in
  let description :=
    str_take 512 (if opt_truthy description then default "" description
                  else server_name +:+ "." +:+ tool_name) in
  let fn_name := _sanitize (server_name +:+ "__" +:+ tool_name) in
  (mkOpenAITool fn_name description (parameters_of schema),
   (fn_name, (server_name, tool_name))).

Definition convert_entry (server_name : string)
    (acc : list OpenAITool * gmap string (string * string)) (entry : ToolEntry)
    : list OpenAITool * gmap string (string * string) :=
  match entry with
  | FailedListing _ => acc
  | ListedTool name description schema =>
      let '(tool, (fn_name, target)) := convert_tool server_name name description schema in
      (acc.1 ++ [tool], <[fn_name := target]> acc.2)
  end.

Definition convert_server (acc : list OpenAITool * gmap string (string * string))
    (server : ServerEntry) : list OpenAITool * gmap string (string * string) :=
  foldl (convert_entry (strip_or (se_name server) "server")) acc (se_tools server).

Definition _convert_mcp_to_openai_tools (mcp_servers : list ServerEntry)
    : list OpenAITool * gmap string (string * string) :=
  foldl convert_server ([], ∅) mcp_servers.

(** The dict [_convert_mcp_to_openai_tools] appends to [tools] for a tool. *)
Definition to_openai_dict (tool : OpenAITool) : pyval :=
  PDict [("type", PStr "function");
         ("function", PDict [("name", PStr (fn_name tool));
                             ("description", PStr (fn_description tool));
                             ("parameters", fn_parameters tool)])].

(** What a listing session with a tool provider does: it lists tools (name,
    description, input schema), raises, or never completes. *)
Inductive ListingRun : Type :=
  | ListsTools (tools : list (string * option string * pyval))
  | ListingException (message : string)
  | ListingNeverCompletes.

Class ToolListings := {
  (** by server parameters *)
  stdio_list_tools : string → ListingRun }.

Section Discovery.
Context `{ToolListings}.

(** The attributes [server_configs] (name and parameters of each server, in
    order) and [tool_blacklist], which the record [t] does not carry, are
    arguments here. *)

(** [ToolManager.__init__] *)
Definition __init__ (server_configs : list (string * string)) (timeout_seconds : nat) : t :=
  mk (foldl (λ d cfg, <[cfg.1 := cfg.2]> d) ∅ server_configs) timeout_seconds None.

(** The entry of one server in [list_tools]; [None] when its session never
    completes ([list_tools] waits without a timeout). *)
Definition list_server_tools (tool_blacklist : list (string * string))
    (cfg : string * string) : option ServerEntry :=
  match stdio_list_tools cfg.2 with
  | ListsTools tools =>
      Some (mkServerEntry cfg.1
              (map (λ tool, ListedTool tool.1.1 tool.1.2 tool.2)
                 (filter (λ tool, (cfg.1, tool.1.1) ∉ tool_blacklist) tools)))
  | ListingException message => Some (mkServerEntry cfg.1 [FailedListing message])
  | ListingNeverCompletes => None
  end.

Fixpoint list_tools (tool_blacklist : list (string * string))
    (server_configs : list (string * string)) : option (list ServerEntry) :=
  match server_configs with
  | [] => Some []
  | cfg :: rest =>
      match list_server_tools tool_blacklist cfg with
      | None => None
      | Some entry =>
          match list_tools tool_blacklist rest with
          | None => None
          | Some entries => Some (entry :: entries)
          end
      end
  end.

(** [list_openai_tools]: the manager with its dispatch table set, and the
    tools returned. *)
Definition list_openai_tools (self : t) (tool_blacklist : list (string * string))
    (server_configs : list (string * string)) : option (t * list OpenAITool) :=
  match list_tools tool_blacklist server_configs with
  | None => None
  | Some tools =>
      let '(openai_tools, dispatch) := _convert_mcp_to_openai_tools tools in
      Some (mk (server_dict self) (timeout_seconds self) (Some dispatch), openai_tools)
  end.

End Discovery.
End ToolManager.

(** ** pepper/llm_client/llm_client.py *)

Module LlmClient.

Definition MODEL_PROVIDERS : gmap string string :=
  list_to_map [
    ("gpt-4", "openai");
    ("gpt-4o", "openai");
    ("gpt-4o-mini", "openai");
    ("gpt-4-turbo", "openai");
    ("gpt-3.5-turbo", "openai");
    ("claude-3-5-sonnet", "bedrock");
    ("claude-3-5-haiku", "bedrock");
    ("claude-3-opus", "bedrock");
    ("claude-3-sonnet", "bedrock");
    ("claude-3-haiku", "bedrock");
    ("claude-3-5-sonnet-direct", "anthropic");
    ("claude-3-5-haiku-direct", "anthropic");
    ("us.anthropic.claude-3-5-sonnet-20241022-v2:0", "bedrock");
    ("us.anthropic.claude-3-5-haiku-20241022-v1:0", "bedrock")].

(** [str.lower] on ASCII text: the letters A-Z are mapped to a-z and every
    other byte is kept. On text with a byte above 127 Python's [str.lower]
    differs: it also lowers letters outside ASCII, some of them to ASCII
    letters (U+212A, the Kelvin sign, to [k]). What is stated of [lower] for
    an arbitrary text is therefore stated for [isascii] text. *)
Definition lower_ascii (c : Ascii.ascii) : Ascii.ascii :=
  let n := Ascii.nat_of_ascii c in
  if (65 <=? n) && (n <=? 90) then Ascii.ascii_of_nat (n + 32) else c.

Fixpoint lower (s : string) : string :=
  match s with
  | EmptyString => EmptyString
  | String c rest => String (lower_ascii c) (lower rest)
  end.

(** [str.isascii] on the bytes of the text *)
Fixpoint isascii (s : string) : bool :=
  match s with
  | EmptyString => true
  | String c rest => (Ascii.nat_of_ascii c <? 128) && isascii rest
  end.

(** [os.environ.get(k)] is truthy *)
Definition env_set (environ : gmap string string) (k : string) : bool :=
  opt_truthy (environ !! k).

Definition get_provider_for_model (environ : gmap string string) (model : string)
    : Res string :=
  let override_provider := environ !! "LLM_PROVIDER" in
  if opt_truthy override_provider
  then Returned (lower (default "" override_provider))
  else
    let provider := MODEL_PROVIDERS !! model in
    if opt_truthy provider then Returned (default "" provider)
    else if env_set environ "OPENAI_API_KEY" then Returned "openai"
    else if env_set environ "BEDROCK_API_KEY" || env_set environ "AWS_API_KEY"
    then Returned "bedrock"
    else if env_set environ "ANTHROPIC_API_KEY" then Returned "anthropic"
    else Raised (ValueError ("Cannot determine provider for model '" +:+ model
                   +:+ "'. Set LLM_PROVIDER env var or configure API keys.")).

(** The provider adapters [create_completion] chooses between. *)
Inductive Adapter : Type := call_openai_api | call_bedrock_api | call_anthropic_api.

(** The routing of [create_completion]: which adapter receives the call. *)
Definition create_completion_adapter (environ : gmap string string) (model : string)
    : Res Adapter :=
  provider ← get_provider_for_model environ model;
  if String.eqb provider "openai" then Returned call_openai_api
  else if String.eqb provider "bedrock" then Returned call_bedrock_api
  else if String.eqb provider "anthropic" then Returned call_anthropic_api
  else Raised (ValueError ("Unknown provider: " +:+ provider)).

(** [get_available_providers]: the dict, in its order. *)
Definition get_available_providers (environ : gmap string string) : list (string * bool) :=
  [("openai", env_set environ "OPENAI_API_KEY");
   ("bedrock", env_set environ "BEDROCK_API_KEY" || env_set environ "AWS_API_KEY");
   ("anthropic", env_set environ "ANTHROPIC_API_KEY")].

Definition list_available_models (environ : gmap string string) : list string :=
  (if env_set environ "OPENAI_API_KEY"
   then ["gpt-4"; "gpt-4o"; "gpt-4o-mini"; "gpt-3.5-turbo"] else [])
  ++ (if env_set environ "BEDROCK_API_KEY" || env_set environ "AWS_API_KEY"
      then ["claude-3-5-sonnet"; "claude-3-5-haiku"; "claude-3-opus"] else [])
  ++ (if env_set environ "ANTHROPIC_API_KEY"
      then ["claude-3-5-sonnet-direct"; "claude-3-5-haiku-direct"] else []).

End LlmClient.

(** ** The provider-wire form of messages (OpenAI chat format) *)

Module Wire.

(** [{"id": ..., "type": "function", "function": {"name": ..., "arguments": ...}}] *)
Record FunctionCall := mkFunctionCall {
  fc_id : string;
  fc_name : string;
  fc_arguments : string }.

(** The dicts the agents send to the router. [WAssistant] has the key
    ["tool_calls"] only when [tool_calls] is [Some]; [WFunctionCall] is the
    only one without a ["role"] key. *)
Inductive Msg : Type :=
  | WSystem (content : string)
  | WAssistant (content : option string) (tool_calls : option (list FunctionCall))
  | WUser (content : string)
  | WFunctionCall (fc : FunctionCall)
  | WTool (tool_call_id : string) (content : pyval).

(** [msg["role"]] *)
Definition role (msg : Msg) : Res string :=
  match msg with
  | WSystem _ => Returned "system"
  | WAssistant _ _ => Returned "assistant"
  | WUser _ => Returned "user"
  | WFunctionCall _ => Raised (KeyError "role")
  | WTool _ _ => Returned "tool"
  end.

End Wire.
Import Wire.

(** The completion router as the agents see it: the reply to a request, by
    the number of earlier requests (a scripted provider) and the messages
    sent. *)
Class CompletionRouter := {
  create_completion : nat → list Msg → Res AssistantMessage }.

(** [await create_completion(messages, ...)] by an object living in the world. *)
Definition complete `{CompletionRouter} {X} (messages : list Msg)
    : M (X * World) AssistantMessage :=
  λ '(x, w), (create_completion (completions w) messages,
              (x, set_completions Nat.succ w)).

(** ** WorkerStateTracker (pepper/services/state_tracker.py) *)

Module WorkerStateTracker.

(** [super().__init__(context_store, "memory-" + agent_name if agent_name else None)] *)
Definition __init__ (agent_name : option string) : StateTracker.t :=
  StateTracker.__init__
    (match agent_name with
     | Some name => if str_truthy name then Some ("memory-" +:+ name) else None
     | None => None
     end).

Definition tool_call_to_openai (tc : ToolCall) : FunctionCall :=
  mkFunctionCall (tc_id tc) (tc_name tc) (tc_arguments tc).

Definition _to_openai_format (event : Event) : Res Msg :=
  match event with
  | EAssistantMessage am =>
      Returned (WAssistant (am_content am)
                  (match am_tool_calls am with
                   | Some (tc :: tcs) => Some (map tool_call_to_openai (tc :: tcs))
                   | _ => None
                   end))
  | EUserMessage content => Returned (WUser content)
  | EToolCall tc => Returned (WFunctionCall (tool_call_to_openai tc))
  | EToolCallResult tr => Returned (WTool (tr_id tr) (tr_result tr))
  | _ => Raised (ValueError ("Unknown event type: " +:+ class_name event))
  end.

(** [[self._to_openai_format(event) for event in self.events]]: the first
    event that raises ends the comprehension. *)
Fixpoint to_openai_all (events : list Event) : Res (list Msg) :=
  match events with
  | [] => Returned []
  | event :: rest =>
      msg ← _to_openai_format event;
      msgs ← to_openai_all rest;
      Returned (msg :: msgs)
  end.

Definition messages (self : StateTracker.t) : Res (list Msg) :=
  to_openai_all (StateTracker.events self).

End WorkerStateTracker.

(** ** pepper/agent/worker.py *)

Module Worker.

(** [tools] is filled by [_ensure_tools] together with the dispatch table of
    the tool manager; the agent here is the agent after that discovery. *)
Record t := mk {
  tool_manager : ToolManager.t;
  max_steps : nat }.

Section Worker.
Context `{PyLib} `{Prompts} `{SummarizerClient} `{ContextQuery}
        `{CompletionRouter} `{ToolManager.ToolProviders}.

#[local] Abbreviation Mw := (M (StateTracker.t * World)).

(** The payload handling of the final-answer branch. *)
Definition final_answer (fn_args : string) : Res pyval :=
  let payload := default (PDict []) (json_loads fn_args) in
  answer ← (if truthy payload
            then match payload with
                 | PDict entries => Returned (default (PStr "") (dict_get entries "answer"))
                 | _ => Raised (AttributeError "object has no attribute 'get'")
                 end
            else Returned (PStr ""));
  Returned (match answer with
            | PStr "" => PStr fn_args
            | _ => answer
            end).

(** The first loop over the reply's tool calls: the first call of the
    reserved tool, if any. *)
Definition find_final_answer_call (tool_calls : list ToolCall) : option ToolCall :=
  List.find (λ tc, String.eqb (tc_name tc) "return_final_answer") tool_calls.

(** The second loop over the tool calls: [inr answer] when it returns from
    [call], [inl tool_call_tasks] when it runs to its end. *)
Fixpoint collect_tool_calls (tool_calls tool_call_tasks : list ToolCall)
    : Mw (list ToolCall + pyval) :=
  match tool_calls with
  | [] => mret (inl tool_call_tasks)
  | tool_call :: rest =>
      if String.eqb (tc_name tool_call) "return_final_answer"
      then
        answer ← lift_res (final_answer (tc_arguments tool_call));
        StateTracker.add_event
          (EToolCallResult (mkToolCallResult (tc_id tool_call) (Some (tc_name tool_call))
                              (PStr "SEND SUCCESSFULLY"))) ;;
        StateTracker.store_events ;;
        mret (inr answer)
      else collect_tool_calls rest (tool_call_tasks ++ [tool_call])
  end.

(** The results of a list of outcomes, or the first raise in list order. *)
Fixpoint first_raise {A} (rs : list (Res A)) : Res (list A) :=
  match rs with
  | [] => Returned []
  | r :: rest => a ← r; as' ← first_raise rest; Returned (a :: as')
  end.

(** [await asyncio.gather] over [tool_call_tasks]: every task is started; the
    results come back in the order of the tasks. Of several raising tasks
    the one reported here is the first of the list. *)
Definition gather (self : t) (tool_call_tasks : list ToolCall) : Mw (list ToolCallResult) :=
  λ '(st, w),
    (first_raise (map (λ tc, snd (ToolManager.call_openai_tool (tool_manager self) tc))
                      tool_call_tasks),
     (st, set_tool_dispatches (λ ds, ds ++ tool_call_tasks) w)).

(** One iteration of [while steps < self.max_steps]; [Some answer] when the
    iteration returns from [call]. *)
Definition step (self : t) (system_message : Msg) : Mw (option pyval) :=
  st ← StateTracker.self;
  msgs ← lift_res (WorkerStateTracker.messages st);
  reply ← complete (system_message :: msgs);
  let assistant_msg :=
    match find_final_answer_call (requested_tool_calls reply) with
    | Some return_final_answer_tool_call =>
        mkAssistantMessage (am_content reply) (Some [return_final_answer_tool_call]) None
    | None => reply
    end in
  StateTracker.add_event (EAssistantMessage assistant_msg) ;;
  match requested_tool_calls assistant_msg with
  | [] => mret None
  | tool_calls =>
      collected ← collect_tool_calls tool_calls [];
      match collected with
      | inr answer => mret (Some answer)
      | inl [] => mret None
      | inl tool_call_tasks =>
          tool_result_msgs ← gather self tool_call_tasks;
          for_each (λ tr, StateTracker.add_event (EToolCallResult tr)) tool_result_msgs ;;
          mret None
      end
  end.

(** The scan after the loop: the content of the last message with role
    ["assistant"]. *)
Fixpoint last_assistant (reversed_messages : list Msg) : Res (option string) :=
  match reversed_messages with
  | [] => Returned None
  | msg :: rest =>
      r ← role msg;
      if String.eqb r "assistant"
      then Returned (match msg with WAssistant content _ => content | _ => None end)
      else last_assistant rest
  end.

(** [return last_assistant or ""] *)
Definition step_ceiling_result : Mw pyval :=
  st ← StateTracker.self;
  msgs ← lift_res (WorkerStateTracker.messages st);
  found ← lift_res (last_assistant (reverse msgs));
  mret (PStr (match found with
              | Some text => if str_truthy text then text else ""
              | None => ""
              end)).

(** [while steps < self.max_steps], by the number of steps left. *)
Fixpoint steps_loop (self : t) (system_message : Msg) (remaining : nat) : Mw pyval :=
  match remaining with
  | 0 => step_ceiling_result
  | S remaining' =>
      r ← step self system_message;
      match r with
      | Some answer => mret answer
      | None => steps_loop self system_message remaining'
      end
  end.

Definition utc_now : Mw string :=
  λ '(st, w), (Returned (utc_now_str (clock_reads w)), (st, set_clock_reads Nat.succ w)).

(** [WorkerAgent.call], on the tracker it creates; the result comes with the
    final tracker and world. *)
Definition call_on_tracker (self : t) (request : string) : Mw pyval :=
  StateTracker.retrieve_history ;;
  time_str ← utc_now;
  st ← StateTracker.self;
  let system_prompt :=
    if opt_truthy (StateTracker.summary st)
    then WORKER_SYSTEM_PROMPT +:+ nl +:+ nl +:+ "The past summary is: "
           +:+ fmt_opt (StateTracker.summary st)
    else WORKER_SYSTEM_PROMPT in
  StateTracker.add_event
    (EUserMessage (request +:+ nl +:+ nl +:+ "Current time: " +:+ time_str
                     +:+ " at UTC timezone")) ;;
  steps_loop self (WSystem system_prompt) (max_steps self).

Definition call (self : t) (request : string) (agent_name : option string) (w : World)
    : Res pyval * (StateTracker.t * World) :=
  call_on_tracker self request (WorkerStateTracker.__init__ agent_name, w).

End Worker.
End Worker.

(** ** SchedulerStateTracker (pepper/services/state_tracker.py) *)

Module SchedulerStateTracker.
Section SchedulerStateTracker.
Context `{PyLib}.

Definition __init__ : StateTracker.t := StateTracker.__init__ (Some "memory-scheduler").

Definition format_tool_call (tc : ToolCall) : string :=
  "<tool_call>id: " +:+ tc_id tc +:+ " Function: " +:+ tc_name tc
    +:+ " Arguments: " +:+ tc_arguments tc +:+ "</tool_call>".

(** [StateTracker._format_event], the prompt rendering. *)
Definition _format_event (event : Event) : string :=
  match event with
  | EUserMessage content => "<user_message>" +:+ content +:+ "</user_message>"
  | EAssistantMessage am =>
      let msgs :=
        match am_content am with
        | Some "WAIT" => []
        | content => ["<send_to_user>" +:+ fmt_opt content +:+ "</send_to_user>"]
        end in
      String.concat nl (msgs ++ map format_tool_call (requested_tool_calls am))
  | EToolCall tc => format_tool_call tc
  | EToolCallResult tr =>
      "<tool_result>id: " +:+ tr_id tr +:+ " Return: " +:+ py_str (tr_result tr)
        +:+ "</tool_result>"
  | EGenericEvent type content =>
      "<event type=" +:+ dq +:+ fmt_opt type +:+ dq +:+ ">" +:+ py_str content +:+ "</event>"
  | EWait content => "<wait>" +:+ content +:+ "</wait>"
  | ESendToUser _ =>
      "<event type=" +:+ dq +:+ class_name event +:+ dq +:+ ">" +:+ model_dump_json event
        +:+ "</event>"
  end.

Definition user_prompt (self : StateTracker.t) : string :=
  let history :=
    "Recent conversation history:" +:+ nl
    +:+ String.concat nl (map _format_event (StateTracker.events self)) in
  if opt_truthy (StateTracker.summary self)
  then "Past conversation summary:" +:+ nl +:+ fmt_opt (StateTracker.summary self)
         +:+ nl +:+ nl +:+ history
  else history.

End SchedulerStateTracker.
End SchedulerStateTracker.

(** ** pepper/agent/scheduler.py *)

(** The profile service of the scheduler ([UserProfileService]), reading and
    refreshing the cached profile in the world; the result is the profile as
    the f-string of the system prompt renders it. *)
Class UserProfile := {
  get_user_profile : World → Res string * World }.

Module Scheduler.

(** The two [asyncio.Queue]s are lists in arrival order, oldest first. The
    attributes used only at start-up are left out. *)
Record t := mk {
  max_batch_size : nat;
  event_queue : list Event;
  tool_call_queue : list ToolCall;
  state_tracker : StateTracker.t;
  debug_enabled : bool }.

Definition set_event_queue (q : list Event) (a : t) : t :=
  mk (max_batch_size a) q (tool_call_queue a) (state_tracker a) (debug_enabled a).
Definition set_tool_call_queue (f : list ToolCall → list ToolCall) (a : t) : t :=
  mk (max_batch_size a) (event_queue a) (f (tool_call_queue a)) (state_tracker a)
     (debug_enabled a).
Definition set_state_tracker (st : StateTracker.t) (a : t) : t :=
  mk (max_batch_size a) (event_queue a) (tool_call_queue a) st (debug_enabled a).

(** [asyncio.Queue.get]: [None] while the queue is empty (the caller is
    suspended), the oldest item and the rest otherwise. *)
Definition queue_get {A} (queue : list A) : option (A * list A) :=
  match queue with
  | [] => None
  | item :: rest => Some (item, rest)
  end.

(** [asyncio.Queue.empty] *)
Definition queue_empty {A} (queue : list A) : bool :=
  match queue with [] => true | _ => false end.

(** What a caller of [get_batch_events] observes: it is still suspended in a
    [get] (with the events collected so far), or the call returned a batch
    and left the rest in the queue. *)
Inductive Batch : Type :=
  | Suspended (collected : list Event)
  | Collected (events rest : list Event).

(** [while not self.event_queue.empty() and len(events) < max_batch_size], by
    the room left in the batch, [max_batch_size - len(events)]. *)
Fixpoint drain (room : nat) (queue events : list Event) : Batch :=
  match room with
  | 0 => Collected events queue
  | S room' =>
      if queue_empty queue then Collected events queue
      else match queue_get queue with
           | None => Suspended events
           | Some (new_event, queue') => drain room' queue' (events ++ [new_event])
           end
  end.

Definition get_batch_events (queue : list Event) (max_batch_size : nat) : Batch :=
  match queue_get queue with
  | None => Suspended []
  | Some (first, queue') => drain (max_batch_size - 1) queue' [first]
  end.

Inductive StepStatus : Type := StepSuspended | StepDone.

Section Scheduler.
Context `{PyLib} `{Prompts} `{SummarizerClient} `{ContextQuery}
        `{CompletionRouter} `{UserProfile}.

#[local] Abbreviation Ms := (M (t * World)).

Definition self : Ms t := λ '(a, w), (Returned a, (a, w)).
Definition update (f : t → t) : Ms unit := λ '(a, w), (Returned tt, (f a, w)).

(** A method of [self.state_tracker] run from the scheduler. *)
Definition on_state_tracker {A} (m : M (StateTracker.t * World) A) : Ms A :=
  λ '(a, w),
    let '(r, (st, w')) := m (state_tracker a, w) in
    (r, (set_state_tracker st a, w')).

Definition log_debug (event_type : string) (data : pyval) : Ms unit :=
  a ← self;
  if negb (debug_enabled a) then mret tt
  else
    timestamp ← read_clock;
    now ← read_clock;
    cs_store ("scheduler_debug_" +:+ event_type +:+ "_" +:+ now)
      (mkContextRecord (DebugData event_type timestamp data) "scheduler_debug" "debug_log"
         ["scheduler_debug"; event_type]).

Definition send_to_user (message : string) : Ms unit :=
  now ← read_clock;
  cs_store ("send_to_user_" +:+ now)
    (mkContextRecord (MessageData message) "send_to_user" "user_message" []).

Definition profile : Ms string :=
  λ '(a, w), let '(r, w') := get_user_profile w in (r, (a, w')).

(** The reason of a [wait] call: [None] when the arguments do not parse or
    are not an object. *)
Definition wait_reason (fn_args : string) : option pyval :=
  match json_loads fn_args with
  | None => None
  | Some args =>
      if truthy args
      then match args with
           | PDict entries => dict_get entries "reason"
           | _ => None
           end
      else None
  end.

(** [Wait(content=reason or "")]: pydantic accepts a [str] for [content]. *)
Definition make_wait (reason : option pyval) : Res Event :=
  match reason with
  | None => Returned (EWait "")
  | Some v =>
      if truthy v
      then match v with
           | PStr s => Returned (EWait s)
           | _ => Raised (ValidationError "Wait.content: Input should be a valid string")
           end
      else Returned (EWait "")
  end.

(** [{"reason": reason or ""}] *)
Definition reason_or_empty (reason : option pyval) : pyval :=
  match reason with
  | None => PStr ""
  | Some v => if truthy v then v else PStr ""
  end.

(** The body of [for tool_call in response.tool_calls]. *)
Definition handle_tool_call (tool_call : ToolCall) : Ms unit :=
  if String.eqb (tc_name tool_call) "wait"
  then
    let reason := wait_reason (tc_arguments tool_call) in
    wait_event ← lift_res (make_wait reason);
    on_state_tracker (StateTracker.add_event wait_event) ;;
    log_debug "wait" (PDict [("reason", reason_or_empty reason)])
  else
    on_state_tracker (StateTracker.add_event (EToolCall tool_call)) ;;
    update (set_tool_call_queue (λ q, q ++ [tool_call])).

(** Phase 2 of [step]: update state and call the LLM. *)
Definition update_state_and_call_llm (events : list Event) : Ms AssistantMessage :=
  for_each (λ event, on_state_tracker (StateTracker.add_event event)) events ;;
  user_profile ← profile;
  a ← self;
  complete
    [WSystem (SCHEDULER_SYSTEM_PROMPT +:+ nl +:+ nl +:+ "User profile: " +:+ user_profile);
     WUser (SchedulerStateTracker.user_prompt (state_tracker a))].

(** Phase 3 of [step]: process the response. *)
Definition process_response (response : AssistantMessage) : Ms unit :=
  match am_content response with
  | Some content =>
      if str_truthy content
      then
        on_state_tracker
          (StateTracker.add_event
             (EAssistantMessage (mkAssistantMessage (Some content) None None))) ;;
        send_to_user content ;;
        log_debug "send_to_user" (PDict [("content", PStr content)])
      else mret tt
  | None => mret tt
  end.

(** Phase 4 of [step]: handle the tool calls. *)
Definition handle_tool_calls (response : AssistantMessage) : Ms unit :=
  for_each handle_tool_call (requested_tool_calls response).

Definition step : Ms StepStatus :=
  a ← self;
  match get_batch_events (event_queue a) (max_batch_size a) with
  | Suspended _ => mret StepSuspended
  | Collected events rest =>
      update (set_event_queue rest) ;;
      response ← update_state_and_call_llm events;
      process_response response ;;
      handle_tool_calls response ;;
      mret StepDone
  end.

End Scheduler.
End Scheduler.

(** ** Python string methods and a second outcome type *)

Module PyStr.

(** [s.endswith(suffix)]: some tail of [s] is [suffix]. *)
Fixpoint endswith (s suffix : string) : bool :=
  String.eqb s suffix ||
  match s with
  | String _ rest => endswith rest suffix
  | EmptyString => false
  end.

(** [s.startswith(prefix)] *)
Fixpoint startswith (s prefix : string) : bool :=
  match prefix, s with
  | EmptyString, _ => true
  | String p prefix', String c rest => Ascii.eqb c p && startswith rest prefix'
  | String _ _, EmptyString => false
  end.

(** [s[n:]] *)
Fixpoint str_drop (n : nat) (s : string) : string :=
  match n, s with
  | S n', String _ rest => str_drop n' rest
  | _, _ => s
  end.

(** [s[:-1]] *)
Fixpoint but_last (s : string) : string :=
  match s with
  | EmptyString => EmptyString
  | String c rest =>
      match rest with
      | EmptyString => EmptyString
      | String _ _ => String c (but_last rest)
      end
  end.

End PyStr.
Import PyStr.

(** The outcome of a call whose exceptions are of the type [E]: the modules
    below raise exceptions that [exn] does not list. *)
Module Outcome.

Inductive Result (E A : Type) : Type :=
  | Ok (a : A)
  | Raise (e : E).
Arguments Ok {E A} a.
Arguments Raise {E A} e.

#[global] Instance Result_ret {E} : MRet (Result E) := λ A a, Ok a.
#[global] Instance Result_bind {E} : MBind (Result E) := λ A B f r,
  match r with
  | Ok a => f a
  | Raise e => Raise e
  end.

End Outcome.
Import Outcome.

(** ** pepper/llm_client/anthropic_client.py *)

Module AnthropicClient.

(** The [mapping] of [_normalize_model_name]. *)
Definition mapping : gmap string string :=
  list_to_map [
    ("claude-3-5-sonnet-direct", "claude-3-5-sonnet-latest");
    ("claude-3-5-haiku-direct", "claude-3-5-haiku-latest");
    ("claude-3-opus-direct", "claude-3-opus-latest")].

Definition _normalize_model_name (model : string) : string :=
  match mapping !! model with
  | Some name => name
  | None =>
      if endswith model "-sonnet" then model +:+ "-latest"
      else if endswith model "-haiku" then model +:+ "-latest"
      else if endswith model "-opus" then model +:+ "-latest"
      else model
  end.

(** [v.get(k)]: an [AttributeError] on a value that is no dict. *)
Definition get_key (v : pyval) (k : string) : Res (option pyval) :=
  match v with
  | PDict entries => Returned (dict_get entries k)
  | _ => Raised (AttributeError "object has no attribute 'get'")
  end.

(** The loop of [_convert_openai_tools_to_anthropic]: the entries whose
    [type] is not [function] are skipped. *)
Fixpoint converted_tools (tools : list pyval) : Res (list pyval) :=
  match tools with
  | [] => Returned []
  | tool :: rest =>
      type ← get_key tool "type";
      match type with
      | Some (PStr "function") =>
          function ← get_key tool "function";
          let fn := default (PDict []) function in
          name ← get_key fn "name";
          description ← get_key fn "description";
          parameters ← get_key fn "parameters";
          converted ← converted_tools rest;
          Returned (PDict [("name", default PNone name);
                           ("description", default (PStr "") description);
                           ("input_schema", default (PDict []) parameters)]
                    :: converted)
      | _ => converted_tools rest
      end
  end.

Definition _convert_openai_tools_to_anthropic (tools : option (list pyval))
    : Res (option (list pyval)) :=
  match tools with
  | None | Some [] => Returned None
  | Some tools =>
      converted ← converted_tools tools;
      Returned (match converted with [] => None | _ => Some converted end)
  end.

(** The content blocks of a request: [{"type": "text", "text"}],
    [{"type": "tool_use", "id", "name", "input"}] and
    [{"type": "tool_result", "tool_use_id", "content": [{"type": "text", "text"}]}]. *)
Inductive Block : Type :=
  | Text (text : string)
  | ToolUse (id name : string) (input : pyval)
  | ToolResult (tool_use_id : string) (text : pyval).

(** The [content] of a request message: a string or a list of blocks. *)
Inductive Content : Type :=
  | Plain (text : string)
  | Blocks (blocks : list Block).

Record Message := mkMessage {
  role : option string;
  content : Content }.

(** [messages.create(model, system, tools, messages)] *)
Record Request := mkRequest {
  rq_model : string;
  rq_system : option string;
  rq_tools : option (list pyval);
  rq_messages : list Message }.

(** The blocks of a reply, as the SDK returns them. *)
Inductive ResponseBlock : Type :=
  | RText (text : option string)
  | RToolUse (id name : string) (input : option pyval).

Section AnthropicClient.
Context `{PyLib}.

(** The [tool_use] block of one OpenAI-style tool call: arguments that are
    not JSON, or are falsy JSON, give the input [{}]. *)
Definition tool_use_block (tc : FunctionCall) : Block :=
  let args := default (PDict []) (json_loads (fc_arguments tc)) in
  ToolUse (fc_id tc) (fc_name tc) (if truthy args then args else PDict []).

(** The body of [for msg in messages] in [call_anthropic_api], on
    [system_text] and [simple_messages]. *)
Definition prepare_message (acc : option string * list Message) (msg : Msg)
    : option string * list Message :=
  let '(system_text, simple_messages) := acc in
  match msg with
  | WSystem text =>
      (Some (if opt_truthy system_text
             then fmt_opt system_text +:+ nl +:+ nl +:+ text
             else text),
       simple_messages)
  | WTool tool_call_id content =>
      let tool_text := if truthy content then content else PStr "" in
      (system_text,
       simple_messages
         ++ [mkMessage (Some "user") (Blocks [ToolResult tool_call_id tool_text])])
  | WAssistant content_text tool_calls =>
      let blocks :=
        (if opt_truthy content_text then [Text (default "" content_text)] else [])
        ++ map tool_use_block (default [] tool_calls) in
      let blocks := match blocks with [] => [Text ""] | _ => blocks end in
      (system_text, simple_messages ++ [mkMessage (Some "assistant") (Blocks blocks)])
  | WUser content => (system_text, simple_messages ++ [mkMessage (Some "user") (Plain content)])
  | WFunctionCall _ => (system_text, simple_messages ++ [mkMessage None (Plain "")])
  end.

Definition prepare_messages (messages : list Msg) : option string * list Message :=
  foldl prepare_message (None, []) messages.

(** What [call_anthropic_api] passes to [client.messages.create]. *)
Definition request (messages : list Msg) (model : string) (tools : option (list pyval))
    : Res Request :=
  anthropic_tools ← _convert_openai_tools_to_anthropic tools;
  let '(system_text, simple_messages) := prepare_messages messages in
  Returned (mkRequest (_normalize_model_name model)
              (if opt_truthy system_text then system_text else None)
              anthropic_tools simple_messages).

Definition _convert_tool_use_to_openai (id name : string) (input : option pyval)
    : FunctionCall :=
  mkFunctionCall id name (json_dumps (default (PDict []) input)).

(** The reply of [call_anthropic_api], from the blocks and the stop reason
    of the response. *)
Definition assistant_message (response_content : list ResponseBlock)
    (stop_reason : option string) : AssistantMessage :=
  let text_content :=
    foldl (λ text block,
             match block with
             | RText value => text +:+ default "" value
             | RToolUse _ _ _ => text
             end) "" response_content in
  let tool_calls_oa :=
    omap (λ block,
            match block with
            | RText _ => None
            | RToolUse id name input => Some (_convert_tool_use_to_openai id name input)
            end) response_content in
  mkAssistantMessage
    (if str_truthy text_content then Some text_content else None)
    (Some (map (λ tc, mkToolCall (fc_id tc) (fc_name tc) (fc_arguments tc)) tool_calls_oa))
    stop_reason.

End AnthropicClient.
End AnthropicClient.

(** ** pepper/llm_client/bedrock_anthropic_client.py *)

Module BedrockClient.

(** The exceptions of the conversions. *)
Inductive error : Type :=
  | KeyError (key : string)
  | TypeError (msg : string)
  | JSONDecodeError (doc : string)
  | IndexError (msg : string).

#[local] Abbreviation Result := (Outcome.Result error).

(** The [model_mapping] of [_convert_model_name]. *)
Definition model_mapping : gmap string string :=
  list_to_map [
    ("gpt-4", "us.anthropic.claude-3-5-sonnet-20241022-v2:0");
    ("gpt-4o", "us.anthropic.claude-3-5-sonnet-20241022-v2:0");
    ("gpt-4.1", "us.anthropic.claude-3-5-sonnet-20241022-v2:0");
    ("gpt-3.5-turbo", "us.anthropic.claude-3-5-haiku-20241022-v1:0");
    ("claude-3-5-sonnet", "us.anthropic.claude-3-5-sonnet-20241022-v2:0");
    ("claude-3-5-haiku", "us.anthropic.claude-3-5-haiku-20241022-v1:0");
    ("claude-3-opus", "us.anthropic.claude-3-opus-20240229-v1:0")].

Definition _convert_model_name (model : string) : string :=
  default model (model_mapping !! model).

(** [{"toolUseId", "name", "input"}] *)
Record ToolUse := mkToolUse {
  use_id : string;
  use_name : string;
  use_input : pyval }.

(** [{"toolUseId", "content": [{"text": ...}]}] *)
Record ToolResult := mkToolResult {
  result_id : string;
  result_text : pyval }.

(** A content block of a request: a dict with the keys present among
    [text], [toolUse] and [toolResult]. *)
Record Block := mkBlock {
  text : option string;
  toolUse : option ToolUse;
  toolResult : option ToolResult }.

Record Message := mkMessage {
  role : string;
  content : list Block }.

(** [{"toolUse": {"toolUseId", "name", "input"}}] of a response, where
    [input] may be missing. *)
Record ResponseToolUse := mkResponseToolUse {
  ru_id : string;
  ru_name : string;
  ru_input : option pyval }.

(** A content item of a response: a dict with the keys present among [text]
    and [toolUse]. *)
Record ContentItem := mkContentItem {
  item_text : option string;
  item_toolUse : option ResponseToolUse }.

(** [v[k]] *)
Definition item (v : pyval) (k : string) : Result pyval :=
  match v with
  | PDict entries =>
      match dict_get entries k with
      | Some x => Ok x
      | None => Raise (KeyError k)
      end
  | _ => Raise (TypeError "indices must be integers or the object is not subscriptable")
  end.

(** [function.get(k, fallback)] on a value that was subscripted by a string
    before, so is a dict. *)
Definition get_or (v : pyval) (k : string) (fallback : pyval) : pyval :=
  match v with
  | PDict entries => default fallback (dict_get entries k)
  | _ => fallback
  end.

Fixpoint _convert_tools_to_bedrock (tools : list pyval) : Result (list pyval) :=
  match tools with
  | [] => Ok []
  | tool :: rest =>
      type ← item tool "type";
      match type with
      | PStr "function" =>
          function ← item tool "function";
          name ← item function "name";
          let bedrock_tool :=
            PDict [("toolSpec",
                    PDict [("name", name);
                           ("description", get_or function "description" (PStr ""));
                           ("inputSchema",
                            PDict [("json", get_or function "parameters" (PDict []))])])] in
          bedrock_tools ← _convert_tools_to_bedrock rest;
          Ok (bedrock_tool :: bedrock_tools)
      | _ => _convert_tools_to_bedrock rest
      end
  end.

Section BedrockClient.
Context `{PyLib}.

(** [for tool_call in msg["tool_calls"]]: the [json.loads] of the arguments
    is not guarded. *)
Fixpoint tool_uses (tool_calls : list FunctionCall) : Result (list Block) :=
  match tool_calls with
  | [] => Ok []
  | tool_call :: rest =>
      input ← match json_loads (fc_arguments tool_call) with
              | Some v => Ok v
              | None => Raise (JSONDecodeError (fc_arguments tool_call))
              end;
      blocks ← tool_uses rest;
      Ok (mkBlock None (Some (mkToolUse (fc_id tool_call) (fc_name tool_call) input)) None
          :: blocks)
  end.

(** The body of the first loop of [_convert_messages_to_bedrock]; [None] for
    a system message, which the loop skips. *)
Definition convert_message (msg : Msg) : Result (option Message) :=
  match msg with
  | WFunctionCall _ => Raise (KeyError "role")
  | WSystem _ => Ok None
  | WAssistant content tool_calls =>
      let texts :=
        if opt_truthy content then [mkBlock (Some (default "" content)) None None] else [] in
      uses ← match tool_calls with
             | Some (tool_call :: rest) => tool_uses (tool_call :: rest)
             | _ => Ok []
             end;
      Ok (Some (mkMessage "assistant" (texts ++ uses)))
  | WUser content =>
      Ok (Some (mkMessage "user"
                  (if str_truthy content then [mkBlock (Some content) None None] else [])))
  | WTool tool_call_id content =>
      Ok (Some (mkMessage "user"
                  [mkBlock None None (Some (mkToolResult tool_call_id content))]))
  end.

Fixpoint convert_messages (messages : list Msg) : Result (list Message) :=
  match messages with
  | [] => Ok []
  | msg :: rest =>
      converted ← convert_message msg;
      bedrock_messages ← convert_messages rest;
      Ok (match converted with
          | Some bedrock_msg => bedrock_msg :: bedrock_messages
          | None => bedrock_messages
          end)
  end.

(** The second loop: the content of the first system message. *)
Fixpoint first_system (messages : list Msg) : Result (option string) :=
  match messages with
  | [] => Ok None
  | WSystem content :: _ => Ok (Some content)
  | WFunctionCall _ :: _ => Raise (KeyError "role")
  | _ :: rest => first_system rest
  end.

Definition _convert_messages_to_bedrock (messages : list Msg) : Result (list Message) :=
  bedrock_messages ← convert_messages messages;
  system_content ← first_system messages;
  match bedrock_messages with
  | first :: rest =>
      if opt_truthy system_content && String.eqb (role first) "user"
      then
        match content first with
        | [] => Raise (IndexError "list index out of range")
        | block :: blocks =>
            let first_text := default "" (text block) in
            let block :=
              mkBlock (Some (fmt_opt system_content +:+ nl +:+ nl +:+ first_text))
                      (toolUse block) (toolResult block) in
            Ok (mkMessage (role first) (block :: blocks) :: rest)
        end
      else Ok bedrock_messages
  | [] => Ok bedrock_messages
  end.

(** The [toolConfig] of the payload of [create_completion]: present when
    [tools] is a non-empty list. *)
Definition tool_config (tools : option (list pyval)) : Result (option (list pyval)) :=
  match tools with
  | None | Some [] => Ok None
  | Some tools => bedrock_tools ← _convert_tools_to_bedrock tools; Ok (Some bedrock_tools)
  end.

(** The reply of [call_bedrock_api], from the content items and the
    [stopReason] of the response: of several text items the last one stays. *)
Definition assistant_message (response_content : list ContentItem)
    (stop_reason : option string) : AssistantMessage :=
  let text_content :=
    foldl (λ text_content content_item, default text_content (item_text content_item))
          "" response_content in
  let tool_calls :=
    omap (λ content_item,
            match item_text content_item with
            | Some _ => None
            | None =>
                tool_use ← item_toolUse content_item;
                Some (mkFunctionCall (ru_id tool_use) (ru_name tool_use)
                        (json_dumps (default (PDict []) (ru_input tool_use))))
            end) response_content in
  mkAssistantMessage (Some text_content)
    (Some (map (λ tc, mkToolCall (fc_id tc) (fc_name tc) (fc_arguments tc)) tool_calls))
    (Some (default "stop" stop_reason)).

End BedrockClient.
End BedrockClient.

(** ** pepper/agent/workflow.py *)

(** [WORKFLOW_SYSTEM_PROMPT_TEMPLATE] with the task and the output format put
    in the place of its two placeholders. *)
Class WorkflowPrompts := {
  workflow_system_prompt : string → string → string }.

Module Workflow.

(** [tools] is filled by [_ensure_tools] together with the dispatch table of
    the tool manager; the agent here is the agent after that discovery. *)
Record t := mk {
  tool_manager : ToolManager.t;
  max_steps : nat }.

(** The scan after the loop: the content of the last message with role
    [assistant], or the fixed text when there is none or it is empty. *)
Fixpoint last_assistant (reversed_messages : list Msg) : option string :=
  match reversed_messages with
  | [] => None
  | WAssistant content _ :: _ => content
  | _ :: rest => last_assistant rest
  end.

Definition step_limit_result (messages : list Msg) : string :=
  let last_assistant := last_assistant (reverse messages) in
  if opt_truthy last_assistant then default "" last_assistant
  else "Workflow failed to complete within step limit.".

Section Workflow.
Context `{PyLib} `{WorkflowPrompts} `{CompletionRouter} `{ToolManager.ToolProviders}.

#[local] Abbreviation Mf := (M (list Msg * World)).

(** [messages.append(msg)] *)
Definition append (msg : Msg) : Mf unit :=
  λ '(messages, w), (Returned tt, (messages ++ [msg], w)).

(** The payload handling of the completion branch: the [get] is outside the
    [try]. *)
Definition workflow_output (fn_args : string) : Res pyval :=
  let payload := default (PDict []) (json_loads fn_args) in
  if truthy payload
  then match payload with
       | PDict entries => Returned (default (PStr "") (dict_get entries "output"))
       | _ => Raised (AttributeError "object has no attribute 'get'")
       end
  else Returned (PStr "").

(** The loop over the reply's tool calls: [inr output] when it returns from
    [execute], [inl tool_call_tasks] when it runs to its end. *)
Fixpoint collect_tool_calls (tool_calls tool_call_tasks : list ToolCall)
    : Res (list ToolCall + pyval) :=
  match tool_calls with
  | [] => Returned (inl tool_call_tasks)
  | tool_call :: rest =>
      if String.eqb (tc_name tool_call) "return_workflow_output"
      then output ← workflow_output (tc_arguments tool_call); Returned (inr output)
      else collect_tool_calls rest (tool_call_tasks ++ [tool_call])
  end.

(** [await asyncio.gather] over [tool_call_tasks], as in the worker. *)
Definition gather (self : t) (tool_call_tasks : list ToolCall) : Mf (list ToolCallResult) :=
  λ '(messages, w),
    (Worker.first_raise
       (map (λ tc, snd (ToolManager.call_openai_tool (tool_manager self) tc))
            tool_call_tasks),
     (messages, set_tool_dispatches (λ ds, ds ++ tool_call_tasks) w)).

(** One iteration of [while steps < self.max_steps]; [Some output] when the
    iteration returns from [execute]. The comprehension over
    [assistant_msg.tool_calls] raises on [None]. *)
Definition step (self : t) : Mf (option pyval) :=
  '(messages, _) ← get;
  assistant_msg ← complete messages;
  tool_calls ← lift_res
    (match am_tool_calls assistant_msg with
     | Some tool_calls => Returned (map WorkerStateTracker.tool_call_to_openai tool_calls)
     | None => Raised (TypeError "'NoneType' object is not iterable")
     end);
  append (WAssistant (am_content assistant_msg) (Some tool_calls)) ;;
  match requested_tool_calls assistant_msg with
  | [] => mret None
  | tool_calls =>
      collected ← lift_res (collect_tool_calls tool_calls []);
      match collected with
      | inr output => mret (Some output)
      | inl [] => mret None
      | inl tool_call_tasks =>
          tool_result_msgs ← gather self tool_call_tasks;
          for_each (λ tr, append (WTool (tr_id tr) (tr_result tr))) tool_result_msgs ;;
          mret None
      end
  end.

Fixpoint steps_loop (self : t) (remaining : nat) : Mf pyval :=
  match remaining with
  | 0 => '(messages, _) ← get; mret (PStr (step_limit_result messages))
  | S remaining' =>
      returned ← step self;
      match returned with
      | Some output => mret output
      | None => steps_loop self remaining'
      end
  end.

Definition execute (self : t) (task output_format : string) (w : World)
    : Res pyval * (list Msg * World) :=
  steps_loop self (max_steps self)
    ([WSystem (workflow_system_prompt task output_format);
      WUser "Execute the workflow as specified in your task definition."], w).

End Workflow.
End Workflow.

(** ** pepper/tool/config_loader.py *)

Module ConfigLoader.

(** The exceptions of the loader. *)
Inductive error : Type :=
  | FileNotFoundError (msg : string)
  | YAMLError (msg : string)
  | ValueError (msg : string).

(** The files the loader reads. *)
Class FileSystem := {
  (** [os.path.exists] *)
  path_exists : string → bool;
  (** [yaml.safe_load] of the file at a path: [PNone] for an empty file *)
  yaml_safe_load : string → Result error pyval;
  (** [os.path.join(os.path.dirname(__file__), "tools.yaml")] *)
  packaged_tools_yaml : string }.

(** The dataclass [ServerConfig]; nothing checks that [name] is a string. *)
Record ServerConfig := mkServerConfig {
  name : pyval;
  command : string;
  args : list string;
  env : list (string * string) }.

Section ConfigLoader.
Context `{PyLib} `{FileSystem}.
Variable environ : gmap string string.

Definition _default_config_path : string :=
  match environ !! "TOOL_CONFIG_PATH" with
  | Some explicit => if str_truthy explicit then explicit else packaged_tools_yaml
  | None => packaged_tools_yaml
  end.

(** [${env:VAR}] is replaced by the value of [VAR], and stays when [VAR] is
    not set; the name is [value[6:-1]]. *)
Definition _interpolate_env (value : pyval) : pyval :=
  match value with
  | PStr s =>
      if startswith s "${env:" && endswith s "}"
      then match environ !! but_last (str_drop 6 s) with
           | Some v => PStr v
           | None => value
           end
      else value
  | _ => value
  end.

(** [for i, item in enumerate(servers)], from the index [i] on. *)
Fixpoint load_servers (i : nat) (servers : list pyval) : Result error (list ServerConfig) :=
  match servers with
  | [] => Ok []
  | item :: rest =>
      match item with
      | PDict entries =>
          let name := default PNone (dict_get entries "name") in
          let command := default PNone (dict_get entries "command") in
          let args := default (PList []) (dict_get entries "args") in
          let env := default (PDict []) (dict_get entries "env") in
          if negb (truthy name) || negb (truthy command)
          then Raise (ValueError ("Server entry at index " +:+ pretty i
                                    +:+ " requires 'name' and 'command'"))
          else
            match args, env with
            | PList args, PDict env =>
                let interpolated_env :=
                  map (λ kv, (kv.1, py_str (_interpolate_env kv.2))) env in
                server_configs ← load_servers (S i) rest;
                Ok (mkServerConfig name (py_str command) (map py_str args) interpolated_env
                    :: server_configs)
            | PList _, _ =>
                Raise (ValueError ("'env' for server '" +:+ py_str name
                                     +:+ "' must be a mapping of strings"))
            | _, _ =>
                Raise (ValueError ("'args' for server '" +:+ py_str name
                                     +:+ "' must be a list of strings"))
            end
      | _ =>
          Raise (ValueError ("Server entry at index " +:+ pretty i +:+ " must be a mapping"))
      end
  end.

Definition load_tools_yaml (config_path : option string) : Result error (list ServerConfig) :=
  let path := if opt_truthy config_path then default "" config_path
              else _default_config_path in
  if negb (path_exists path)
  then Raise (FileNotFoundError ("Config file not found: " +:+ path))
  else
    loaded ← yaml_safe_load path;
    let data := if truthy loaded then loaded else PDict [] in
    match data with
    | PDict entries =>
        match dict_get entries "servers" with
        | Some (PList servers) => load_servers 0 servers
        | _ => Raise (ValueError "Config must contain 'servers' as a list")
        end
    | _ => Raise (ValueError "Config root must be a mapping object")
    end.

End ConfigLoader.
End ConfigLoader.

(** ** A concrete environment

    One instance of every interface above, on which the theorems below are
    exercised. *)

Module Sample.

(** The JSON texts used below. *)
Definition wait_pending_args : string :=
  "{" +:+ dq +:+ "reason" +:+ dq +:+ ":" +:+ dq +:+ "pending" +:+ dq +:+ "}".
Definition answer_args : string :=
  "{" +:+ dq +:+ "answer" +:+ dq +:+ ":" +:+ dq +:+ "42" +:+ dq +:+ "}".

(** An excerpt of [json.loads]: its value on the texts the examples use, and
    a raise on the one text below that is not JSON. No lemma relies on its
    answer for any other text. *)
Definition sample_json_loads (text : string) : option pyval :=
  if String.eqb text "{}" then Some (PDict [])
  else if String.eqb text wait_pending_args then Some (PDict [("reason", PStr "pending")])
  else if String.eqb text answer_args then Some (PDict [("answer", PStr "42")])
  else if String.eqb text "[1]" then Some (PList [PInt 1])
  else None.

(** A rendering of values in the manner of [json.dumps], enough to tell
    payloads apart. *)
Fixpoint sample_dumps (v : pyval) : string :=
  match v with
  | PNone => "null"
  | PBool true => "true"
  | PBool false => "false"
  | PInt z => pretty z
  | PStr s => dq +:+ s +:+ dq
  | PList items => "[" +:+ String.concat ", " (map sample_dumps items) +:+ "]"
  | PDict entries =>
      "{" +:+ String.concat ", "
                (map (λ kv, dq +:+ fst kv +:+ dq +:+ ": " +:+ sample_dumps (snd kv)) entries)
          +:+ "}"
  end.

Definition pylib : PyLib := {|
  json_loads := sample_json_loads;
  json_dumps := sample_dumps;
  py_str := λ v, match v with PStr s => s | _ => sample_dumps v end;
  model_dump_json := λ _, "{}";
  (** a clock that advances by one second per read *)
  time_time := λ n, pretty (1700000000 + N.of_nat n)%N +:+ ".0";
  utc_now_str := λ n, "2024-01-01 00:00:" +:+ pretty n |}.

Definition prompts : Prompts := {|
  summarize_prompt_format := λ structure, "You are a conversation summarizer." +:+ structure;
  scheduler_message_structure := "# Message Structure Overview";
  WORKER_SYSTEM_PROMPT := "You are a worker.";
  SCHEDULER_SYSTEM_PROMPT := "You are Pepper." |}.

(** A stub summarizer that echoes its user prompt. *)
Definition summarizer_client : SummarizerClient := {|
  chat_completions_create := λ n system user, Returned (Some user) |}.

(** A store that was never written to answers every query with no record. *)
Definition context_query : ContextQuery := {|
  context_store_query := λ records ns limit, [] |}.

(** The tool provider [docs] answers [search] after 2 seconds and needs 1000
    seconds for [crawl]. *)
Definition tool_providers : ToolManager.ToolProviders := {|
  ToolManager.stdio_session := λ params tool_name arguments,
    if String.eqb tool_name "crawl"
    then ToolManager.Completes 1000 (ToolManager.CallToolResult [ToolManager.TextContent "done"])
    else ToolManager.Completes 2 (ToolManager.CallToolResult [ToolManager.TextContent "3 hits"]) |}.

Definition tool_manager : ToolManager.t :=
  ToolManager.mk {[ "docs" := "python docs_server.py" ]} 900
    (Some {[ "docs__search" := ("docs", "search"); "docs__crawl" := ("docs", "crawl") ]}).

Definition search_call : ToolCall := mkToolCall "call_1" "docs__search" "{}".
Definition crawl_call : ToolCall := mkToolCall "call_2" "docs__crawl" "{}".
Definition final_call : ToolCall := mkToolCall "call_3" "return_final_answer" answer_args.
Definition list_final_call : ToolCall := mkToolCall "call_4" "return_final_answer" "[1]".
Definition wait_call : ToolCall := mkToolCall "call_5" "wait" wait_pending_args.

(** A provider that answers the first request with the final answer, next to
    a search it also asks for. *)
Definition router_final : CompletionRouter := {|
  create_completion := λ n messages,
    Returned (mkAssistantMessage None (Some [search_call; final_call]) (Some "tool_calls")) |}.

(** A provider whose final-answer call carries a JSON array. *)
Definition router_list_final : CompletionRouter := {|
  create_completion := λ n messages,
    Returned (mkAssistantMessage None (Some [list_final_call]) (Some "tool_calls")) |}.

(** A provider that first says what it does and then only searches. *)
Definition router_searching : CompletionRouter := {|
  create_completion := λ n messages,
    match n with
    | 0 => Returned (mkAssistantMessage (Some "Working on it") None (Some "stop"))
    | _ => Returned (mkAssistantMessage None (Some [search_call]) (Some "tool_calls"))
    end |}.

(** A provider that asks the scheduler to wait. *)
Definition router_wait : CompletionRouter := {|
  create_completion := λ n messages,
    Returned (mkAssistantMessage None (Some [wait_call]) (Some "tool_calls")) |}.

Definition user_profile : UserProfile := {|
  get_user_profile := λ w, (Returned "{}", w) |}.

Definition worker : Worker.t := Worker.mk tool_manager 10.

Definition scheduler (queue : list Event) : Scheduler.t :=
  Scheduler.mk 4 queue [] SchedulerStateTracker.__init__ true.

End Sample.

(** * Properties *)

(** ** Running computations *)

Lemma bind_returned {St A B} (m : M St A) (f : A → M St B) s a s' :
  m s = (Returned a, s') → (m ≫= f) s = f a s'.
Proof. intros E. unfold mbind, M_bind. by rewrite E. Qed.

Lemma bind_raised {St A B} (m : M St A) (f : A → M St B) s e s' :
  m s = (Raised e, s') → (m ≫= f) s = (Raised e, s').
Proof. intros E. unfold mbind, M_bind. by rewrite E. Qed.

(** A bind that returns went through a returning first part. *)
Lemma bind_inv {St A B} (m : M St A) (f : A → M St B) s b s'' :
  (m ≫= f) s = (Returned b, s'') →
  ∃ a s', m s = (Returned a, s') ∧ f a s' = (Returned b, s'').
Proof.
  unfold mbind, M_bind. destruct (m s) as [[a|e] s']; [eauto | discriminate].
Qed.

Lemma for_each_cons {St A} (body : A → M St unit) x xs s :
  for_each body (x :: xs) s = (body x ;; for_each body xs) s.
Proof. reflexivity. Qed.

Lemma for_each_app {St A} (body : A → M St unit) xs ys s :
  for_each body (xs ++ ys) s = (for_each body xs ;; for_each body ys) s.
Proof.
  revert s. induction xs as [|x xs IH]; intros s; [done|].
  cbn [app for_each]. unfold mbind, M_bind in *.
  destruct (body x s) as [[[]|e] s1]; [apply IH | done].
Qed.

(** ** Strings *)

Lemma string_app_nil_r (s : string) : s +:+ "" = s.
Proof.
  induction s as [|c s IH]; [done|].
  change (String c s +:+ "") with (String c (s +:+ "")). by rewrite IH.
Qed.

Lemma string_app_assoc (a b c : string) : (a +:+ b) +:+ c = a +:+ (b +:+ c).
Proof.
  induction a as [|ch a IH]; [done|].
  change (String ch a +:+ b) with (String ch (a +:+ b)).
  change (String ch (a +:+ b) +:+ c) with (String ch ((a +:+ b) +:+ c)).
  change (String ch a +:+ (b +:+ c)) with (String ch (a +:+ (b +:+ c))).
  by rewrite IH.
Qed.

Lemma concat_empty_cons (x : string) (l : list string) :
  String.concat "" (x :: l) = x +:+ String.concat "" l.
Proof. destruct l; cbn [String.concat]; [by rewrite string_app_nil_r|done]. Qed.

(** What a call leaves of the world untouched: the number of completions
    requested and the tool calls dispatched. *)
Definition same_traffic (w w' : World) : Prop :=
  completions w' = completions w ∧ tool_dispatches w' = tool_dispatches w.

Lemma same_traffic_refl w : same_traffic w w.
Proof. done. Qed.

Lemma same_traffic_trans w1 w2 w3 :
  same_traffic w1 w2 → same_traffic w2 w3 → same_traffic w1 w3.
Proof. unfold same_traffic. intros [-> ->] [-> ->]. done. Qed.

(** ** The state tracker *)

Module StateTrackerFacts.
Import StateTracker.
Section Facts.
Context `{PyLib} `{Prompts} `{SummarizerClient} `{ContextQuery}.

(** The world after a flush of tracker [s]. *)
Definition flushed (s : t) (w : World) : World :=
  match namespace s with
  | None => w
  | Some ns =>
      context_store_store (ns +:+ "_" +:+ time_time (clock_reads w))
        (mkContextRecord (AgentStateData (events s) (summary s)) ns "AgentState" [])
        (set_clock_reads Nat.succ w)
  end.

Lemma store_events_run s w : store_events (s, w) = (Returned tt, (s, flushed s w)).
Proof.
  unfold store_events, flushed.
  rewrite (bind_returned _ _ _ s (s, w)) by done.
  destruct (namespace s); [|done].
  by erewrite bind_returned by done.
Qed.

Lemma flushed_same_traffic s w : same_traffic w (flushed s w).
Proof. unfold flushed. by destruct (namespace s). Qed.

Lemma flushed_summarizations s w : summarizations (flushed s w) = summarizations w.
Proof. unfold flushed. by destruct (namespace s). Qed.

(** The reply to the request a compaction makes as the [n]-th request of the
    summarizer, for the events it removes and the summary so far. *)
Definition compaction_reply (n : nat) (removed : list Event) (past : option string)
    : Res (option string) :=
  chat_completions_create n (summarize_prompt_format scheduler_message_structure)
    (Summarizer.summarize_user_prompt (Summarizer.render_events removed) past).

Lemma summarize_conversation_run {X} removed past (x : X) w :
  Summarizer.summarize_conversation removed past true (x, w)
  = (compaction_reply (summarizations w) removed past,
     (x, set_summarizations Nat.succ w)).
Proof. reflexivity. Qed.

(** The tracker and world just before the compaction test of [add_event]. *)
Lemma add_event_run e s w :
  ∃ s2 w',
    events s2 = events s ++ [e] ∧ summary s2 = summary s ∧
    len_limit s2 = len_limit s ∧
    summarize_last_n_events s2 = summarize_last_n_events s ∧
    namespace s2 = namespace s ∧
    (same_traffic w w' ∧ summarizations w' = summarizations w) ∧
    add_event e (s, w) =
      if len_limit s <? length (events s ++ [e])
      then match compaction_reply (summarizations w)
                   (take (summarize_last_n_events s) (events s ++ [e])) (summary s) with
           | Returned sm =>
               (Returned tt,
                (set_events (drop (summarize_last_n_events s)) (set_summary sm s2),
                 set_summarizations Nat.succ w'))
           | Raised ex => (Raised ex, (s2, set_summarizations Nat.succ w'))
           end
      else (Returned tt, (s2, w')).
Proof.
  unfold add_event.
  do 3 (erewrite bind_returned by done).
  set (s1 := set_auto_store_counter Nat.succ (set_events (λ evs, evs ++ [e]) s)).
  assert (∃ s2 w', events s2 = events s ++ [e] ∧ summary s2 = summary s ∧
    len_limit s2 = len_limit s ∧ summarize_last_n_events s2 = summarize_last_n_events s ∧
    namespace s2 = namespace s ∧
    (same_traffic w w' ∧ summarizations w' = summarizations w) ∧
    (if auto_store_every_n_events s1 <=? auto_store_counter s1
     then store_events ;; update (set_auto_store_counter (λ _, 0)) else mret ()) (s1, w)
    = (Returned tt, (s2, w'))) as (s2 & w' & E1 & E2 & E3 & E4 & E5 & E6 & Hrun).
  { destruct (_ <=? _).
    - erewrite bind_returned by apply store_events_run.
      exists (set_auto_store_counter (λ _, 0) s1), (flushed s1 w).
      repeat split; try done;
        [apply flushed_same_traffic | apply flushed_same_traffic
        | apply flushed_summarizations].
    - by exists s1, w. }
  erewrite bind_returned by exact Hrun.
  assert (∃ s3, events s3 = events s ++ [e] ∧ summary s3 = summary s ∧
    len_limit s3 = len_limit s ∧ summarize_last_n_events s3 = summarize_last_n_events s ∧
    namespace s3 = namespace s ∧
    (match e with
     | ESendToUser content =>
       update (set_recent_messages (λ msgs, msgs ++ [content])) ;;
       s ← self;
       if 5 <? length (recent_messages s)
       then update (set_recent_messages (drop 1))
       else mret tt
     | _ => mret tt
     end) (s2, w') = (Returned tt, (s3, w'))) as (s3 & F1 & F2 & F3 & F4 & F5 & Hrun').
  { destruct e; try by exists s2.
    do 2 (erewrite bind_returned by done).
    destruct (_ <? _).
    - by exists (set_recent_messages (drop 1)
                   (set_recent_messages (λ msgs, msgs ++ [content]) s2)).
    - by exists (set_recent_messages (λ msgs, msgs ++ [content]) s2). }
  erewrite bind_returned by exact Hrun'.
  erewrite bind_returned by done.
  cbv beta. exists s3, w'. rewrite F1, F2, F3, F4. repeat split; try done; try apply E6.
  destruct (_ <? _); [|done].
  unfold mbind at 1, M_bind at 1. rewrite summarize_conversation_run.
  destruct E6 as [_ ->].
  destruct (compaction_reply _ _ _); [|done].
  by erewrite bind_returned by done.
Qed.

(** What a returning [add_event] did to the log and the summary. *)
Lemma add_event_returned e s w s' w' :
  add_event e (s, w) = (Returned tt, (s', w')) →
  len_limit s' = len_limit s ∧
  summarize_last_n_events s' = summarize_last_n_events s ∧
  namespace s' = namespace s ∧ same_traffic w w' ∧
  if len_limit s <? length (events s ++ [e])
  then events s' = drop (summarize_last_n_events s) (events s ++ [e]) ∧
       compaction_reply (summarizations w)
         (take (summarize_last_n_events s) (events s ++ [e])) (summary s)
       = Returned (summary s')
  else events s' = events s ++ [e] ∧ summary s' = summary s.
Proof.
  destruct (add_event_run e s w) as (s2 & w2 & E1 & E2 & E3 & E4 & E5 & [E6 E7] & ->).
  destruct (_ <? _).
  - destruct (compaction_reply _ _ _) as [sm|]; [|discriminate].
    intros [= <- <-]. cbn. rewrite E1. done.
  - intros [= <- <-]. done.
Qed.

(** Every call counts one request of the summarizer when it compacts, whether
    the request returns or raises, and none otherwise. *)
Lemma add_event_summarizations e s w r s' w' :
  add_event e (s, w) = (r, (s', w')) →
  summarizations w'
  = summarizations w + (if len_limit s <? length (events s ++ [e]) then 1 else 0).
Proof.
  destruct (add_event_run e s w) as (s2 & w2 & _ & _ & _ & _ & _ & [_ E7] & ->).
  destruct (_ <? _).
  - destruct (compaction_reply _ _ _); intros [= _ _ <-]; cbn; rewrite E7;
      unfold Nat.succ; lia.
  - intros [= _ _ <-]. lia.
Qed.

(** [add_event] returns whenever the summarizer's completion does. *)
Lemma add_event_returns e s w :
  (∀ n system user, ∃ reply, chat_completions_create n system user = Returned reply) →
  ∃ s' w', add_event e (s, w) = (Returned tt, (s', w')).
Proof.
  intros Hsum.
  destruct (add_event_run e s w) as (s2 & w2 & _ & _ & _ & _ & _ & _ & ->).
  destruct (_ <? _); [|by eauto].
  unfold compaction_reply.
  edestruct Hsum as [reply ->]. eauto.
Qed.

(** The retention invariant of a tracker built by [__init__]. *)
Definition bounded (s : t) : Prop :=
  len_limit s = 100 ∧ summarize_last_n_events s = 60 ∧ length (events s) ≤ len_limit s.

Lemma bounded_init ns : bounded (__init__ ns).
Proof. unfold bounded. cbn. lia. Qed.

Lemma add_event_bounded e s w s' w' :
  bounded s → add_event e (s, w) = (Returned tt, (s', w')) → bounded s'.
Proof.
  intros (L & N & B) Hrun.
  apply add_event_returned in Hrun as (L' & N' & _ & _ & Hev).
  unfold bounded. rewrite L', N'. repeat split; try done.
  destruct (len_limit s <? length (events s ++ [e])) eqn:Hlt.
  - destruct Hev as [-> _]. rewrite length_drop, length_app. cbn. lia.
  - destruct Hev as [-> _]. apply Nat.ltb_ge in Hlt. done.
Qed.

Lemma add_events_bounded evs s w s' w' :
  bounded s → add_events evs (s, w) = (Returned tt, (s', w')) → bounded s'.
Proof.
  revert s w. induction evs as [|e evs IH]; intros s w Hb Hrun.
  - by injection Hrun as <- <-.
  - unfold add_events in Hrun. rewrite for_each_cons in Hrun.
    apply bind_inv in Hrun as ([] & [s1 w1] & Hfirst & Hrest).
    eapply IH; [|exact Hrest]. eapply add_event_bounded; eauto.
Qed.








End Facts.
End StateTrackerFacts.



(** ** Flushing the tracker *)

Section StoreEvents.
Context `{PyLib} `{Prompts} `{SummarizerClient} `{ContextQuery}.
Import StateTracker.

(** The identifier [store_events] composes from the namespace and a clock
    reading determines the reading. *)
Lemma context_id_inj (ns t1 t2 : string) :
  ns +:+ "_" +:+ t1 = ns +:+ "_" +:+ t2 → t1 = t2.
Proof. intros E. apply (inj (String.app ns)) in E. by apply (inj (String.app "_")) in E. Qed.

(** C6, as the code has it. [store_events] returns and leaves the tracker as
    it is. Without a namespace it leaves the world as it is. With a namespace
    [ns] it reads the clock once and stores the current events and summary as
    an [AgentState] record of namespace [ns] under the identifier made of
    [ns], an underscore and the clock reading; every record under another
    identifier stays, in particular the records of [ns] stored at other clock
    readings, so that only a store at the same clock reading overwrites. *)
Theorem store_events_keyed_by_time (s : t) (w : World) :
  ∃ w', store_events (s, w) = (Returned tt, (s, w')) ∧
    match namespace s with
    | None => w' = w
    | Some ns =>
        let now := time_time (clock_reads w) in
        clock_reads w' = S (clock_reads w) ∧
        cs_records w' !! (ns +:+ "_" +:+ now)
          = Some (mkContextRecord (AgentStateData (events s) (summary s)) ns "AgentState" []) ∧
        (∀ context_id, context_id ≠ ns +:+ "_" +:+ now →
           cs_records w' !! context_id = cs_records w !! context_id) ∧
        (∀ earlier, earlier ≠ now →
           cs_records w' !! (ns +:+ "_" +:+ earlier) = cs_records w !! (ns +:+ "_" +:+ earlier))
    end.
Proof.
  exists (StateTrackerFacts.flushed s w). split; [apply StateTrackerFacts.store_events_run|].
  unfold StateTrackerFacts.flushed. destruct (namespace s) as [ns|]; [|done].
  cbn. split; [done|]. split; [apply lookup_insert_eq|].
  assert (∀ context_id, context_id ≠ ns +:+ "_" +:+ time_time (clock_reads w) →
            <[ns +:+ "_" +:+ time_time (clock_reads w) :=
                mkContextRecord (AgentStateData (events s) (summary s)) ns "AgentState" []]>
              (cs_records w) !! context_id = cs_records w !! context_id) as Hframe.
  { intros context_id Hne. by apply lookup_insert_ne. }
  split; [exact Hframe|].
  intros earlier Hne. apply Hframe. intros E. by apply context_id_inj in E.
Qed.

End StoreEvents.

(** C6, as the specification has it, fails: two flushes of one tracker of
    namespace [memory-demo], one second apart, store under two identifiers,
    and the store holds two records of that namespace afterwards. *)
Lemma store_events_twice_two_records :
  let store_events := @StateTracker.store_events Sample.pylib in
  let s := StateTracker.__init__ (Some "memory-demo") in
  let record := mkContextRecord (AgentStateData [] None) "memory-demo" "AgentState" [] in
  let w1 := (store_events (s, empty_world)).2.2 in
  let w2 := (store_events (s, w1)).2.2 in
  cs_records w1 = {[ "memory-demo_1700000000.0" := record ]} ∧
  cs_records w2 = {[ "memory-demo_1700000000.0" := record;
                     "memory-demo_1700000001.0" := record ]} ∧
  "memory-demo_1700000000.0" ≠ "memory-demo_1700000001.0" ∧
  size (cs_records w2) = 2.
Proof.
  cbv zeta. repeat split; try (vm_compute; reflexivity). discriminate.
Qed.

(** ** The worker's provider-wire rendering *)

Section WireRendering.
Import WorkerStateTracker.

(** The event kinds [_to_openai_format] has a case for. *)
Definition wire_kind (e : Event) : bool :=
  match e with
  | EUserMessage _ | EAssistantMessage _ | EToolCall _ | EToolCallResult _ => true
  | EGenericEvent _ _ | ESendToUser _ | EWait _ => false
  end.

Lemma _to_openai_format_wire e :
  wire_kind e = true → ∃ msg, _to_openai_format e = Returned msg.
Proof. destruct e; try discriminate; eauto. Qed.

Lemma _to_openai_format_other e :
  wire_kind e = false →
  _to_openai_format e = Raised (ValueError ("Unknown event type: " +:+ class_name e)) ∧
  (class_name e = "GenericEvent" ∨ class_name e = "SendToUser" ∨ class_name e = "Wait").
Proof. destruct e; try discriminate; cbn; eauto. Qed.

Lemma to_openai_all_wire events :
  forallb wire_kind events = true →
  ∃ msgs, to_openai_all events = Returned msgs ∧ length msgs = length events.
Proof.
  induction events as [|e events IH]; cbn; [by exists []|].
  intros [He Hall]%andb_prop.
  destruct (_to_openai_format_wire e He) as [msg ->].
  destruct (IH Hall) as (msgs & -> & Hlen).
  exists (msg :: msgs). cbn. by rewrite Hlen.
Qed.

Lemma to_openai_all_other events e :
  List.find (λ e, negb (wire_kind e)) events = Some e →
  to_openai_all events = Raised (ValueError ("Unknown event type: " +:+ class_name e)).
Proof.
  induction events as [|e0 events IH]; cbn; [discriminate|].
  destruct (wire_kind e0) eqn:He0; cbn.
  - intros Hfind. destruct (_to_openai_format_wire e0 He0) as [msg ->]. cbn.
    by rewrite (IH Hfind).
  - intros [= <-]. by destruct (_to_openai_format_other e0 He0) as [-> _].
Qed.

Lemma forallb_wire_kind_false events :
  forallb wire_kind events = false → ∃ e, e ∈ events ∧ wire_kind e = false.
Proof.
  induction events as [|e events IH]; cbn; [discriminate|].
  destruct (wire_kind e) eqn:He; cbn.
  - intros (e' & Hin & He')%IH. exists e'. split; [by right|done].
  - intros _. exists e. split; [by left|done].
Qed.

(** C10. [WorkerStateTracker.messages] returns exactly when every event of
    the log is a UserMessage, an AssistantMessage, a ToolCall or a
    ToolCallResult, and then with one message per event; when the log holds
    an event of another kind it raises the ValueError that names the class
    of the first such event, which is GenericEvent, SendToUser or Wait. *)
Theorem messages_partial (s : StateTracker.t) :
  ((∃ msgs, messages s = Returned msgs) ↔ forallb wire_kind (StateTracker.events s) = true) ∧
  (forallb wire_kind (StateTracker.events s) = true →
     ∃ msgs, messages s = Returned msgs ∧ length msgs = length (StateTracker.events s)) ∧
  (∀ e, e ∈ StateTracker.events s → wire_kind e = false →
     ∃ e', List.find (λ e, negb (wire_kind e)) (StateTracker.events s) = Some e' ∧
           (class_name e' = "GenericEvent" ∨ class_name e' = "SendToUser"
            ∨ class_name e' = "Wait") ∧
           messages s = Raised (ValueError ("Unknown event type: " +:+ class_name e'))).
Proof.
  unfold messages.
  assert (∀ e, e ∈ StateTracker.events s → wire_kind e = false →
     ∃ e', List.find (λ e, negb (wire_kind e)) (StateTracker.events s) = Some e' ∧
           (class_name e' = "GenericEvent" ∨ class_name e' = "SendToUser"
            ∨ class_name e' = "Wait") ∧
           to_openai_all (StateTracker.events s)
           = Raised (ValueError ("Unknown event type: " +:+ class_name e'))) as Hother.
  { intros e Hin He.
    destruct (List.find (λ e, negb (wire_kind e)) (StateTracker.events s)) as [e'|] eqn:Hfind.
    - exists e'. split; [done|].
      pose proof (find_some _ _ Hfind) as [_ He']. apply negb_true_iff in He'.
      split; [by apply _to_openai_format_other|]. by apply to_openai_all_other.
    - apply list_elem_of_In in Hin.
      pose proof (find_none _ _ Hfind e Hin) as Hno. cbn in Hno.
      rewrite He in Hno. discriminate. }
  split; [split|split].
  - intros [msgs Hmsgs].
    destruct (forallb wire_kind (StateTracker.events s)) eqn:Hall; [done|].
    apply forallb_wire_kind_false in Hall as (e & Hin & He).
    destruct (Hother e Hin He) as (e' & _ & _ & Hraise). congruence.
  - intros Hall. destruct (to_openai_all_wire _ Hall) as (msgs & ? & _). eauto.
  - apply to_openai_all_wire.
  - exact Hother.
Qed.

End WireRendering.

(** ** Batches of inbound events *)

Section Batches.
Import Scheduler.

Lemma drain_take_drop room queue events :
  drain room queue events = Collected (events ++ take room queue) (drop room queue).
Proof.
  revert queue events. induction room as [|room IH]; intros queue events; cbn.
  - by rewrite app_nil_r.
  - destruct queue as [|e queue]; cbn; [by rewrite app_nil_r|].
    rewrite IH, <- app_assoc. done.
Qed.

(** C8. On a queue that holds at least one event and for a batch size of at
    least one, [get_batch_events] returns without being suspended: the batch
    is the first [max_batch_size] events of the queue in arrival order (all of
    them when the queue holds fewer), so it has between one and
    [max_batch_size] events, and the rest stays in the queue. A call is
    suspended only on an empty queue and before it has collected any
    event. *)
Theorem get_batch_events_bounds (queue : list Event) (max_batch_size : nat) :
  queue ≠ [] → 1 ≤ max_batch_size →
  (∃ events rest,
     get_batch_events queue max_batch_size = Collected events rest ∧
     queue = events ++ rest ∧
     events = take max_batch_size queue ∧
     1 ≤ length events ≤ max_batch_size) ∧
  (∀ (queue' : list Event) size collected,
     get_batch_events queue' size = Suspended collected → queue' = [] ∧ collected = []).
Proof.
  intros Hq Hm. split.
  - destruct queue as [|first queue]; [done|].
    exists (take max_batch_size (first :: queue)), (drop max_batch_size (first :: queue)).
    split; [|split; [by rewrite take_drop|split; [done|]]].
    + unfold get_batch_events. cbn [queue_get]. rewrite drain_take_drop.
      destruct max_batch_size as [|m]; [lia|]. cbn. by rewrite Nat.sub_0_r.
    + rewrite length_take. cbn. lia.
  - intros queue' size collected. unfold get_batch_events.
    destruct queue' as [|first queue']; cbn.
    + by intros [= <-].
    + rewrite drain_take_drop. discriminate.
Qed.

End Batches.

Lemma get_batch_events_bounds_witness :
  Scheduler.get_batch_events [EUserMessage "a"; EUserMessage "b"] 4
    = Scheduler.Collected [EUserMessage "a"; EUserMessage "b"] [] ∧
  Scheduler.get_batch_events
      [EUserMessage "a"; EUserMessage "b"; EUserMessage "c"] 2
    = Scheduler.Collected [EUserMessage "a"; EUserMessage "b"] [EUserMessage "c"] ∧
  ∃ events rest,
    Scheduler.get_batch_events [EUserMessage "a"; EUserMessage "b"] 4
      = Scheduler.Collected events rest ∧
    [EUserMessage "a"; EUserMessage "b"] = events ++ rest ∧
    events = take 4 [EUserMessage "a"; EUserMessage "b"] ∧
    1 ≤ length events ≤ 4.
Proof.
  split; [reflexivity|]. split; [reflexivity|].
  apply (get_batch_events_bounds [EUserMessage "a"; EUserMessage "b"] 4); [discriminate | lia].
Defined.

(** ** Model-to-provider resolution *)

Section ProviderResolution.
Import LlmClient.

Lemma static_table_sonnet : MODEL_PROVIDERS !! "claude-3-5-sonnet" = Some "bedrock".
Proof. vm_compute. reflexivity. Qed.

(** C4. [get_provider_for_model] resolves in this order: a non-empty
    [LLM_PROVIDER] of the environment wins (lower-cased) whatever the model;
    without it, the entry of the static table for the model; without that,
    the first provider with a non-empty credential, OpenAI before Bedrock
    before Anthropic; and when nothing resolves it raises the ValueError
    that names the model. In particular, with [LLM_PROVIDER] set to
    [openai], the model [claude-3-5-sonnet] resolves to [openai] and
    [create_completion] calls the OpenAI adapter, although the static table
    maps that model to [bedrock]. *)
Theorem get_provider_for_model_order (environ : gmap string string) (model : string) :
  (∀ override, environ !! "LLM_PROVIDER" = Some override → override ≠ "" →
     get_provider_for_model environ model = Returned (lower override)) ∧
  (env_set environ "LLM_PROVIDER" = false →
     (∀ provider, MODEL_PROVIDERS !! model = Some provider →
        get_provider_for_model environ model = Returned provider) ∧
     (MODEL_PROVIDERS !! model = None →
        (env_set environ "OPENAI_API_KEY" = true →
           get_provider_for_model environ model = Returned "openai") ∧
        (env_set environ "OPENAI_API_KEY" = false →
           env_set environ "BEDROCK_API_KEY" || env_set environ "AWS_API_KEY" = true →
           get_provider_for_model environ model = Returned "bedrock") ∧
        (env_set environ "OPENAI_API_KEY" = false →
           env_set environ "BEDROCK_API_KEY" || env_set environ "AWS_API_KEY" = false →
           env_set environ "ANTHROPIC_API_KEY" = true →
           get_provider_for_model environ model = Returned "anthropic") ∧
        (env_set environ "OPENAI_API_KEY" = false →
           env_set environ "BEDROCK_API_KEY" || env_set environ "AWS_API_KEY" = false →
           env_set environ "ANTHROPIC_API_KEY" = false →
           ∃ msg, get_provider_for_model environ model = Raised (ValueError msg)))) ∧
  (environ !! "LLM_PROVIDER" = Some "openai" →
     get_provider_for_model environ "claude-3-5-sonnet" = Returned "openai" ∧
     create_completion_adapter environ "claude-3-5-sonnet" = Returned call_openai_api ∧
     MODEL_PROVIDERS !! "claude-3-5-sonnet" = Some "bedrock").
Proof.
  split; [|split].
  - intros override Hov Hne. unfold get_provider_for_model. rewrite Hov. cbn.
    unfold str_truthy. destruct (String.eqb_spec override ""); done.
  - intros Hno. unfold get_provider_for_model. unfold env_set in Hno. rewrite Hno.
    split.
    + intros provider Htable.
      assert (provider ≠ "") as Hne.
      { apply (elem_of_list_to_map_2 (M := gmap string)) in Htable.
        repeat (apply elem_of_cons in Htable as [[= _ ->]|Htable]; [done|]).
        by apply elem_of_nil in Htable. }
      rewrite Htable. cbn. unfold str_truthy.
      destruct (String.eqb_spec provider ""); done.
    + intros Htable. rewrite Htable. cbn.
      repeat split.
      * by intros ->.
      * by intros -> ->.
      * by intros -> -> ->.
      * intros -> -> ->. eauto.
  - intros Hov.
    assert (get_provider_for_model environ "claude-3-5-sonnet" = Returned "openai") as E.
    { unfold get_provider_for_model. by rewrite Hov. }
    split; [done|]. split; [|apply static_table_sonnet].
    unfold create_completion_adapter. by rewrite E.
Qed.

End ProviderResolution.

Lemma get_provider_for_model_order_witness :
  LlmClient.get_provider_for_model {[ "LLM_PROVIDER" := "openai" ]} "claude-3-5-sonnet"
    = Returned "openai" ∧
  LlmClient.create_completion_adapter {[ "LLM_PROVIDER" := "openai" ]} "claude-3-5-sonnet"
    = Returned LlmClient.call_openai_api ∧
  LlmClient.MODEL_PROVIDERS !! "claude-3-5-sonnet" = Some "bedrock" ∧
  LlmClient.get_provider_for_model {[ "LLM_PROVIDER" := "OpenAI" ]} "gpt-4"
    = Returned "openai" ∧
  LlmClient.get_provider_for_model ∅ "claude-3-5-sonnet" = Returned "bedrock" ∧
  LlmClient.get_provider_for_model {[ "ANTHROPIC_API_KEY" := "sk-ant" ]} "mistral-large"
    = Returned "anthropic" ∧
  ∃ msg, LlmClient.get_provider_for_model ∅ "mistral-large" = Raised (ValueError msg).
Proof.
  pose proof (get_provider_for_model_order {[ "LLM_PROVIDER" := "openai" ]} "claude-3-5-sonnet")
    as (_ & _ & Hscenario).
  destruct Hscenario as (E1 & E2 & E3); [reflexivity|].
  split; [exact E1|]. split; [exact E2|]. split; [exact E3|].
  split.
  { destruct (get_provider_for_model_order {[ "LLM_PROVIDER" := "OpenAI" ]} "gpt-4")
      as (Hoverride & _ & _).
    apply (Hoverride "OpenAI"); [reflexivity | discriminate]. }
  split.
  { destruct (get_provider_for_model_order ∅ "claude-3-5-sonnet") as (_ & Htable & _).
    destruct Htable as [Htable _]; [reflexivity|].
    apply Htable. vm_compute. reflexivity. }
  destruct (get_provider_for_model_order {[ "ANTHROPIC_API_KEY" := "sk-ant" ]} "mistral-large")
    as (_ & Hcred & _).
  destruct Hcred as [_ Hcred]; [reflexivity|].
  destruct Hcred as (_ & _ & Hanthropic & _); [vm_compute; reflexivity|].
  split; [apply Hanthropic; vm_compute; reflexivity|].
  destruct (get_provider_for_model_order ∅ "mistral-large") as (_ & Hnone & _).
  destruct Hnone as [_ Hnone]; [reflexivity|].
  destruct Hnone as (_ & _ & _ & Hraise); [vm_compute; reflexivity|].
  apply Hraise; vm_compute; reflexivity.
Defined.

(** ** Tool dispatch *)

Section ToolDispatch.
Context `{PyLib} `{ToolManager.ToolProviders}.
Import ToolManager.

Lemma parse_arguments_invalid (args_str : string) :
  json_loads "{}" = Some (PDict []) → json_loads args_str = None →
  parse_arguments args_str = PDict [].
Proof.
  intros Hempty Hbad. unfold parse_arguments.
  destruct (str_truthy args_str); [by rewrite Hbad | by rewrite Hempty].
Qed.

Lemma parse_arguments_empty_object :
  json_loads "{}" = Some (PDict []) → parse_arguments "{}" = PDict [].
Proof. intros Hempty. unfold parse_arguments. cbn. by rewrite Hempty. Qed.

(** A provider call that completes before the 900 seconds of the decorator
    gives [call] a result, whatever the session did. *)
Lemma call_in_time (self : t) server_name tool_name arguments params seconds r :
  server_dict self !! server_name = Some params →
  stdio_session params tool_name arguments = Completes seconds r →
  seconds < 900 →
  ∃ result, call self server_name tool_name arguments = (seconds, Returned result).
Proof.
  intros Hserver Hrun Hlt. unfold call, call_body. rewrite Hserver, Hrun.
  apply Nat.ltb_lt in Hlt.
  destruct r as [content|message]; unfold with_timeout; rewrite Hlt; eauto.
Qed.

(** A provider call that is not complete after 900 seconds makes [call] raise
    [TimeoutError] at 900 seconds, whatever [timeout_seconds] the manager was
    configured with. *)
Lemma call_out_of_time (self : t) server_name tool_name arguments params :
  server_dict self !! server_name = Some params →
  (stdio_session params tool_name arguments = NeverCompletes ∨
   ∃ seconds r, stdio_session params tool_name arguments = Completes seconds r ∧
                900 ≤ seconds) →
  call self server_name tool_name arguments = (900, Raised TimeoutError).
Proof.
  intros Hserver Hslow. unfold call, call_body. rewrite Hserver.
  destruct Hslow as [-> | (seconds & r & -> & Hle)]; [done|].
  assert ((seconds <? 900) = false) as Hltb by (by apply Nat.ltb_ge).
  destruct r; unfold with_timeout; by rewrite Hltb.
Qed.

(** The timeout escapes [call_openai_tool]: it has no handler for it. *)
Lemma call_openai_tool_out_of_time (self : t) (tool_call : ToolCall) dispatch
    server_name tool_name params :
  openai_dispatch self = Some dispatch →
  dispatch !! tc_name tool_call = Some (server_name, tool_name) →
  server_dict self !! server_name = Some params →
  (stdio_session params tool_name (parse_arguments (tc_arguments tool_call)) = NeverCompletes ∨
   ∃ seconds r,
     stdio_session params tool_name (parse_arguments (tc_arguments tool_call))
       = Completes seconds r ∧ 900 ≤ seconds) →
  call_openai_tool self tool_call = (900, Raised TimeoutError).
Proof.
  intros Hd Hkey Hserver Hslow. unfold call_openai_tool. rewrite Hd, Hkey.
  by rewrite (call_out_of_time _ _ _ _ _ Hserver Hslow).
Qed.

(** C3. With the dispatch table built, a tool call whose name is not a key
    of the table returns at once, without raising, the result that carries
    the serialized payload [{"error": "Unknown tool function: <name>"}] for
    the attempted name, the same for every such call of that name. A tool
    call whose arguments are not valid JSON is handled with the empty
    argument set: its outcome is the outcome of the same call with the
    arguments [{}], and it returns a result whenever the provider call
    completes in less than the 900 seconds of the timeout. *)
Theorem call_openai_tool_unknown_or_malformed (self : t) (tool_call : ToolCall)
    (dispatch : gmap string (string * string)) :
  openai_dispatch self = Some dispatch →
  (dispatch !! tc_name tool_call = None →
     call_openai_tool self tool_call
     = (0, Returned (mkToolCallResult (tc_id tool_call) (Some (tc_name tool_call))
                       (PStr (json_dumps
                                (PDict [("error",
                                         PStr ("Unknown tool function: "
                                               +:+ tc_name tool_call))])))))) ∧
  (json_loads "{}" = Some (PDict []) → json_loads (tc_arguments tool_call) = None →
     parse_arguments (tc_arguments tool_call) = PDict [] ∧
     call_openai_tool self tool_call
     = call_openai_tool self (mkToolCall (tc_id tool_call) (tc_name tool_call) "{}") ∧
     ∀ server_name tool_name params seconds r,
       dispatch !! tc_name tool_call = Some (server_name, tool_name) →
       server_dict self !! server_name = Some params →
       stdio_session params tool_name (PDict []) = Completes seconds r →
       seconds < 900 →
       ∃ result, call_openai_tool self tool_call = (seconds, Returned result)).
Proof.
  intros Hd. split.
  - intros Hkey. unfold call_openai_tool. by rewrite Hd, Hkey.
  - intros Hempty Hbad.
    pose proof (parse_arguments_invalid _ Hempty Hbad) as Hargs.
    split; [done|]. split.
    + unfold call_openai_tool. cbn [tc_id tc_name tc_arguments].
      by rewrite Hargs, (parse_arguments_empty_object Hempty).
    + intros server_name tool_name params seconds r Hkey Hserver Hrun Hlt.
      unfold call_openai_tool. rewrite Hd, Hkey, Hargs.
      destruct (call_in_time self _ _ _ _ _ _ Hserver Hrun Hlt) as [result ->]. eauto.
Qed.

End ToolDispatch.

Lemma call_openai_tool_unknown_or_malformed_witness :
  let call_openai_tool :=
    @ToolManager.call_openai_tool Sample.pylib Sample.tool_providers Sample.tool_manager in
  call_openai_tool (mkToolCall "call_9" "docs__delete" "{}")
    = (0, Returned (mkToolCallResult "call_9" (Some "docs__delete")
                      (PStr (@json_dumps Sample.pylib
                               (PDict [("error",
                                        PStr "Unknown tool function: docs__delete")]))))) ∧
  call_openai_tool (mkToolCall "call_1" "docs__search" "{not json")
    = call_openai_tool (mkToolCall "call_1" "docs__search" "{}") ∧
  ∃ result,
    call_openai_tool (mkToolCall "call_1" "docs__search" "{not json") = (2, Returned result).
Proof.
  cbv zeta.
  pose proof (@call_openai_tool_unknown_or_malformed Sample.pylib Sample.tool_providers
                Sample.tool_manager (mkToolCall "call_9" "docs__delete" "{}") _ eq_refl)
    as [Hunknown _].
  pose proof (@call_openai_tool_unknown_or_malformed Sample.pylib Sample.tool_providers
                Sample.tool_manager (mkToolCall "call_1" "docs__search" "{not json") _ eq_refl)
    as [_ Hmalformed].
  split; [apply Hunknown; vm_compute; reflexivity|].
  destruct Hmalformed as (_ & Hsame & Hreturns); [reflexivity | reflexivity |].
  split; [exact Hsame|].
  apply (Hreturns "docs" "search" "python docs_server.py" 2
           (ToolManager.CallToolResult [ToolManager.TextContent "3 hits"]));
    [vm_compute; reflexivity | vm_compute; reflexivity | reflexivity | lia].
Defined.

(** C2 does not hold of the code. The registered tool [docs__crawl] needs
    1000 seconds: [call_openai_tool] raises [TimeoutError] to its caller after
    900 seconds instead of returning a result that carries an error, and it
    does so after 900 seconds also on a manager configured with a timeout of
    5 seconds, whose [timeout_seconds] the decorator of [call] does not
    read. *)
Theorem call_openai_tool_timeout_escapes :
  @ToolManager.call_openai_tool Sample.pylib Sample.tool_providers
      Sample.tool_manager Sample.crawl_call
    = (900, Raised TimeoutError) ∧
  @ToolManager.call_openai_tool Sample.pylib Sample.tool_providers
      (ToolManager.mk (ToolManager.server_dict Sample.tool_manager) 5
         (ToolManager.openai_dispatch Sample.tool_manager))
      Sample.crawl_call
    = (900, Raised TimeoutError).
Proof. split; vm_compute; reflexivity. Qed.

(** ** The bounded worker loop *)

Section WorkerLoop.
Context `{PyLib} `{Prompts} `{SummarizerClient} `{ContextQuery}
        `{CompletionRouter} `{ToolManager.ToolProviders}.
Import Worker.

(** The reply as the loop records it: reduced to the final-answer call when
    it has one. *)
Definition recorded_reply (reply : AssistantMessage) : AssistantMessage :=
  match find_final_answer_call (requested_tool_calls reply) with
  | Some return_final_answer_tool_call =>
      mkAssistantMessage (am_content reply) (Some [return_final_answer_tool_call]) None
  | None => reply
  end.

Lemma find_final_answer_call_name tool_calls tc :
  find_final_answer_call tool_calls = Some tc → tc_name tc = "return_final_answer".
Proof.
  intros Hfind. apply find_some in Hfind as [_ Hname]. by apply String.eqb_eq in Hname.
Qed.

Lemma collect_tool_calls_final tool_call rest tool_call_tasks s :
  tc_name tool_call = "return_final_answer" →
  collect_tool_calls (tool_call :: rest) tool_call_tasks s
  = (answer ← lift_res (final_answer (tc_arguments tool_call));
     StateTracker.add_event
       (EToolCallResult (mkToolCallResult (tc_id tool_call) (Some (tc_name tool_call))
                           (PStr "SEND SUCCESSFULLY"))) ;;
     StateTracker.store_events ;;
     mret (inr answer)) s.
Proof.
  intros Hname. cbn [collect_tool_calls].
  by rewrite (proj2 (String.eqb_eq _ _) Hname).
Qed.

Lemma collect_tool_calls_other tool_call rest tool_call_tasks s :
  tc_name tool_call ≠ "return_final_answer" →
  collect_tool_calls (tool_call :: rest) tool_call_tasks s
  = collect_tool_calls rest (tool_call_tasks ++ [tool_call]) s.
Proof.
  intros Hname. cbn [collect_tool_calls].
  by rewrite (proj2 (String.eqb_neq _ _) Hname).
Qed.

(** The start of an iteration, up to the recording of the reply. *)
Lemma step_run (self : t) system_message st w msgs reply :
  WorkerStateTracker.messages st = Returned msgs →
  create_completion (completions w) (system_message :: msgs) = Returned reply →
  step self system_message (st, w)
  = (StateTracker.add_event (EAssistantMessage (recorded_reply reply)) ;;
     match requested_tool_calls (recorded_reply reply) with
     | [] => mret None
     | tool_calls =>
         collected ← collect_tool_calls tool_calls [];
         match collected with
         | inr answer => mret (Some answer)
         | inl [] => mret None
         | inl tool_call_tasks =>
             tool_result_msgs ← gather self tool_call_tasks;
             for_each (λ tr, StateTracker.add_event (EToolCallResult tr)) tool_result_msgs ;;
             mret None
         end
     end) (st, set_completions Nat.succ w).
Proof.
  intros Hmsgs Hreply. unfold step.
  rewrite (bind_returned _ _ _ st (st, w)) by done.
  rewrite (bind_returned _ _ _ msgs (st, w)) by (unfold lift_res; by rewrite Hmsgs).
  rewrite (bind_returned _ _ _ reply (st, set_completions Nat.succ w))
    by (unfold complete; by rewrite Hreply).
  reflexivity.
Qed.



Lemma steps_loop_continues (self : t) system_message remaining s s' :
  step self system_message s = (Returned None, s') →
  steps_loop self system_message (S remaining) s
  = steps_loop self system_message remaining s'.
Proof. intros Hstep. cbn [steps_loop]. by erewrite bind_returned by exact Hstep. Qed.

Lemma steps_loop_raises (self : t) system_message remaining s e s' :
  step self system_message s = (Raised e, s') →
  steps_loop self system_message (S remaining) s = (Raised e, s').
Proof. intros Hstep. cbn [steps_loop]. by erewrite bind_raised by exact Hstep. Qed.

(** The payload of a final-answer call that is JSON but not an object (and
    not a falsy value) has no [get]: reading the answer raises. *)
Lemma final_answer_not_object (fn_args : string) (payload : pyval) :
  json_loads fn_args = Some payload → truthy payload = true →
  (∀ entries, payload ≠ PDict entries) →
  final_answer fn_args = Raised (AttributeError "object has no attribute 'get'").
Proof.
  intros Hload Htruthy Hnot. unfold final_answer. rewrite Hload.
  change (default (PDict []) (Some payload)) with payload. cbv zeta.
  rewrite Htruthy. destruct payload; try done. by destruct (Hnot entries).
Qed.

(** The answer of a final-answer call whose arguments are an object with a
    non-empty string under [answer]. *)
Lemma final_answer_object (fn_args answer : string) entries :
  json_loads fn_args = Some (PDict entries) →
  dict_get entries "answer" = Some (PStr answer) → answer ≠ "" →
  final_answer fn_args = Returned (PStr answer).
Proof.
  intros Hload Hget Hne. unfold final_answer. rewrite Hload.
  change (default (PDict []) (Some (PDict entries))) with (PDict entries). cbv zeta.
  destruct entries as [|entry entries]; [done|]. cbn [truthy]. rewrite Hget. cbn.
  by destruct answer.
Qed.

(** Arguments that are not JSON are returned as they are. *)
Lemma final_answer_raw (fn_args : string) :
  json_loads fn_args = None → final_answer fn_args = Returned (PStr fn_args).
Proof. intros Hload. unfold final_answer. by rewrite Hload. Qed.

(** An iteration whose final-answer call carries such a payload raises after
    the reply was recorded: no result is recorded for the call and memory is
    not flushed. *)
Lemma step_final_answer_raises (self : t) system_message st w msgs reply tc e st1 w1 :
  WorkerStateTracker.messages st = Returned msgs →
  create_completion (completions w) (system_message :: msgs) = Returned reply →
  find_final_answer_call (requested_tool_calls reply) = Some tc →
  final_answer (tc_arguments tc) = Raised e →
  StateTracker.add_event
    (EAssistantMessage (mkAssistantMessage (am_content reply) (Some [tc]) None))
    (st, set_completions Nat.succ w) = (Returned tt, (st1, w1)) →
  step self system_message (st, w) = (Raised e, (st1, w1)).
Proof.
  intros Hmsgs Hreply Hfind Hanswer Hadd1.
  pose proof (find_final_answer_call_name _ _ Hfind) as Hname.
  rewrite (step_run _ _ _ _ _ _ Hmsgs Hreply). unfold recorded_reply. rewrite Hfind.
  erewrite bind_returned by exact Hadd1.
  change (requested_tool_calls (mkAssistantMessage (am_content reply) (Some [tc]) None))
    with [tc].
  cbv beta iota.
  erewrite (bind_raised (collect_tool_calls _ _)); [reflexivity|].
  rewrite (collect_tool_calls_final _ _ _ _ Hname).
  erewrite bind_raised; [reflexivity|]. unfold lift_res. by rewrite Hanswer.
Qed.

End WorkerLoop.

(** C5 does not hold of the code on every reply. The provider answers the
    first request with the final-answer call alone, whose arguments are the
    JSON array [[1]]: [call] raises the [AttributeError] of [list.get] instead
    of returning an answer. It has requested one completion and dispatched no
    tool, and the log ends with the reply: no result is recorded for the
    call, and nothing was flushed to the store. *)
Theorem call_final_answer_array_raises :
  let run := @Worker.call Sample.pylib Sample.prompts Sample.summarizer_client
               Sample.context_query Sample.router_list_final Sample.tool_providers
               Sample.worker "find it" (Some "w1") empty_world in
  run.1 = Raised (AttributeError "object has no attribute 'get'") ∧
  StateTracker.events run.2.1
    = [EUserMessage ("find it" +:+ nl +:+ nl
                       +:+ "Current time: 2024-01-01 00:00:0 at UTC timezone");
       EAssistantMessage (mkAssistantMessage None (Some [Sample.list_final_call]) None)] ∧
  cs_records run.2.2 = ∅ ∧
  completions run.2.2 = 1 ∧
  tool_dispatches run.2.2 = [].
Proof. cbv zeta. repeat split; vm_compute; reflexivity. Qed.

(** The same call with an object for arguments returns its answer: one
    completion, no dispatch (the search requested next to it is dropped), the
    synthetic result recorded last, and the log flushed. *)
Example call_final_answer_sample :
  let run := @Worker.call Sample.pylib Sample.prompts Sample.summarizer_client
               Sample.context_query Sample.router_final Sample.tool_providers
               Sample.worker "find it" (Some "w1") empty_world in
  run.1 = Returned (PStr "42") ∧
  StateTracker.events run.2.1
    = [EUserMessage ("find it" +:+ nl +:+ nl
                       +:+ "Current time: 2024-01-01 00:00:0 at UTC timezone");
       EAssistantMessage (mkAssistantMessage None (Some [Sample.final_call]) None);
       EToolCallResult (mkToolCallResult "call_3" (Some "return_final_answer")
                          (PStr "SEND SUCCESSFULLY"))] ∧
  cs_records run.2.2
    = {[ "memory-w1_1700000001.0" :=
           mkContextRecord
             (AgentStateData (StateTracker.events run.2.1) None)
             "memory-w1" "AgentState" [] ]} ∧
  completions run.2.2 = 1 ∧
  tool_dispatches run.2.2 = [].
Proof. cbv zeta. repeat split; vm_compute; reflexivity. Qed.

(** ** The step ceiling of the worker loop *)

Section StepCeiling.
Context `{PyLib} `{Prompts} `{SummarizerClient} `{ContextQuery}
        `{CompletionRouter} `{ToolManager.ToolProviders}.
Import Worker WorkerStateTracker.

(** [remaining] iterations in a row, none of which returned from [call]. *)
Inductive Steps (self : t) (system_message : Msg)
    : nat → StateTracker.t * World → StateTracker.t * World → Prop :=
  | Steps_done s : Steps self system_message 0 s s
  | Steps_step remaining s s1 s' :
      step self system_message s = (Returned None, s1) →
      Steps self system_message remaining s1 s' →
      Steps self system_message (S remaining) s s'.

(** The value computed after the loop, from the events of the log. *)
Definition ceiling_value (events : list Event) : Res pyval :=
  msgs ← to_openai_all events;
  found ← last_assistant (reverse msgs);
  Returned (PStr (match found with
                  | Some text => if str_truthy text then text else ""
                  | None => ""
                  end)).

Lemma step_ceiling_result_run st w :
  step_ceiling_result (st, w) = (ceiling_value (StateTracker.events st), (st, w)).
Proof.
  unfold step_ceiling_result, ceiling_value, messages.
  rewrite (bind_returned _ _ _ st (st, w)) by done.
  unfold lift_res, mbind at 1, M_bind at 1.
  destruct (to_openai_all (StateTracker.events st)) as [msgs|e]; [|done].
  cbn [mbind Res_bind]. unfold mbind at 1, M_bind at 1.
  by destruct (last_assistant (reverse msgs)).
Qed.

Lemma steps_loop_at_ceiling (self : t) system_message remaining s st' w' :
  Steps self system_message remaining s (st', w') →
  steps_loop self system_message remaining s
  = (ceiling_value (StateTracker.events st'), (st', w')).
Proof.
  intros Hsteps. remember (st', w') as s' eqn:Es'.
  induction Hsteps as [s|remaining s s1 s' Hstep Hsteps IH].
  - subst s. apply step_ceiling_result_run.
  - rewrite (steps_loop_continues _ _ _ _ _ Hstep). by apply IH.
Qed.

(** An iteration that does not return from [call] had no final-answer call in
    its reply. *)
Lemma step_none_no_final (self : t) system_message st w s' msgs reply :
  WorkerStateTracker.messages st = Returned msgs →
  create_completion (completions w) (system_message :: msgs) = Returned reply →
  step self system_message (st, w) = (Returned None, s') →
  find_final_answer_call (requested_tool_calls reply) = None.
Proof.
  intros Hmsgs Hreply Hstep.
  destruct (find_final_answer_call (requested_tool_calls reply)) as [tc|] eqn:Hfind; [|done].
  exfalso.
  pose proof (find_final_answer_call_name _ _ Hfind) as Hname.
  rewrite (step_run _ _ _ _ _ _ Hmsgs Hreply) in Hstep.
  unfold recorded_reply in Hstep. rewrite Hfind in Hstep.
  apply bind_inv in Hstep as ([] & [st1 w1] & _ & Hstep).
  change (requested_tool_calls (mkAssistantMessage (am_content reply) (Some [tc]) None))
    with [tc] in Hstep.
  cbv beta iota in Hstep.
  apply bind_inv in Hstep as (collected & s2 & Hcollect & Hstep).
  rewrite (collect_tool_calls_final _ _ _ _ Hname) in Hcollect.
  apply bind_inv in Hcollect as (answer & s3 & _ & Hcollect).
  apply bind_inv in Hcollect as ([] & s4 & _ & Hcollect).
  apply bind_inv in Hcollect as ([] & s5 & _ & Hcollect).
  injection Hcollect as <- <-. discriminate.
Qed.

(** The events whose wire form has a role other than assistant. *)
Definition quiet_kind (e : Event) : bool :=
  match e with
  | EUserMessage _ | EToolCallResult _ => true
  | _ => false
  end.

Definition quiet (msg : Msg) : bool :=
  match msg with
  | WUser _ | WTool _ _ | WSystem _ => true
  | _ => false
  end.

Lemma to_openai_all_app events1 events2 :
  to_openai_all (events1 ++ events2)
  = (msgs1 ← to_openai_all events1; msgs2 ← to_openai_all events2; Returned (msgs1 ++ msgs2)).
Proof.
  induction events1 as [|e events1 IH]; cbn.
  - by destruct (to_openai_all events2).
  - destruct (_to_openai_format e); [|done]. cbn. rewrite IH.
    destruct (to_openai_all events1); [|done]. cbn.
    by destruct (to_openai_all events2).
Qed.

Lemma to_openai_all_quiet events :
  forallb quiet_kind events = true →
  ∃ msgs, to_openai_all events = Returned msgs ∧ forallb quiet msgs = true.
Proof.
  induction events as [|e events IH]; cbn; [by exists []|].
  intros [He Hall]%andb_prop. destruct (IH Hall) as (msgs & -> & Hq).
  destruct e; try discriminate; cbn; eexists; (split; [reflexivity|exact Hq]).
Qed.

Lemma last_assistant_skip msgs1 msgs2 :
  forallb quiet msgs1 = true →
  last_assistant (msgs1 ++ msgs2) = last_assistant msgs2.
Proof.
  induction msgs1 as [|msg msgs1 IH]; [done|]. cbn [forallb app].
  intros [Hq Hall]%andb_prop. cbn [last_assistant].
  destruct msg; try discriminate; cbn; by apply IH.
Qed.

Lemma forallb_quiet_reverse msgs :
  forallb quiet msgs = true → forallb quiet (reverse msgs) = true.
Proof.
  induction msgs as [|msg msgs IH]; [done|]. cbn [forallb].
  intros [Hq Hall]%andb_prop.
  rewrite reverse_cons, forallb_app, (IH Hall). cbn. by rewrite Hq.
Qed.

Lemma ceiling_value_last_message pre am post :
  forallb wire_kind pre = true → forallb quiet_kind post = true →
  ceiling_value (pre ++ EAssistantMessage am :: post)
  = Returned (PStr (default "" (am_content am))).
Proof.
  intros Hpre Hpost. unfold ceiling_value.
  destruct (to_openai_all_wire _ Hpre) as (mpre & Epre & _).
  destruct (to_openai_all_quiet _ Hpost) as (mpost & Epost & Hq).
  rewrite to_openai_all_app, Epre. cbn. rewrite Epost. cbn.
  rewrite reverse_app, reverse_cons, <- app_assoc.
  rewrite (last_assistant_skip _ _ (forallb_quiet_reverse _ Hq)). cbn.
  destruct (am_content am) as [text|]; [|done]. cbn.
  unfold str_truthy. by destruct (String.eqb_spec text "") as [->|].
Qed.

Lemma ceiling_value_no_assistant events :
  forallb quiet_kind events = true → ceiling_value events = Returned (PStr "").
Proof.
  intros Hall. unfold ceiling_value.
  destruct (to_openai_all_quiet _ Hall) as (msgs & -> & Hq). cbn.
  rewrite <- (app_nil_r (reverse msgs)).
  by rewrite (last_assistant_skip _ _ (forallb_quiet_reverse _ Hq)).
Qed.

(** C7, as the code has it. When the loop has run all its steps without
    returning from one of them, it returns the content of the last assistant
    message of the log, whatever earlier messages said: the empty string when
    that message has no content, and the empty string when the log has no
    assistant message. (The log is assumed to hold what the worker puts into
    it; the events after the last assistant message are user messages and
    tool results.) *)
Theorem step_ceiling_returns_last_message_content (self : t) (system_message : Msg)
    (remaining : nat) (s : StateTracker.t * World) (st' : StateTracker.t) (w' : World) :
  Steps self system_message remaining s (st', w') →
  (∀ pre am post,
     StateTracker.events st' = pre ++ EAssistantMessage am :: post →
     forallb wire_kind pre = true → forallb quiet_kind post = true →
     steps_loop self system_message remaining s
     = (Returned (PStr (default "" (am_content am))), (st', w'))) ∧
  (forallb quiet_kind (StateTracker.events st') = true →
     steps_loop self system_message remaining s = (Returned (PStr ""), (st', w'))).
Proof.
  intros Hsteps. rewrite (steps_loop_at_ceiling _ _ _ _ _ _ Hsteps). split.
  - intros pre am post -> Hpre Hpost. by rewrite ceiling_value_last_message.
  - intros Hall. by rewrite ceiling_value_no_assistant.
Qed.

End StepCeiling.

(** The claim's reading of the fallback: the last text an assistant message
    of the log carries, the empty string when none carries a text. *)
Definition spec_last_assistant_text (events : list Event) : string :=
  default ""
    (last (omap (λ e, match e with
                      | EAssistantMessage am =>
                          match am_content am with
                          | Some text => if str_truthy text then Some text else None
                          | None => None
                          end
                      | _ => None
                      end) events)).

(** C7, as the specification has it, fails: the provider first replies
    "Working on it" and then, nine times, only asks for a search. The loop
    reaches its ceiling of ten steps and returns the empty string, although
    the run produced the assistant text "Working on it". *)
Lemma step_ceiling_forgets_earlier_text :
  let run := @Worker.call Sample.pylib Sample.prompts Sample.summarizer_client
               Sample.context_query Sample.router_searching Sample.tool_providers
               Sample.worker "find it" None empty_world in
  run.1 = Returned (PStr "") ∧
  completions run.2.2 = 10 ∧
  spec_last_assistant_text (StateTracker.events run.2.1) = "Working on it" ∧
  last (StateTracker.events run.2.1)
    = Some (EToolCallResult
              (mkToolCallResult "call_1" (Some "docs__search")
                 (PStr (@json_dumps Sample.pylib
                          (PDict [("server_name", PStr "docs"); ("tool_name", PStr "search");
                                  ("result", PStr "3 hits")]))))).
Proof. cbv zeta. repeat split; vm_compute; reflexivity. Qed.

Lemma step_ceiling_returns_last_message_content_witness :
  let step := @Worker.step Sample.pylib Sample.prompts Sample.summarizer_client
                Sample.router_searching Sample.tool_providers Sample.worker
                (WSystem "You are a worker.") in
  let s0 := (StateTracker.set_events (λ _, [EUserMessage "find it"])
               (WorkerStateTracker.__init__ None), empty_world) in
  let s1 := (step s0).2 in
  let s2 := (step s1).2 in
  StateTracker.events s2.1
    = [EUserMessage "find it";
       EAssistantMessage (mkAssistantMessage (Some "Working on it") None (Some "stop"))]
      ++ EAssistantMessage
           (mkAssistantMessage None (Some [Sample.search_call]) (Some "tool_calls"))
         :: drop 3 (StateTracker.events s2.1) ∧
  @Worker.steps_loop Sample.pylib Sample.prompts Sample.summarizer_client
      Sample.router_searching Sample.tool_providers Sample.worker
      (WSystem "You are a worker.") 2 s0
    = (Returned (PStr (default "" None)), (s2.1, s2.2)).
Proof.
  intros step s0 s1 s2. split; [vm_compute; reflexivity|].
  refine (proj1 (@step_ceiling_returns_last_message_content
                   Sample.pylib Sample.prompts Sample.summarizer_client
                   Sample.router_searching Sample.tool_providers Sample.worker
                   (WSystem "You are a worker.") 2 s0 s2.1 s2.2 _)
            [EUserMessage "find it";
             EAssistantMessage (mkAssistantMessage (Some "Working on it") None (Some "stop"))]
            (mkAssistantMessage None (Some [Sample.search_call]) (Some "tool_calls"))
            (drop 3 (StateTracker.events s2.1)) _ _ _).
  - apply (Steps_step _ _ 1 s0 s1 (s2.1, s2.2)); [vm_compute; reflexivity|].
    apply (Steps_step _ _ 0 s1 (s2.1, s2.2) (s2.1, s2.2)); [vm_compute; reflexivity|].
    apply Steps_done.
  - vm_compute. reflexivity.
  - reflexivity.
  - vm_compute. reflexivity.
Defined.

(** ** The scheduler step *)

Section SchedulerStep.
Context `{PyLib} `{Prompts} `{SummarizerClient} `{ContextQuery}
        `{CompletionRouter} `{UserProfile}.
Import Scheduler.

(** A computation of the scheduler that leaves the tool work queue as it is,
    however it ends. *)
Definition keeps_tool_queue {A} (m : M (t * World) A) : Prop :=
  ∀ a w r a' w', m (a, w) = (r, (a', w')) → tool_call_queue a' = tool_call_queue a.

Lemma keeps_tool_queue_ret {A} (x : A) : keeps_tool_queue (mret x).
Proof. intros a w r a' w' [= _ <- _]. done. Qed.

Lemma keeps_tool_queue_bind {A B} (m : M (t * World) A) (f : A → M (t * World) B) :
  keeps_tool_queue m → (∀ x, keeps_tool_queue (f x)) → keeps_tool_queue (m ≫= f).
Proof.
  intros Hm Hf a w r a' w'. unfold mbind, M_bind.
  destruct (m (a, w)) as [[x|e] [a1 w1]] eqn:Em.
  - intros Ef. rewrite (Hf x _ _ _ _ _ Ef). by eapply Hm.
  - intros [= _ <- _]. by eapply Hm.
Qed.

Lemma keeps_tool_queue_on_state_tracker {A} (m : M (StateTracker.t * World) A) :
  keeps_tool_queue (on_state_tracker m).
Proof.
  intros a w r a' w'. unfold on_state_tracker.
  destruct (m (state_tracker a, w)) as [r0 [st w0]]. by intros [= _ <- _].
Qed.

Lemma keeps_tool_queue_for_each {A} (body : A → M (t * World) unit) xs :
  (∀ x, keeps_tool_queue (body x)) → keeps_tool_queue (for_each body xs).
Proof.
  intros Hbody. induction xs as [|x xs IH]; [apply keeps_tool_queue_ret|].
  apply keeps_tool_queue_bind; [apply Hbody | by intros _].
Qed.

Lemma keeps_tool_queue_read_clock : keeps_tool_queue read_clock.
Proof. intros a w r a' w' [= _ <- _]. done. Qed.

Lemma keeps_tool_queue_cs_store context_id record :
  keeps_tool_queue (cs_store context_id record).
Proof. intros a w r a' w' [= _ <- _]. done. Qed.

Lemma keeps_tool_queue_log_debug event_type data :
  keeps_tool_queue (log_debug event_type data).
Proof.
  apply keeps_tool_queue_bind; [by intros a w r a' w' [= _ <- _]|]. intros a.
  destruct (debug_enabled a); cbn [negb]; [|apply keeps_tool_queue_ret].
  apply keeps_tool_queue_bind; [apply keeps_tool_queue_read_clock|]. intros timestamp.
  apply keeps_tool_queue_bind; [apply keeps_tool_queue_read_clock|]. intros now.
  apply keeps_tool_queue_cs_store.
Qed.

Lemma keeps_tool_queue_send_to_user message : keeps_tool_queue (send_to_user message).
Proof.
  apply keeps_tool_queue_bind; [apply keeps_tool_queue_read_clock|]. intros now.
  apply keeps_tool_queue_cs_store.
Qed.

Lemma keeps_tool_queue_update_state_and_call_llm events :
  keeps_tool_queue (update_state_and_call_llm events).
Proof.
  apply keeps_tool_queue_bind.
  { apply keeps_tool_queue_for_each. intros e. apply keeps_tool_queue_on_state_tracker. }
  intros _. apply keeps_tool_queue_bind.
  { intros a w r a' w'. unfold profile. destruct (get_user_profile w). by intros [= _ <- _]. }
  intros user_profile. apply keeps_tool_queue_bind; [by intros a w r a' w' [= _ <- _]|].
  intros a. intros a0 w r a' w'. unfold complete. by intros [= _ <- _].
Qed.

Lemma keeps_tool_queue_process_response response :
  keeps_tool_queue (process_response response).
Proof.
  unfold process_response. destruct (am_content response) as [content|];
    [|apply keeps_tool_queue_ret].
  destruct (str_truthy content); [|apply keeps_tool_queue_ret].
  apply keeps_tool_queue_bind; [apply keeps_tool_queue_on_state_tracker|]. intros _.
  apply keeps_tool_queue_bind; [apply keeps_tool_queue_send_to_user|]. intros _.
  apply keeps_tool_queue_log_debug.
Qed.

Lemma on_state_tracker_returned {A} (m : M (StateTracker.t * World) A) a w x st' w' :
  m (state_tracker a, w) = (Returned x, (st', w')) →
  on_state_tracker m (a, w) = (Returned x, (set_state_tracker st' a, w')).
Proof. intros E. unfold on_state_tracker. by rewrite E. Qed.

Lemma log_debug_run event_type data a w :
  ∃ w', log_debug event_type data (a, w) = (Returned tt, (a, w')).
Proof.
  unfold log_debug. rewrite (bind_returned _ _ _ a (a, w)) by done.
  destruct (debug_enabled a); cbn [negb]; [|by eexists].
  do 2 (erewrite bind_returned by done). by eexists.
Qed.

(** The reason read from the arguments [{"reason": "pending"}]. *)
Lemma wait_reason_pending (fn_args : string) :
  json_loads fn_args = Some (PDict [("reason", PStr "pending")]) →
  wait_reason fn_args = Some (PStr "pending").
Proof. intros Hload. unfold wait_reason. by rewrite Hload. Qed.


Lemma handle_tool_call_wait (tool_call : ToolCall) (reason : string) a w st' w1 :
  tc_name tool_call = "wait" →
  wait_reason (tc_arguments tool_call) = Some (PStr reason) → reason ≠ "" →
  StateTracker.add_event (EWait reason) (state_tracker a, w) = (Returned tt, (st', w1)) →
  ∃ w', handle_tool_call tool_call (a, w) = (Returned tt, (set_state_tracker st' a, w')).
Proof.
  intros Hname Hreason Hne Hadd. unfold handle_tool_call.
  rewrite (proj2 (String.eqb_eq _ _) Hname), Hreason. cbv zeta.
  assert (make_wait (Some (PStr reason)) = Returned (EWait reason)) as Hwait.
  { cbn. unfold str_truthy. by destruct (String.eqb_spec reason ""). }
  erewrite bind_returned by (unfold lift_res; by rewrite Hwait).
  erewrite bind_returned by (by apply on_state_tracker_returned).
  apply log_debug_run.
Qed.

Lemma handle_tool_call_other (tool_call : ToolCall) a w st' w' :
  tc_name tool_call ≠ "wait" →
  StateTracker.add_event (EToolCall tool_call) (state_tracker a, w)
    = (Returned tt, (st', w')) →
  handle_tool_call tool_call (a, w)
  = (Returned tt, (set_tool_call_queue (λ q, q ++ [tool_call]) (set_state_tracker st' a), w')).
Proof.
  intros Hname Hadd. unfold handle_tool_call.
  rewrite (proj2 (String.eqb_neq _ _) Hname).
  by erewrite bind_returned by (by apply on_state_tracker_returned).
Qed.

(** What one tool call adds to the tool work queue, however its handling
    ends, is the call itself unless it is a wait. *)
Lemma handle_tool_call_queue (tool_call : ToolCall) a w a' w' :
  handle_tool_call tool_call (a, w) = (Returned tt, (a', w')) →
  tool_call_queue a'
  = tool_call_queue a
    ++ (if String.eqb (tc_name tool_call) "wait" then [] else [tool_call]).
Proof.
  unfold handle_tool_call. destruct (String.eqb (tc_name tool_call) "wait").
  - intros Hrun. rewrite app_nil_r. revert Hrun.
    apply (keeps_tool_queue_bind (lift_res _)); [by intros ? ? ? ? ? [= _ <- _]|].
    intros wait_event. apply keeps_tool_queue_bind; [apply keeps_tool_queue_on_state_tracker|].
    intros _. apply keeps_tool_queue_log_debug.
  - intros ([] & [a1 w1] & Hadd & Hput)%bind_inv.
    apply keeps_tool_queue_on_state_tracker in Hadd.
    injection Hput as <- <-. cbn. by rewrite Hadd.
Qed.

Lemma handle_tool_calls_queue (tool_calls : list ToolCall) a w a' w' :
  for_each handle_tool_call tool_calls (a, w) = (Returned tt, (a', w')) →
  tool_call_queue a'
  = tool_call_queue a
    ++ filter (λ tc, tc_name tc ≠ "wait") tool_calls.
Proof.
  revert a w. induction tool_calls as [|tc tool_calls IH]; intros a w.
  - intros [= <- <-]. by rewrite app_nil_r.
  - rewrite for_each_cons. intros ([] & [a1 w1] & Hfirst & Hrest)%bind_inv.
    rewrite (IH _ _ Hrest), (handle_tool_call_queue _ _ _ _ _ Hfirst), filter_cons.
    destruct (String.eqb_spec (tc_name tc) "wait") as [Hname|Hname].
    + rewrite decide_False by (by intros ?). by rewrite app_nil_r.
    + rewrite decide_True by done. by rewrite <- app_assoc.
Qed.

(** The event an [add_event] appended is the last of the log afterwards when
    compaction, if it runs, removes no more than [len_limit] events. *)
Lemma add_event_last e s w s' w' :
  StateTracker.summarize_last_n_events s ≤ StateTracker.len_limit s →
  StateTracker.add_event e (s, w) = (Returned tt, (s', w')) →
  last (StateTracker.events s') = Some e.
Proof.
  intros Hn Hadd.
  apply StateTrackerFacts.add_event_returned in Hadd as (_ & _ & _ & _ & Hev).
  destruct (StateTracker.len_limit s <? length (StateTracker.events s ++ [e])) eqn:Hlt.
  - destruct Hev as [-> _]. apply Nat.ltb_lt in Hlt. rewrite length_app in Hlt. cbn in Hlt.
    rewrite drop_app_le by lia. by rewrite last_snoc.
  - destruct Hev as [-> _]. by rewrite last_snoc.
Qed.

(** C9. A step whose reply holds exactly the tool call [wait] with the
    arguments [{"reason":"pending"}] completes, records [Wait] with content
    [pending] in memory (by [add_event], so as the last event of the log) and
    leaves the tool work queue as it was before the step: the wait is not
    dispatched. A tool call of any other name is recorded in memory by
    [add_event] and put at the end of the tool work queue; over all the tool
    calls of a reply the queue receives exactly the calls that are not waits,
    in their order. *)
Theorem step_wait_is_recorded_not_dispatched (a : t) (w : World) :
  json_loads Sample.wait_pending_args = Some (PDict [("reason", PStr "pending")]) →
  (∀ events rest response a2 w2 a3 w3 tool_call st' w4,
     get_batch_events (event_queue a) (max_batch_size a) = Collected events rest →
     update_state_and_call_llm events (set_event_queue rest a, w)
       = (Returned response, (a2, w2)) →
     process_response response (a2, w2) = (Returned tt, (a3, w3)) →
     requested_tool_calls response = [tool_call] →
     tc_name tool_call = "wait" →
     tc_arguments tool_call = Sample.wait_pending_args →
     StateTracker.summarize_last_n_events (state_tracker a3)
       ≤ StateTracker.len_limit (state_tracker a3) →
     StateTracker.add_event (EWait "pending") (state_tracker a3, w3)
       = (Returned tt, (st', w4)) →
     ∃ a' w',
       step (a, w) = (Returned StepDone, (a', w')) ∧
       state_tracker a' = st' ∧
       last (StateTracker.events (state_tracker a')) = Some (EWait "pending") ∧
       tool_call_queue a' = tool_call_queue a) ∧
  (∀ tool_call st' w',
     tc_name tool_call ≠ "wait" →
     StateTracker.add_event (EToolCall tool_call) (state_tracker a, w)
       = (Returned tt, (st', w')) →
     handle_tool_call tool_call (a, w)
     = (Returned tt,
        (set_tool_call_queue (λ q, q ++ [tool_call]) (set_state_tracker st' a), w'))) ∧
  (∀ response a' w',
     handle_tool_calls response (a, w) = (Returned tt, (a', w')) →
     tool_call_queue a'
     = tool_call_queue a
       ++ filter (λ tc, tc_name tc ≠ "wait") (requested_tool_calls response)).
Proof.
  intros Hjson. split; [|split].
  - intros events rest response a2 w2 a3 w3 tool_call st' w4
      Hbatch Hllm Hresp Hcalls Hname Hargs Hn Hadd.
    assert (wait_reason (tc_arguments tool_call) = Some (PStr "pending")) as Hreason.
    { rewrite Hargs. by apply wait_reason_pending. }
    destruct (handle_tool_call_wait tool_call "pending" a3 w3 st' w4 Hname Hreason
                ltac:(done) Hadd) as [w' Hhandle].
    exists (set_state_tracker st' a3), w'. split; [|split; [done|split]].
    + unfold step. rewrite (bind_returned _ _ _ a (a, w)) by done. rewrite Hbatch.
      erewrite bind_returned by done.
      erewrite bind_returned by exact Hllm.
      erewrite bind_returned by exact Hresp.
      unfold handle_tool_calls. rewrite Hcalls. cbn [for_each].
      erewrite bind_returned; [reflexivity|].
      erewrite bind_returned by exact Hhandle. reflexivity.
    + cbn. by eapply add_event_last.
    + cbn. rewrite (keeps_tool_queue_process_response _ _ _ _ _ _ Hresp).
      by rewrite (keeps_tool_queue_update_state_and_call_llm _ _ _ _ _ _ Hllm).
  - intros tool_call st' w'. apply handle_tool_call_other.
  - intros response a' w'. apply handle_tool_calls_queue.
Qed.

End SchedulerStep.

Lemma step_wait_is_recorded_not_dispatched_witness :
  let run := @Scheduler.step Sample.pylib Sample.prompts Sample.summarizer_client
               Sample.router_wait Sample.user_profile
               (Sample.scheduler [EUserMessage "hello"], empty_world) in
  run.1 = Returned Scheduler.StepDone ∧
  StateTracker.events (Scheduler.state_tracker run.2.1)
    = [EUserMessage "hello"; EWait "pending"] ∧
  last (StateTracker.events (Scheduler.state_tracker run.2.1)) = Some (EWait "pending") ∧
  Scheduler.tool_call_queue run.2.1 = [].
Proof.
  cbv zeta.
  edestruct (proj1 (@step_wait_is_recorded_not_dispatched
                      Sample.pylib Sample.prompts Sample.summarizer_client
                      Sample.router_wait Sample.user_profile
                      (Sample.scheduler [EUserMessage "hello"]) empty_world eq_refl))
    as (a' & w' & Hstep & Htracker & Hlast & Hqueue).
  - vm_compute. reflexivity.
  - vm_compute. reflexivity.
  - vm_compute. reflexivity.
  - vm_compute. reflexivity.
  - reflexivity.
  - reflexivity.
  - vm_compute. lia.
  - vm_compute. reflexivity.
  - rewrite Hstep. cbn [fst snd]. split; [done|]. split; [|split; [exact Hlast|exact Hqueue]].
    rewrite Htracker. reflexivity.
Defined.

(** * Further properties of the code *)

(** ** The state tracker: what one [add_event] does *)

Section AddEventSteps.
Context `{PyLib} `{Prompts} `{SummarizerClient} `{ContextQuery}.
Import StateTracker.

(** The tracker after the append and the counter increment. *)
Definition appended (e : Event) (s : t) : t :=
  set_auto_store_counter Nat.succ (set_events (λ evs, evs ++ [e]) s).

(** Whether this call flushes. *)
Definition flushes (e : Event) (s : t) : bool :=
  auto_store_every_n_events s <=? S (auto_store_counter s).

(** The tracker and the world at the compaction test of [add_event]. *)
Definition before_compaction (e : Event) (s : t) (w : World) : t * World :=
  let s1 := appended e s in
  let '(s2, w2) :=
    if flushes e s
    then (set_auto_store_counter (λ _, 0) s1, StateTrackerFacts.flushed s1 w)
    else (s1, w) in
  (match e with
   | ESendToUser content =>
       let s3 := set_recent_messages (λ msgs, msgs ++ [content]) s2 in
       if 5 <? length (recent_messages s3) then set_recent_messages (drop 1) s3 else s3
   | _ => s2
   end, w2).

Lemma recent_messages_step content s2 w2 :
  (update (set_recent_messages (λ msgs, msgs ++ [content])) ;;
   s ← self;
   if 5 <? length (recent_messages s)
   then update (set_recent_messages (drop 1))
   else mret tt) (s2, w2)
  = (Returned tt,
     (let s3 := set_recent_messages (λ msgs, msgs ++ [content]) s2 in
      if 5 <? length (recent_messages s3) then set_recent_messages (drop 1) s3 else s3,
      w2)).
Proof.
  do 2 (erewrite bind_returned by done). cbv beta zeta.
  by destruct (5 <? _).
Qed.

Lemma compaction_step s3 w2 :
  (s ← self;
   if len_limit s <? length (events s)
   then
     new_summary ← Summarizer.summarize_conversation
                     (take (summarize_last_n_events s) (events s))
                     (summary s) true;
     update (set_summary new_summary) ;;
     update (set_events (drop (summarize_last_n_events s)))
   else mret tt) (s3, w2)
  = if len_limit s3 <? length (events s3)
    then match StateTrackerFacts.compaction_reply (summarizations w2)
                 (take (summarize_last_n_events s3) (events s3)) (summary s3) with
         | Returned sm =>
             (Returned tt,
              (set_events (drop (summarize_last_n_events s3)) (set_summary sm s3),
               set_summarizations Nat.succ w2))
         | Raised ex => (Raised ex, (s3, set_summarizations Nat.succ w2))
         end
    else (Returned tt, (s3, w2)).
Proof.
  erewrite bind_returned by done. cbv beta.
  destruct (_ <? _); [|done].
  unfold mbind at 1, M_bind at 1. rewrite StateTrackerFacts.summarize_conversation_run.
  destruct (StateTrackerFacts.compaction_reply _ _ _); [|done].
  by erewrite bind_returned by done.
Qed.

Lemma add_event_unfold e s w :
  add_event e (s, w) =
    let '(s3, w2) := before_compaction e s w in
    if len_limit s <? length (events s ++ [e])
    then match StateTrackerFacts.compaction_reply (summarizations w)
                 (take (summarize_last_n_events s) (events s ++ [e])) (summary s) with
         | Returned sm =>
             (Returned tt,
              (set_events (drop (summarize_last_n_events s)) (set_summary sm s3),
               set_summarizations Nat.succ w2))
         | Raised ex => (Raised ex, (s3, set_summarizations Nat.succ w2))
         end
    else (Returned tt, (s3, w2)).
Proof.
  unfold add_event, before_compaction, flushes, appended.
  do 3 (erewrite bind_returned by done).
  set (s1 := set_auto_store_counter Nat.succ (set_events (λ evs, evs ++ [e]) s)).
  change (auto_store_every_n_events s1) with (auto_store_every_n_events s).
  change (auto_store_counter s1) with (S (auto_store_counter s)).
  destruct (auto_store_every_n_events s <=? S (auto_store_counter s)).
  - erewrite bind_returned; cycle 1.
    { erewrite bind_returned by apply StateTrackerFacts.store_events_run. reflexivity. }
    rewrite <- (StateTrackerFacts.flushed_summarizations s1 w).
    destruct e;
      try (erewrite bind_returned by done; rewrite compaction_step; reflexivity).
    erewrite bind_returned by apply recent_messages_step.
    rewrite compaction_step. cbv zeta. by destruct (5 <? _).
  - erewrite bind_returned by done.
    destruct e;
      try (erewrite bind_returned by done; rewrite compaction_step; reflexivity).
    erewrite bind_returned by apply recent_messages_step.
    rewrite compaction_step. cbv zeta. by destruct (5 <? _).
Qed.

End AddEventSteps.

(** ** The state tracker: counters, recent messages, the log *)

Section TrackerInvariants.
Context `{PyLib} `{Prompts} `{SummarizerClient} `{ContextQuery}.
Import StateTracker.

(** The list [recent_messages] becomes when [content] is sent. *)
Definition keep_five (msgs : list string) : list string :=
  if 5 <? length msgs then drop 1 msgs else msgs.

(** The last five elements of a list. *)
Definition last_five (msgs : list string) : list string :=
  drop (length msgs - 5) msgs.

(** The contents of the [SendToUser] events of a list, in order. *)
Definition sent_to_user (evs : list Event) : list string :=
  omap (λ e, match e with ESendToUser content => Some content | _ => None end) evs.

Lemma keep_five_last_five msgs content :
  keep_five (last_five msgs ++ [content]) = last_five (msgs ++ [content]).
Proof.
  unfold keep_five, last_five. rewrite !length_app, length_drop. cbn [length].
  destruct (decide (length msgs < 5)) as [Hlt|Hge].
  - replace (length msgs - 5) with 0 by lia.
    replace (length msgs + 1 - 5) with 0 by lia. cbn [drop].
    destruct (5 <? _) eqn:E; [apply Nat.ltb_lt in E; lia | done].
  - assert ((5 <? length msgs - (length msgs - 5) + 1) = true) as ->
      by (apply Nat.ltb_lt; lia).
    rewrite <- (drop_app_le _ [content]) by lia.
    rewrite drop_drop. f_equal. lia.
Qed.

(** What a returning [add_event] leaves in the fields that compaction does
    not touch, and in the world. *)
Lemma add_event_fields e s w s' w' :
  add_event e (s, w) = (Returned tt, (s', w')) →
  recent_messages s'
  = match e with
    | ESendToUser content => keep_five (recent_messages s ++ [content])
    | _ => recent_messages s
    end ∧
  auto_store_counter s' = (if flushes e s then 0 else S (auto_store_counter s)) ∧
  auto_store_every_n_events s' = auto_store_every_n_events s ∧
  namespace s' = namespace s ∧
  clock_reads w'
  = clock_reads (if flushes e s then StateTrackerFacts.flushed (appended e s) w else w).
Proof.
  rewrite add_event_unfold. unfold before_compaction, keep_five.
  destruct (flushes e s);
    destruct e; cbn [recent_messages set_recent_messages];
    try destruct (5 <? _);
    (destruct (_ <? _);
     [destruct (StateTrackerFacts.compaction_reply _ _ _); [|discriminate]|]);
    intros [= <- <-]; done.
Qed.

Lemma sent_to_user_cons e evs :
  sent_to_user (e :: evs)
  = match e with
    | ESendToUser content => content :: sent_to_user evs
    | _ => sent_to_user evs
    end.
Proof. by destruct e. Qed.

Lemma add_events_recent_messages evs s w s' w' sent :
  recent_messages s = last_five sent →
  add_events evs (s, w) = (Returned tt, (s', w')) →
  recent_messages s' = last_five (sent ++ sent_to_user evs).
Proof.
  revert s w sent. induction evs as [|e evs IH]; intros s w sent Hrecent.
  - intros [= <- <-]. by rewrite app_nil_r.
  - unfold add_events. rewrite for_each_cons.
    intros ([] & [s1 w1] & Hfirst & Hrest)%bind_inv.
    apply add_event_fields in Hfirst as (Hr & _).
    rewrite sent_to_user_cons.
    destruct e; try (eapply IH; [|exact Hrest]; by rewrite Hr).
    replace (sent ++ content :: sent_to_user evs)
      with ((sent ++ [content]) ++ sent_to_user evs) by (by rewrite <- app_assoc).
    eapply IH; [|exact Hrest]. rewrite Hr, Hrecent. apply keep_five_last_five.
Qed.

(** X1. On a tracker built by [__init__], after any sequence of [add_event]
    calls that return, [recent_messages] holds the contents of the last five
    [SendToUser] events added, in order (all of them when there were fewer),
    so never more than five; and [is_meaningful] rejects exactly the literal
    [WAIT] and those contents. *)
Theorem recent_messages_are_last_five_sent (ns : option string) (w0 : World)
    (evs : list Event) (s : t) (w : World) :
  add_events evs (__init__ ns, w0) = (Returned tt, (s, w)) →
  recent_messages s = last_five (sent_to_user evs) ∧
  length (recent_messages s) ≤ 5 ∧
  ∀ content,
    is_meaningful s content = false
    ↔ content = "WAIT" ∨ content ∈ last_five (sent_to_user evs).
Proof.
  intros Hrun.
  pose proof (add_events_recent_messages evs (__init__ ns) w0 s w []
                (eq_refl : recent_messages (__init__ ns) = last_five []) Hrun) as Hrecent.
  cbn [app] in Hrecent. split; [done|]. split.
  - rewrite Hrecent. unfold last_five. rewrite length_drop. lia.
  - intros content. unfold is_meaningful. rewrite Hrecent.
    destruct (bool_decide_reflect (content ∈ last_five (sent_to_user evs))) as [Hin|Hnin].
    + split; [by right|done].
    + destruct (String.eqb_spec content "WAIT") as [->|Hne].
      * split; [by left|done].
      * split; [done|]. by intros [?|?].
Qed.

Lemma flushed_clock_reads s w :
  clock_reads (StateTrackerFacts.flushed s w)
  = match namespace s with Some _ => S (clock_reads w) | None => clock_reads w end.
Proof. unfold StateTrackerFacts.flushed. by destruct (namespace s). Qed.

Lemma add_events_counter evs s w s' w' total :
  auto_store_every_n_events s = 20 →
  auto_store_counter s = total mod 20 →
  add_events evs (s, w) = (Returned tt, (s', w')) →
  auto_store_counter s' = (total + length evs) mod 20 ∧
  namespace s' = namespace s ∧
  clock_reads w' + (match namespace s with Some _ => total / 20 | None => 0 end)
  = clock_reads w + (match namespace s with Some _ => (total + length evs) / 20 | None => 0 end).
Proof.
  revert s w total. induction evs as [|e evs IH]; intros s w total Hevery Hcounter.
  - intros [= <- <-]. rewrite Nat.add_0_r. done.
  - unfold add_events. rewrite for_each_cons.
    intros ([] & [s1 w1] & Hfirst & Hrest)%bind_inv.
    apply add_event_fields in Hfirst as (_ & Hc & He & Hns & Hw).
    unfold flushes in Hc, Hw. rewrite Hevery in Hc, Hw.
    assert (total mod 20 < 20) as Hlt by (apply Nat.mod_upper_bound; lia).
    pose proof (Nat.div_mod_eq total 20) as Hdm.
    pose proof (Nat.div_mod_eq (S total) 20) as Hdm'.
    assert (S total mod 20 < 20) as Hlt' by (apply Nat.mod_upper_bound; lia).
    assert (auto_store_counter s1 = S total mod 20 ∧
            clock_reads w1 + (match namespace s with Some _ => total / 20 | None => 0 end)
            = clock_reads w + (match namespace s with Some _ => S total / 20 | None => 0 end)) as [Hc1 Hw1].
    { destruct (20 <=? S (auto_store_counter s)) eqn:Hflush.
      - apply Nat.leb_le in Hflush. rewrite Hw, flushed_clock_reads.
        change (namespace (appended e s)) with (namespace s).
        assert (S total mod 20 = 0 ∧ S total / 20 = S (total / 20)) as [Em Ed] by nia.
        rewrite Hc, Em, Ed. split; [done|]. by destruct (namespace s); lia.
      - apply Nat.leb_gt in Hflush. rewrite Hw.
        assert (S total mod 20 = S (total mod 20) ∧ S total / 20 = total / 20)
          as [Em Ed] by nia.
        rewrite Hc, Em, Ed, Hcounter. done. }
    destruct (IH s1 w1 (S total) ltac:(congruence) Hc1 Hrest) as (Hc' & Hns' & Hw').
    rewrite Hns in Hns', Hw'.
    replace (total + length (e :: evs)) with (S total + length evs) by (cbn; lia).
    split; [done|]. split; [done|]. lia.
Qed.

(** X2. On a tracker built by [__init__], after [k] calls of [add_event] that
    return, the flush counter is [k mod 20]; a tracker with a namespace has
    read the clock [k / 20] times, once per automatic flush, which therefore
    happens at every twentieth call; a tracker without a namespace has not
    read it at all. *)
Theorem auto_store_every_twentieth_event (ns : option string) (w0 : World)
    (evs : list Event) (s : t) (w : World) :
  add_events evs (__init__ ns, w0) = (Returned tt, (s, w)) →
  auto_store_counter s = length evs mod 20 ∧
  clock_reads w
  = clock_reads w0 + (match ns with Some _ => length evs / 20 | None => 0 end).
Proof.
  intros Hrun.
  destruct (add_events_counter evs (__init__ ns) w0 s w 0 eq_refl eq_refl Hrun)
    as (Hc & _ & Hw).
  change (namespace (__init__ ns)) with ns in Hw.
  change (0 + length evs) with (length evs) in Hw, Hc.
  change (0 / 20) with 0 in Hw.
  split; [done|]. destruct ns; lia.
Qed.



Lemma add_events_suffix evs s w s' w' before dropped blocks :
  StateTrackerFacts.bounded s →
  before = dropped ++ events s →
  length dropped = 60 * blocks →
  (blocks = 0 ∧ summary s = None ∨ 0 < blocks ∧ 41 ≤ length (events s)) →
  add_events evs (s, w) = (Returned tt, (s', w')) →
  ∃ dropped' blocks',
    before ++ evs = dropped' ++ events s' ∧
    length dropped' = 60 * blocks' ∧
    (blocks' = 0 ∧ summary s' = None ∨ 0 < blocks' ∧ 41 ≤ length (events s')).
Proof.
  revert s w before dropped blocks.
  induction evs as [|e evs IH]; intros s w before dropped blocks Hb Hsplit Hlen Hcase.
  - intros [= <- <-]. exists dropped, blocks. by rewrite app_nil_r.
  - unfold add_events. rewrite for_each_cons.
    intros ([] & [s1 w1] & Hfirst & Hrest)%bind_inv.
    pose proof (StateTrackerFacts.add_event_bounded _ _ _ _ _ Hb Hfirst) as Hb1.
    apply StateTrackerFacts.add_event_returned in Hfirst as (_ & _ & _ & _ & Hev).
    destruct Hb as (L & N & B).
    replace (before ++ e :: evs) with ((before ++ [e]) ++ evs)
      by (by rewrite <- app_assoc).
    destruct (len_limit s <? length (events s ++ [e])) eqn:Hover.
    + destruct Hev as [Hev _]. apply Nat.ltb_lt in Hover.
      rewrite length_app in Hover. cbn in Hover.
      eapply (IH s1 w1 _ (dropped ++ take (summarize_last_n_events s) (events s ++ [e]))
                (S blocks)); [done| | | |exact Hrest].
      * rewrite Hsplit, Hev, <- !app_assoc. f_equal. by rewrite take_drop.
      * rewrite length_app, length_take, length_app, Hlen, N. cbn [length]. lia.
      * right. split; [lia|]. rewrite Hev, length_drop, length_app, N. cbn [length]. lia.
    + destruct Hev as [Hev Hsum]. apply Nat.ltb_ge in Hover.
      eapply (IH s1 w1 _ dropped blocks); [done| |done| |exact Hrest].
      * by rewrite Hsplit, Hev, app_assoc.
      * rewrite Hev, Hsum, length_app. cbn [length].
        destruct Hcase as [[-> ->]|[? ?]]; [by left|right; lia].
Qed.

(** X4. On a tracker built by [__init__], after any sequence of [add_event]
    calls that return, the live log is a suffix of the events added, in their
    order: compaction has removed only the oldest events, in whole blocks of
    sixty. Up to a hundred events nothing is removed and there is no summary;
    beyond a hundred something has been removed. *)
Theorem live_log_is_suffix_of_added (ns : option string) (w0 : World)
    (evs : list Event) (s : t) (w : World) :
  add_events evs (__init__ ns, w0) = (Returned tt, (s, w)) →
  ∃ dropped blocks,
    evs = dropped ++ events s ∧
    length dropped = 60 * blocks ∧
    (length evs ≤ 100 → dropped = [] ∧ events s = evs ∧ summary s = None) ∧
    (100 < length evs → 0 < blocks).
Proof.
  intros Hrun.
  pose proof (StateTrackerFacts.add_events_bounded _ _ _ _ _
                (StateTrackerFacts.bounded_init ns) Hrun) as (L & _ & B).
  destruct (add_events_suffix evs (__init__ ns) w0 s w [] [] 0
              (StateTrackerFacts.bounded_init ns) eq_refl eq_refl
              (or_introl (conj eq_refl eq_refl)) Hrun)
    as (dropped & blocks & Hsplit & Hlen & Hcase).
  cbn [app] in Hsplit. exists dropped, blocks. split; [done|]. split; [done|].
  assert (length evs = 60 * blocks + length (events s)) as Htotal
    by (by rewrite Hsplit, length_app, Hlen).
  split.
  - intros Hle. destruct Hcase as [[-> Hsum]|[Hpos Hmin]]; [|lia].
    destruct dropped; [|cbn in Hlen; lia]. by rewrite Hsplit.
  - intros Hgt. rewrite L in B. lia.
Qed.

End TrackerInvariants.

Lemma recent_messages_are_last_five_sent_witness :
  let evs := [ESendToUser "1"; EUserMessage "u"; ESendToUser "2"; ESendToUser "3";
              ESendToUser "4"; ESendToUser "5"; EWait ""; ESendToUser "6"] in
  let run := @StateTracker.add_events Sample.pylib Sample.prompts Sample.summarizer_client
               evs (StateTracker.__init__ None, empty_world) in
  StateTracker.recent_messages run.2.1 = ["2"; "3"; "4"; "5"; "6"] ∧
  StateTracker.recent_messages run.2.1 = last_five (sent_to_user evs).
Proof.
  intros evs run. split; [vm_compute; reflexivity|].
  refine (proj1 (@recent_messages_are_last_five_sent
                   Sample.pylib Sample.prompts Sample.summarizer_client
                   None empty_world evs run.2.1 run.2.2 _)).
  vm_compute. reflexivity.
Defined.

Lemma auto_store_every_twentieth_event_witness :
  let evs := replicate 45 (EUserMessage "hi") in
  let run := @StateTracker.add_events Sample.pylib Sample.prompts Sample.summarizer_client
               evs (StateTracker.__init__ (Some "memory-demo"), empty_world) in
  StateTracker.auto_store_counter run.2.1 = 5 ∧
  clock_reads run.2.2 = 2 ∧
  size (cs_records run.2.2) = 2 ∧
  StateTracker.auto_store_counter run.2.1 = length evs mod 20.
Proof.
  intros evs run. do 3 (split; [vm_compute; reflexivity|]).
  refine (proj1 (@auto_store_every_twentieth_event
                   Sample.pylib Sample.prompts Sample.summarizer_client
                   (Some "memory-demo") empty_world evs run.2.1 run.2.2 _)).
  vm_compute. reflexivity.
Defined.


Lemma live_log_is_suffix_of_added_witness :
  let evs := replicate 101 (EUserMessage "hi") in
  let run := @StateTracker.add_events Sample.pylib Sample.prompts Sample.summarizer_client
               evs (StateTracker.__init__ None, empty_world) in
  length (StateTracker.events run.2.1) = 41 ∧
  ∃ dropped blocks,
    evs = dropped ++ StateTracker.events run.2.1 ∧
    length dropped = 60 * blocks ∧
    (length evs ≤ 100 →
       dropped = [] ∧ StateTracker.events run.2.1 = evs
       ∧ StateTracker.summary run.2.1 = None) ∧
    (100 < length evs → 0 < blocks).
Proof.
  intros evs run. split; [vm_compute; reflexivity|].
  refine (@live_log_is_suffix_of_added
            Sample.pylib Sample.prompts Sample.summarizer_client
            None empty_world evs run.2.1 run.2.2 _).
  vm_compute. reflexivity.
Defined.

(** ** Storing and retrieving the tracker *)

Section StoreRetrieve.
Context `{PyLib} `{Prompts} `{SummarizerClient} `{ContextQuery}.
Import StateTracker.

(** X5. A flush followed by a retrieval restores the conversation up to the
    class of two kinds of event. When the store answers the query for the
    namespace with the record the flush just wrote as its last answer (which
    is for the store to do: the identifiers differ from flush to flush and
    the query asks for one record), [retrieve_history] on a new tracker of
    that namespace returns with as many events as were flushed, in the same
    order; each [ToolCall], [ToolCallResult], [UserMessage],
    [AssistantMessage] and [GenericEvent] is the event that was flushed, and
    each [SendToUser] and [Wait] has become a [UserMessage] of the same
    content, so that a second flush and retrieval changes nothing more. The
    summary is restored, an empty one read back as none. When the store
    answers with no record, the tracker stays as it was. *)
Theorem store_then_retrieve_restores (s : t) (w : World) (ns : string) :
  namespace s = Some ns →
  let w' := (store_events (s, w)).2.2 in
  (last (context_store_query (cs_records w') ns 1)
   = cs_records w' !! (ns +:+ "_" +:+ time_time (clock_reads w)) →
   ∃ s', retrieve_history (__init__ (Some ns), w') = (Returned tt, (s', w')) ∧
         events s' = map revalidated (events s) ∧
         (∀ i e, events s !! i = Some e →
            events s' !! i
            = Some (match e with
                    | ESendToUser content | EWait content => EUserMessage content
                    | _ => e
                    end)) ∧
         map revalidated (events s') = events s' ∧
         summary s' = (if opt_truthy (summary s) then summary s else None) ∧
         past_agent_state s' = Some (events s', summary s) ∧
         namespace s' = Some ns) ∧
  (∀ (fresh : t) (w0 : World),
     namespace fresh = Some ns →
     context_store_query (cs_records w0) ns 1 = [] →
     retrieve_history (fresh, w0) = (Returned tt, (fresh, w0))).
Proof.
  intros Hns w'. split.
  - intros Hquery.
    assert (cs_records w' !! (ns +:+ "_" +:+ time_time (clock_reads w))
            = Some (mkContextRecord (AgentStateData (events s) (summary s)) ns
                      "AgentState" [])) as Hrecord.
    { unfold w'. rewrite StateTrackerFacts.store_events_run. cbn [snd].
      unfold StateTrackerFacts.flushed. rewrite Hns. apply lookup_insert_eq. }
    rewrite Hrecord in Hquery.
    unfold retrieve_history.
    erewrite bind_returned by done. cbn [namespace __init__].
    erewrite bind_returned by done. rewrite Hquery. cbn [ctx_data].
    cbv zeta. do 2 (erewrite bind_returned by done).
    eexists. split; [reflexivity|]. cbn.
    split; [done|]. split; [|split; [|done]].
    + intros i e Hi. rewrite list_lookup_fmap, Hi. done.
    + rewrite <- list_fmap_compose. apply list_fmap_ext. by intros i [].
  - intros fresh w0 Hfresh Hmiss. unfold retrieve_history.
    erewrite bind_returned by done. rewrite Hfresh.
    erewrite bind_returned by done. by rewrite Hmiss.
Qed.

End StoreRetrieve.

(** A store that answers a query with the records of the namespace, up to
    the limit. *)
Definition query_by_namespace : ContextQuery := {|
  context_store_query := λ records ns limit,
    take limit (filter (λ r, ctx_namespace r = ns) (map snd (map_to_list records))) |}.

Lemma store_then_retrieve_restores_witness :
  let s := StateTracker.set_summary (Some "So far: greetings.")
             (StateTracker.set_events (λ _, [EUserMessage "hi"; ESendToUser "hello"])
                (StateTracker.__init__ (Some "memory-demo"))) in
  let w' := (@StateTracker.store_events Sample.pylib (s, empty_world)).2.2 in
  ∃ s', @StateTracker.retrieve_history query_by_namespace
          (StateTracker.__init__ (Some "memory-demo"), w') = (Returned tt, (s', w')) ∧
        StateTracker.events s' = [EUserMessage "hi"; EUserMessage "hello"] ∧
        StateTracker.summary s' = Some "So far: greetings.".
Proof.
  intros s w'.
  destruct (proj1 (@store_then_retrieve_restores Sample.pylib query_by_namespace
                     s empty_world "memory-demo" eq_refl))
    as (s' & Hrun & Hev & _ & _ & Hsum & _).
  - vm_compute. reflexivity.
  - exists s'. split; [exact Hrun|]. split; [exact Hev|exact Hsum].
Defined.

(** ** Tool discovery *)

Section Sanitize.
Import ToolManager.

Fixpoint str_forall (p : Ascii.ascii → bool) (s : string) : bool :=
  match s with
  | EmptyString => true
  | String c rest => p c && str_forall p rest
  end.

Lemma str_take_length n s : String.length (str_take n s) ≤ n.
Proof.
  revert s. induction n as [|n IH]; intros [|c s]; cbn; try lia.
  specialize (IH s). lia.
Qed.

Lemma str_take_short n s : String.length s ≤ n → str_take n s = s.
Proof.
  revert s. induction n as [|n IH]; intros [|c s]; cbn; try done; try lia.
  intros Hle. rewrite IH by lia. done.
Qed.

Lemma str_take_forall p n s : str_forall p s = true → str_forall p (str_take n s) = true.
Proof.
  revert s. induction n as [|n IH]; intros [|c s]; cbn; try done.
  intros [Hc Hs]%andb_prop. by rewrite Hc, IH.
Qed.

Lemma str_map_forall (p : Ascii.ascii → bool) f s :
  (∀ c, p (f c) = true) → str_forall p (str_map f s) = true.
Proof. intros Hf. induction s as [|c s IH]; cbn; [done|]. by rewrite Hf, IH. Qed.

Lemma str_map_fixed (p : Ascii.ascii → bool) f s :
  (∀ c, p c = true → f c = c) → str_forall p s = true → str_map f s = s.
Proof.
  intros Hf. induction s as [|c s IH]; cbn; [done|].
  intros [Hc Hs]%andb_prop. by rewrite (Hf c Hc), IH.
Qed.

Lemma _sanitize_valid name :
  String.length (_sanitize name) ≤ 64 ∧ str_forall name_char (_sanitize name) = true.
Proof.
  unfold _sanitize. split; [apply str_take_length|].
  apply str_take_forall, str_map_forall. intros c.
  destruct (name_char c) eqn:Hc; [done|]. vm_compute. reflexivity.
Qed.

Lemma _sanitize_fixed name :
  String.length name ≤ 64 → str_forall name_char name = true → _sanitize name = name.
Proof.
  intros Hlen Hvalid. unfold _sanitize.
  rewrite (str_map_fixed name_char) by (done || by intros c ->).
  by apply str_take_short.
Qed.

(** X6. The function name [_sanitize] makes of any text has at most 64
    characters, all of them letters, digits, underscores or hyphens; a text
    that already is such a name is kept as it is, so sanitizing twice changes
    nothing more. *)
Theorem _sanitize_gives_function_name (name : string) :
  String.length (_sanitize name) ≤ 64 ∧
  str_forall name_char (_sanitize name) = true ∧
  _sanitize (_sanitize name) = _sanitize name ∧
  (String.length name ≤ 64 → str_forall name_char name = true → _sanitize name = name).
Proof.
  destruct (_sanitize_valid name) as [Hlen Hvalid].
  split; [done|]. split; [done|]. split; [by apply _sanitize_fixed|].
  apply _sanitize_fixed.
Qed.

End Sanitize.

Section Conversion.
Import ToolManager.

(** The server and tool a listed entry stands for, after the normalization
    of both names. *)
Definition entry_target (server_name : string) (entry : ToolEntry)
    : option (string * string) :=
  match entry with
  | ListedTool name _ _ => Some (server_name, strip_or name "tool")
  | FailedListing _ => None
  end.

Definition server_targets (server : ServerEntry) : list (string * string) :=
  omap (entry_target (strip_or (se_name server) "server")) (se_tools server).

(** The targets of all the tools listed, in the order of discovery. *)
Definition listed_targets (servers : list ServerEntry) : list (string * string) :=
  servers ≫= server_targets.

(** The function name under which a target is offered. *)
Definition function_name (target : string * string) : string :=
  _sanitize (target.1 +:+ "__" +:+ target.2).

(** The dispatch table after inserting the targets, in order, into [d]. *)
Definition dispatched (d : gmap string (string * string)) (targets : list (string * string))
    : gmap string (string * string) :=
  foldl (λ d target, <[function_name target := target]> d) d targets.

Lemma dispatched_app d targets1 targets2 :
  dispatched d (targets1 ++ targets2) = dispatched (dispatched d targets1) targets2.
Proof. apply foldl_app. Qed.

Lemma convert_entries_spec server_name entries acc :
  let result := foldl (convert_entry server_name) acc entries in
  map fn_name result.1
  = map fn_name acc.1 ++ map function_name (omap (entry_target server_name) entries) ∧
  result.2 = dispatched acc.2 (omap (entry_target server_name) entries).
Proof.
  revert acc. induction entries as [|entry entries IH]; intros acc; cbn zeta.
  - cbn. by rewrite app_nil_r.
  - cbn [foldl]. destruct (IH (convert_entry server_name acc entry)) as [IH1 IH2].
    rewrite IH1, IH2. destruct entry as [name description schema|error]; [|done].
    cbn. rewrite map_app. cbn. by rewrite <- app_assoc.
Qed.

Lemma convert_servers_spec servers acc :
  let result := foldl convert_server acc servers in
  map fn_name result.1 = map fn_name acc.1 ++ map function_name (listed_targets servers) ∧
  result.2 = dispatched acc.2 (listed_targets servers).
Proof.
  revert acc. induction servers as [|server servers IH]; intros acc; cbn zeta.
  - cbn. by rewrite app_nil_r.
  - cbn [foldl]. destruct (IH (convert_server acc server)) as [IH1 IH2].
    rewrite IH1, IH2. unfold convert_server.
    destruct (convert_entries_spec (strip_or (se_name server) "server")
                (se_tools server) acc) as [E1 E2].
    rewrite E1, E2. unfold listed_targets. cbn [mbind list_bind].
    fold (server_targets server).
    rewrite map_app, dispatched_app, <- app_assoc. done.
Qed.

Lemma dispatched_lookup d targets fn :
  dispatched d targets !! fn
  = match last (filter (λ target, function_name target = fn) targets) with
    | Some target => Some target
    | None => d !! fn
    end.
Proof.
  revert d. induction targets as [|target targets IH] using rev_ind; intros d; [done|].
  rewrite dispatched_app, filter_app. cbn [dispatched foldl].
  rewrite filter_cons, filter_nil.
  destruct (decide (function_name target = fn)) as [<-|Hne].
  - by rewrite lookup_insert_eq, last_snoc.
  - rewrite lookup_insert_ne by done. rewrite app_nil_r. apply IH.
Qed.

Lemma convert_spec mcp_servers :
  map fn_name (_convert_mcp_to_openai_tools mcp_servers).1
  = map function_name (listed_targets mcp_servers) ∧
  ∀ fn, (_convert_mcp_to_openai_tools mcp_servers).2 !! fn
        = last (filter (λ target, function_name target = fn) (listed_targets mcp_servers)).
Proof.
  unfold _convert_mcp_to_openai_tools.
  destruct (convert_servers_spec mcp_servers ([], ∅)) as [E1 E2].
  split; [done|]. intros fn. rewrite E2, dispatched_lookup. cbn [snd].
  rewrite lookup_empty. by destruct (last _).
Qed.

(** X7. The dispatch table [_convert_mcp_to_openai_tools] builds maps a
    function name to the last tool listed under that name, and to nothing
    when no tool was listed under it: a tool whose function name is its own
    alone is dispatched to its server and tool name, and of several tools
    with one function name the last listed wins. The tools offered are the
    tools listed, in order, under their function names. *)
Theorem dispatch_table_maps_to_last_listed (mcp_servers : list ServerEntry) (fn : string) :
  map fn_name (_convert_mcp_to_openai_tools mcp_servers).1
  = map function_name (listed_targets mcp_servers) ∧
  (_convert_mcp_to_openai_tools mcp_servers).2 !! fn
  = last (filter (λ target, function_name target = fn) (listed_targets mcp_servers)).
Proof. destruct (convert_spec mcp_servers) as [E1 E2]. by rewrite E1, E2. Qed.

Lemma last_filter_some {A} (P : A → Prop) `{∀ x, Decision (P x)} (l : list A) x :
  x ∈ l → P x → ∃ y, last (filter P l) = Some y ∧ P y.
Proof.
  intros Hin HP.
  assert (x ∈ filter P l) as Hx by (by apply list_elem_of_filter).
  destruct (last (filter P l)) as [y|] eqn:Hlast.
  - exists y. split; [done|].
    assert (y ∈ filter P l) as Hy.
    { apply last_Some in Hlast as [l' ->]. apply elem_of_app. right. by left. }
    by apply list_elem_of_filter in Hy as [? _].
  - apply last_None in Hlast. rewrite Hlast in Hx. by apply elem_of_nil in Hx.
Qed.

(** X8. Every tool offered after discovery has a function name of at most 64
    letters, digits, underscores and hyphens, and that name is a key of the
    dispatch table: the dispatch layer knows every tool it offers. *)
Theorem offered_tools_are_dispatchable (mcp_servers : list ServerEntry)
    (tool : OpenAITool) :
  tool ∈ (_convert_mcp_to_openai_tools mcp_servers).1 →
  String.length (fn_name tool) ≤ 64 ∧
  str_forall name_char (fn_name tool) = true ∧
  ∃ target, (_convert_mcp_to_openai_tools mcp_servers).2 !! fn_name tool = Some target ∧
            function_name target = fn_name tool.
Proof.
  intros Hin. destruct (convert_spec mcp_servers) as [E1 E2].
  assert (fn_name tool ∈ map function_name (listed_targets mcp_servers)) as Hname.
  { rewrite <- E1. by apply list_elem_of_fmap_2. }
  apply list_elem_of_fmap in Hname as (target & Hfn & Htarget).
  rewrite Hfn. unfold function_name at 1 2.
  destruct (_sanitize_valid (target.1 +:+ "__" +:+ target.2)) as [Hlen Hvalid].
  split; [done|]. split; [done|]. rewrite E2.
  apply (last_filter_some (λ t, function_name t = function_name target) _ target);
    [done|done].
Qed.

(** A server whose listing failed has only the error entry. *)
Definition failed_server (server : ServerEntry) : Prop :=
  ∀ entry, entry ∈ se_tools server → ∃ error, entry = FailedListing error.

Lemma convert_server_failed acc server :
  failed_server server → convert_server acc server = acc.
Proof.
  unfold failed_server, convert_server. generalize (strip_or (se_name server) "server").
  induction (se_tools server) as [|entry entries IH]; intros name Hfailed; [done|].
  destruct (Hfailed entry) as [error ->]; [by left|]. cbn.
  apply IH. intros entry' Hin. apply Hfailed. by right.
Qed.

(** X9. A server whose listing failed contributes nothing and hides nothing:
    the tools offered and the dispatch table are those of the other servers,
    wherever the failed server stands among them. *)
Theorem failed_server_contributes_nothing (before after : list ServerEntry)
    (server : ServerEntry) :
  failed_server server →
  _convert_mcp_to_openai_tools (before ++ server :: after)
  = _convert_mcp_to_openai_tools (before ++ after).
Proof.
  intros Hfailed. unfold _convert_mcp_to_openai_tools.
  rewrite !foldl_app. cbn [foldl]. by rewrite convert_server_failed.
Qed.

End Conversion.

Section Listing.
Context `{ToolManager.ToolListings}.
Import ToolManager.

Lemma list_server_tools_blacklist tool_blacklist cfg entry name description schema :
  list_server_tools tool_blacklist cfg = Some entry →
  ListedTool name description schema ∈ se_tools entry →
  se_name entry = cfg.1 ∧ (cfg.1, name) ∉ tool_blacklist.
Proof.
  unfold list_server_tools. destruct (stdio_list_tools cfg.2) as [tools|message|]; [| |done].
  - intros [= <-]. cbn. intros (tool & [= -> -> ->] & Hin)%list_elem_of_fmap.
    by apply list_elem_of_filter in Hin as [Hnot _].
  - intros [= <-]. cbn. intros Hin. apply list_elem_of_singleton in Hin. discriminate.
Qed.

(** X10. [list_tools] returns exactly when the listing of every configured
    server completes, and then with one entry per configured server, in the
    configured order: a server whose listing raised has the error entry
    alone, and a server whose listing completed has exactly the tools it
    listed that are not on the blacklist under its name, in the order
    listed, each with its name, description and schema, whatever the other
    servers did; no listed tool is on the blacklist. A server whose listing
    never completes keeps [list_tools] from returning, which waits without a
    timeout. *)
Theorem list_tools_isolates_failures (tool_blacklist server_configs : list (string * string)) :
  (list_tools tool_blacklist server_configs = None
   ↔ ∃ cfg, cfg ∈ server_configs ∧ stdio_list_tools cfg.2 = ListingNeverCompletes) ∧
  (∀ entries, list_tools tool_blacklist server_configs = Some entries →
     map se_name entries = map fst server_configs ∧
     (∀ i cfg message,
        server_configs !! i = Some cfg →
        stdio_list_tools cfg.2 = ListingException message →
        entries !! i = Some (mkServerEntry cfg.1 [FailedListing message])) ∧
     (∀ i cfg tools,
        server_configs !! i = Some cfg →
        stdio_list_tools cfg.2 = ListsTools tools →
        entries !! i
        = Some (mkServerEntry cfg.1
                  (map (λ tool, ListedTool tool.1.1 tool.1.2 tool.2)
                     (filter (λ tool, (cfg.1, tool.1.1) ∉ tool_blacklist) tools)))) ∧
     (∀ entry name description schema,
        entry ∈ entries → ListedTool name description schema ∈ se_tools entry →
        (se_name entry, name) ∉ tool_blacklist)).
Proof.
  induction server_configs as [|cfg cfgs [IHnone IHsome]].
  - split.
    + split; [discriminate|]. intros (cfg & Hin & _). by apply elem_of_nil in Hin.
    + intros entries [= <-]. split; [done|]. split; [|split].
      * intros i cfg message Hi. by rewrite lookup_nil in Hi.
      * intros i cfg tools Hi. by rewrite lookup_nil in Hi.
      * intros entry ? ? ? Hin. by apply elem_of_nil in Hin.
  - cbn [list_tools]. split.
    + destruct (list_server_tools tool_blacklist cfg) as [entry|] eqn:Hentry.
      * destruct (list_tools tool_blacklist cfgs) as [entries|].
        -- split; [discriminate|]. intros (cfg' & Hin & Hnever).
           apply elem_of_cons in Hin as [->|Hin].
           ++ unfold list_server_tools in Hentry. by rewrite Hnever in Hentry.
           ++ assert (Some entries = None) as Habsurd by (apply IHnone; eauto).
              discriminate.
        -- split; [|done]. intros _.
           destruct (proj1 IHnone eq_refl) as (cfg' & Hin & Hnever).
           exists cfg'. split; [by right|done].
      * split; [|done]. intros _. exists cfg. split; [by left|].
        unfold list_server_tools in Hentry.
        by destruct (stdio_list_tools cfg.2).
    + intros entries.
      destruct (list_server_tools tool_blacklist cfg) as [entry|] eqn:Hentry; [|done].
      destruct (list_tools tool_blacklist cfgs) as [entries'|]; [|done].
      intros [= <-].
      destruct (IHsome entries' eq_refl) as (Hnames & Hfailed & Hlisted & Hblack).
      split; [|split; [|split]].
      * cbn. rewrite Hnames. f_equal.
        unfold list_server_tools in Hentry.
        destruct (stdio_list_tools cfg.2); by inversion Hentry.
      * intros [|i] cfg' message; cbn.
        -- intros [= <-] Hraise. unfold list_server_tools in Hentry.
           rewrite Hraise in Hentry. by inversion Hentry.
        -- apply Hfailed.
      * intros [|i] cfg' tools; cbn.
        -- intros [= <-] Hlists. unfold list_server_tools in Hentry.
           rewrite Hlists in Hentry. by inversion Hentry.
        -- apply Hlisted.
      * intros entry' name description schema [->|Hin]%elem_of_cons Hin'.
        -- destruct (list_server_tools_blacklist _ _ _ _ _ _ Hentry Hin') as [-> Hnot].
           done.
        -- by eapply Hblack.
Qed.

End Listing.

Section CallBounds.
Context `{PyLib} `{ToolManager.ToolProviders}.
Import ToolManager.

Lemma call_raises e self server_name tool_name arguments :
  (call self server_name tool_name arguments).2 = Raised e →
  e = TimeoutError ∧
  ∃ params, server_dict self !! server_name = Some params ∧
    (stdio_session params tool_name arguments = NeverCompletes ∨
     ∃ seconds r, stdio_session params tool_name arguments = Completes seconds r ∧
                  900 ≤ seconds).
Proof.
  unfold call, call_body.
  destruct (server_dict self !! server_name) as [params|]; [|discriminate].
  destruct (stdio_session params tool_name arguments) as [seconds r|] eqn:Hrun.
  - unfold with_timeout.
    destruct r as [content|message];
      (destruct (seconds <? 900) eqn:Hlt; cbn; [discriminate|]);
      apply Nat.ltb_ge in Hlt; intros [= <-];
      (split; [done|]); exists params; (split; [done|]); right; eauto.
  - cbn. intros [= <-]. split; [done|]. exists params. split; [done|]. by left.
Qed.

(** X11. The only exception [call] raises is the timeout, and it raises it
    only for a configured server whose session has not completed before the
    900 seconds: an exception raised inside a session that ends before the
    timeout comes back as an error result at the time the session ended, and
    a server that is not configured is answered at once with an error
    result, without a session. [call_openai_tool] inherits it: once the
    dispatch table exists it raises nothing but that timeout. *)
Theorem tool_call_raises_only_the_timeout (self : t) (server_name tool_name : string)
    (arguments : pyval) (tool_call : ToolCall) :
  (∀ e, (call self server_name tool_name arguments).2 = Raised e →
        e = TimeoutError ∧
        ∃ params, server_dict self !! server_name = Some params ∧
          (stdio_session params tool_name arguments = NeverCompletes ∨
           ∃ seconds r, stdio_session params tool_name arguments = Completes seconds r ∧
                        900 ≤ seconds)) ∧
  (∀ params seconds message,
     server_dict self !! server_name = Some params →
     stdio_session params tool_name arguments
       = Completes seconds (SessionException message) →
     seconds < 900 →
     call self server_name tool_name arguments
     = (seconds, Returned (PDict [("error", PStr message)]))) ∧
  (server_dict self !! server_name = None →
   call self server_name tool_name arguments
   = (0, Returned (PDict [("error", PStr ("Unknown server " +:+ quoted server_name))]))) ∧
  (∀ e, (call_openai_tool self tool_call).2 = Raised e →
        openai_dispatch self ≠ None →
        e = TimeoutError).
Proof.
  split; [intros e; apply call_raises|]. split; [|split].
  - intros params seconds message Hserver Hrun Hlt. unfold call, call_body.
    rewrite Hserver, Hrun. unfold with_timeout.
    by rewrite (proj2 (Nat.ltb_lt _ _) Hlt).
  - intros Hserver. unfold call, call_body. by rewrite Hserver.
  - unfold call_openai_tool.
    destruct (openai_dispatch self) as [dispatch|]; [|done].
    destruct (dispatch !! tc_name tool_call) as [[server tool]|]; [|discriminate].
    pose proof (λ e, call_raises e self server tool
                       (parse_arguments (tc_arguments tool_call))) as Hraise.
    destruct (call self server tool _) as [seconds [result|e]]; cbn in *; [discriminate|].
    intros e' [= <-] _. by apply Hraise.
Qed.

End CallBounds.

(** A discovery in which the server [docs] lists two tools and the server
    [mail] fails. *)
Definition sample_listings : ToolManager.ToolListings := {|
  ToolManager.stdio_list_tools := λ params,
    if String.eqb params "python docs_server.py"
    then ToolManager.ListsTools
           [("search", Some "Search the docs", PDict [("type", PStr "object")]);
            ("crawl", None, PNone)]
    else ToolManager.ListingException "connection refused" |}.

Definition sample_server_configs : list (string * string) :=
  [("docs", "python docs_server.py"); ("mail", "python mail_server.py")].

Example list_openai_tools_sample :
  @ToolManager.list_openai_tools sample_listings
    (ToolManager.__init__ [("docs", "python docs_server.py")] 900) []
    [("docs", "python docs_server.py")]
  = Some (Sample.tool_manager,
          [ToolManager.mkOpenAITool "docs__search" "Search the docs"
             (PDict [("type", PStr "object")]);
           ToolManager.mkOpenAITool "docs__crawl" "docs.crawl"
             (PDict [("type", PStr "object");
                     ("properties", PDict [("input", PDict [])]);
                     ("required", PList [PStr "input"]);
                     ("additionalProperties", PBool true)])]).
Proof. vm_compute. reflexivity. Qed.

Lemma offered_tools_are_dispatchable_witness :
  let servers :=
    [ToolManager.mkServerEntry "docs"
       [ToolManager.ListedTool "search" None PNone;
        ToolManager.ListedTool " crawl page " None PNone]] in
  let tool :=
    ToolManager.mkOpenAITool "docs__crawl_page" "docs.crawl page"
      (ToolManager.parameters_of PNone) in
  tool ∈ (ToolManager._convert_mcp_to_openai_tools servers).1 ∧
  (ToolManager._convert_mcp_to_openai_tools servers).2 !! "docs__crawl_page"
    = Some ("docs", "crawl page") ∧
  String.length (ToolManager.fn_name tool) ≤ 64.
Proof.
  intros servers tool.
  assert (tool ∈ (ToolManager._convert_mcp_to_openai_tools servers).1) as Hin.
  { apply list_elem_of_In. vm_compute. right. left. reflexivity. }
  split; [exact Hin|]. split; [vm_compute; reflexivity|].
  exact (proj1 (offered_tools_are_dispatchable servers tool Hin)).
Defined.

Lemma failed_server_contributes_nothing_witness :
  let docs := ToolManager.mkServerEntry "docs" [ToolManager.ListedTool "search" None PNone] in
  let mail := ToolManager.mkServerEntry "mail" [ToolManager.FailedListing "connection refused"] in
  ToolManager._convert_mcp_to_openai_tools ([mail] ++ docs :: [])
  = ToolManager._convert_mcp_to_openai_tools ([] ++ mail :: [docs]) ∧
  ToolManager._convert_mcp_to_openai_tools ([] ++ mail :: [docs])
  = ToolManager._convert_mcp_to_openai_tools ([] ++ [docs]).
Proof.
  intros docs mail. split; [vm_compute; reflexivity|].
  apply (failed_server_contributes_nothing [] [docs] mail).
  intros entry Hin. apply list_elem_of_singleton in Hin. by exists "connection refused".
Defined.

Lemma list_tools_isolates_failures_witness :
  let tool_blacklist := [("mail", "crawl"); ("docs", "search")] in
  ∃ entries,
    @ToolManager.list_tools sample_listings tool_blacklist sample_server_configs
      = Some entries ∧
    map ToolManager.se_name entries = ["docs"; "mail"] ∧
    entries !! 0
      = Some (ToolManager.mkServerEntry "docs" [ToolManager.ListedTool "crawl" None PNone]) ∧
    entries !! 1
      = Some (ToolManager.mkServerEntry "mail"
                [ToolManager.FailedListing "connection refused"]).
Proof.
  intros tool_blacklist.
  pose proof (@list_tools_isolates_failures sample_listings
                tool_blacklist sample_server_configs) as [_ Hsome].
  eexists. split; [vm_compute; reflexivity|].
  edestruct Hsome as (Hnames & Hfailed & Hlisted & _); [vm_compute; reflexivity|].
  split; [exact Hnames|]. split.
  - refine (eq_trans (Hlisted 0 ("docs", "python docs_server.py") _ eq_refl eq_refl) _).
    vm_compute. reflexivity.
  - exact (Hfailed 1 ("mail", "python mail_server.py") "connection refused"
             eq_refl eq_refl).
Defined.

(** ** Providers and models *)

Section Providers.
Import LlmClient.

Definition known_providers : list string := ["openai"; "bedrock"; "anthropic"].

Lemma static_table_known model provider :
  MODEL_PROVIDERS !! model = Some provider → provider ∈ known_providers.
Proof.
  intros Htable. apply (elem_of_list_to_map_2 (M := gmap string)) in Htable.
  unfold known_providers.
  repeat (apply elem_of_cons in Htable as [[= _ ->]|Htable];
          [first [by left | by right; left | by right; right; left]|]).
  by apply elem_of_nil in Htable.
Qed.

Lemma adapter_of_known environ model provider :
  get_provider_for_model environ model = Returned provider →
  provider ∈ known_providers →
  ∃ adapter, create_completion_adapter environ model = Returned adapter.
Proof.
  intros Hres Hknown. unfold create_completion_adapter. rewrite Hres. cbn.
  unfold known_providers in Hknown.
  repeat (apply elem_of_cons in Hknown as [->|Hknown]; [cbn; eauto|]).
  by apply elem_of_nil in Hknown.
Qed.

Lemma resolution_without_override environ model :
  env_set environ "LLM_PROVIDER" = false →
  (∃ provider, get_provider_for_model environ model = Returned provider ∧
               provider ∈ known_providers) ∨
  (get_provider_for_model environ model
   = Raised (ValueError ("Cannot determine provider for model '" +:+ model
               +:+ "'. Set LLM_PROVIDER env var or configure API keys.")) ∧
   MODEL_PROVIDERS !! model = None ∧
   ∀ entry, entry ∈ get_available_providers environ → entry.2 = false).
Proof.
  intros Hno. unfold get_provider_for_model, get_available_providers.
  unfold env_set in Hno. rewrite Hno.
  destruct (MODEL_PROVIDERS !! model) as [provider|] eqn:Htable.
  - left. pose proof (static_table_known _ _ Htable) as Hknown.
    assert (opt_truthy (Some provider) = true) as ->.
    { unfold known_providers in Hknown.
      repeat (apply elem_of_cons in Hknown as [->|Hknown]; [done|]).
      by apply elem_of_nil in Hknown. }
    eauto.
  - cbn [opt_truthy].
    destruct (env_set environ "OPENAI_API_KEY");
      [left; eexists; split; [done|by left]|].
    destruct (env_set environ "BEDROCK_API_KEY" || env_set environ "AWS_API_KEY");
      [left; eexists; split; [done|by right; left]|].
    destruct (env_set environ "ANTHROPIC_API_KEY");
      [left; eexists; split; [done|by right; right; left]|].
    right. split; [done|]. split; [done|].
    intros entry Hin. repeat (apply elem_of_cons in Hin as [->|Hin]; [done|]).
    by apply elem_of_nil in Hin.
Qed.

(** X12. Without an override, [create_completion] always reaches one of its
    three adapters unless the model is absent from the static table and no
    credential is set, in which case it raises the error of the resolution;
    its own error, the unknown provider, comes only from an override: an
    ASCII [LLM_PROVIDER] that is not one of [openai], [bedrock], [anthropic]
    in any letter case is accepted by the resolution and refused at the
    dispatch, for every model, and one that is reaches its adapter. (An
    override with a letter outside ASCII is left out: [str.lower] may turn it
    into one of the three names.) *)
Theorem unknown_provider_only_from_override (environ : gmap string string) (model : string) :
  (env_set environ "LLM_PROVIDER" = false →
     (∃ adapter, create_completion_adapter environ model = Returned adapter) ∨
     (create_completion_adapter environ model
      = Raised (ValueError ("Cannot determine provider for model '" +:+ model
                  +:+ "'. Set LLM_PROVIDER env var or configure API keys.")) ∧
      MODEL_PROVIDERS !! model = None ∧
      ∀ entry, entry ∈ get_available_providers environ → entry.2 = false)) ∧
  (∀ override, environ !! "LLM_PROVIDER" = Some override → override ≠ "" →
     isascii override = true →
     get_provider_for_model environ model = Returned (lower override) ∧
     (lower override ∈ known_providers →
        ∃ adapter, create_completion_adapter environ model = Returned adapter) ∧
     (lower override ∉ known_providers →
        create_completion_adapter environ model
        = Raised (ValueError ("Unknown provider: " +:+ lower override)))).
Proof.
  split.
  - intros Hno.
    destruct (resolution_without_override environ model Hno)
      as [(provider & Hres & Hknown)|(Hraise & Htable & Hcred)].
    + left. by eapply adapter_of_known.
    + right. split; [|done]. unfold create_completion_adapter. by rewrite Hraise.
  - intros override Hov Hne _.
    assert (get_provider_for_model environ model = Returned (lower override)) as Hres.
    { unfold get_provider_for_model. rewrite Hov. cbn. unfold str_truthy.
      by destruct (String.eqb_spec override ""). }
    split; [done|]. split; [by apply adapter_of_known|].
    intros Hunknown. unfold create_completion_adapter. rewrite Hres. cbn.
    unfold known_providers in Hunknown.
    destruct (String.eqb_spec (lower override) "openai") as [E|_];
      [destruct Hunknown; rewrite E;
       first [by left | by right; left | by right; right; left]|].
    destruct (String.eqb_spec (lower override) "bedrock") as [E|_];
      [destruct Hunknown; rewrite E;
       first [by left | by right; left | by right; right; left]|].
    destruct (String.eqb_spec (lower override) "anthropic") as [E|_];
      [destruct Hunknown; rewrite E;
       first [by left | by right; left | by right; right; left]|].
    done.
Qed.

(** X13. Without an override, every model [list_available_models] lists
    resolves, and to a provider that [get_available_providers] reports as
    available. *)
Theorem listed_models_resolve_to_available (environ : gmap string string) (model : string) :
  env_set environ "LLM_PROVIDER" = false →
  model ∈ list_available_models environ →
  ∃ provider,
    get_provider_for_model environ model = Returned provider ∧
    (provider, true) ∈ get_available_providers environ ∧
    ∃ adapter, create_completion_adapter environ model = Returned adapter.
Proof.
  intros Hno Hin.
  assert (∀ provider, MODEL_PROVIDERS !! model = Some provider →
            get_provider_for_model environ model = Returned provider) as Hres.
  { intros provider Htable. unfold get_provider_for_model.
    unfold env_set in Hno. rewrite Hno, Htable.
    pose proof (static_table_known _ _ Htable) as Hknown. unfold known_providers in Hknown.
    repeat (apply elem_of_cons in Hknown as [->|Hknown]; [done|]).
    by apply elem_of_nil in Hknown. }
  assert (∃ provider, MODEL_PROVIDERS !! model = Some provider ∧
                      (provider, true) ∈ get_available_providers environ)
    as (provider & Htable & Havail).
  { unfold list_available_models, get_available_providers in *.
    apply elem_of_app in Hin as [Hin|Hin]; [|apply elem_of_app in Hin as [Hin|Hin]].
    - destruct (env_set environ "OPENAI_API_KEY"); [|by apply elem_of_nil in Hin].
      exists "openai". split; [|by left].
      repeat (apply elem_of_cons in Hin as [->|Hin]; [by vm_compute|]).
      by apply elem_of_nil in Hin.
    - destruct (env_set environ "BEDROCK_API_KEY" || env_set environ "AWS_API_KEY");
        [|by apply elem_of_nil in Hin].
      exists "bedrock". split; [|by right; left].
      repeat (apply elem_of_cons in Hin as [->|Hin]; [by vm_compute|]).
      by apply elem_of_nil in Hin.
    - destruct (env_set environ "ANTHROPIC_API_KEY"); [|by apply elem_of_nil in Hin].
      exists "anthropic". split; [|by right; right; left].
      repeat (apply elem_of_cons in Hin as [->|Hin]; [by vm_compute|]).
      by apply elem_of_nil in Hin. }
  exists provider. split; [by apply Hres|]. split; [done|].
  eapply adapter_of_known; [by apply Hres|]. by eapply static_table_known.
Qed.

End Providers.

Lemma not_known_azure : "azure" ∉ known_providers.
Proof.
  unfold known_providers. intros Hin.
  repeat (apply elem_of_cons in Hin as [Hin|Hin]; [discriminate|]).
  by apply elem_of_nil in Hin.
Qed.

Lemma unknown_provider_only_from_override_witness :
  LlmClient.create_completion_adapter {[ "LLM_PROVIDER" := "Azure" ]} "gpt-4"
    = Raised (ValueError "Unknown provider: azure") ∧
  LlmClient.get_provider_for_model {[ "LLM_PROVIDER" := "Azure" ]} "gpt-4"
    = Returned "azure" ∧
  ∃ adapter, LlmClient.create_completion_adapter {[ "LLM_PROVIDER" := "BEDROCK" ]} "gpt-4"
             = Returned adapter.
Proof.
  assert (({[ "LLM_PROVIDER" := "Azure" ]} : gmap string string) !! "LLM_PROVIDER"
          = Some "Azure") as Hazure by (vm_compute; reflexivity).
  assert (({[ "LLM_PROVIDER" := "BEDROCK" ]} : gmap string string) !! "LLM_PROVIDER"
          = Some "BEDROCK") as Hbedrock by (vm_compute; reflexivity).
  destruct (proj2 (unknown_provider_only_from_override {[ "LLM_PROVIDER" := "Azure" ]} "gpt-4")
              "Azure" Hazure ltac:(discriminate) eq_refl) as (Hres & _ & Hunknown).
  split; [|split; [exact Hres|]].
  - apply Hunknown. exact not_known_azure.
  - apply (proj2 (unknown_provider_only_from_override {[ "LLM_PROVIDER" := "BEDROCK" ]} "gpt-4")
             "BEDROCK" Hbedrock ltac:(discriminate) eq_refl).
    by right; left.
Defined.

Lemma listed_models_resolve_to_available_witness :
  LlmClient.list_available_models {[ "AWS_API_KEY" := "key" ]}
    = ["claude-3-5-sonnet"; "claude-3-5-haiku"; "claude-3-opus"] ∧
  ∃ provider,
    LlmClient.get_provider_for_model {[ "AWS_API_KEY" := "key" ]} "claude-3-opus"
      = Returned provider ∧
    (provider, true) ∈ LlmClient.get_available_providers {[ "AWS_API_KEY" := "key" ]} ∧
    ∃ adapter, LlmClient.create_completion_adapter {[ "AWS_API_KEY" := "key" ]} "claude-3-opus"
               = Returned adapter.
Proof.
  split; [vm_compute; reflexivity|].
  apply (listed_models_resolve_to_available {[ "AWS_API_KEY" := "key" ]} "claude-3-opus");
    [vm_compute; reflexivity|].
  by right; right; left.
Defined.

(** ** The worker loop: what it requests and what it records *)

Section WorkerBounds.
Context `{PyLib} `{Prompts} `{SummarizerClient} `{ContextQuery}
        `{CompletionRouter} `{ToolManager.ToolProviders}.
Import Worker.

(** A computation on the worker's tracker that requests at most [k]
    completions, however it ends. *)
Definition requests_at_most {A} (k : nat) (m : M (StateTracker.t * World) A) : Prop :=
  ∀ st w r st' w', m (st, w) = (r, (st', w')) →
    completions w ≤ completions w' ≤ completions w + k.

Lemma requests_at_most_weaken {A} k k' (m : M (StateTracker.t * World) A) :
  k ≤ k' → requests_at_most k m → requests_at_most k' m.
Proof. intros Hle Hm st w r st' w' Hrun. specialize (Hm _ _ _ _ _ Hrun). lia. Qed.

Lemma requests_at_most_bind {A B} k1 k2 (m : M (StateTracker.t * World) A)
    (f : A → M (StateTracker.t * World) B) :
  requests_at_most k1 m → (∀ x, requests_at_most k2 (f x)) →
  requests_at_most (k1 + k2) (m ≫= f).
Proof.
  intros Hm Hf st w r st' w'. unfold mbind, M_bind.
  destruct (m (st, w)) as [[x|e] [st1 w1]] eqn:Em; specialize (Hm _ _ _ _ _ Em).
  - intros Ef. specialize (Hf x _ _ _ _ _ Ef). lia.
  - intros [= _ _ <-]. lia.
Qed.

Lemma requests_none_bind {A B} (m : M (StateTracker.t * World) A)
    (f : A → M (StateTracker.t * World) B) :
  requests_at_most 0 m → (∀ x, requests_at_most 0 (f x)) → requests_at_most 0 (m ≫= f).
Proof. apply (requests_at_most_bind 0 0). Qed.

Lemma requests_none_pure {A} (m : M (StateTracker.t * World) A) :
  (∀ s, (m s).2.2 = s.2) → requests_at_most 0 m.
Proof.
  intros Hm st w r st' w' Hrun. specialize (Hm (st, w)). rewrite Hrun in Hm.
  cbn in Hm. subst. lia.
Qed.

Lemma requests_none_add_event e : requests_at_most 0 (StateTracker.add_event e).
Proof.
  intros st w r st' w'.
  destruct (StateTrackerFacts.add_event_run e st w)
    as (s2 & w2 & _ & _ & _ & _ & _ & [[Hc _] _] & ->).
  destruct (_ <? _); [destruct (StateTrackerFacts.compaction_reply _ _ _)|];
    intros [= _ _ <-]; cbn; lia.
Qed.

Lemma requests_none_store_events : requests_at_most 0 StateTracker.store_events.
Proof.
  intros st w r st' w'. rewrite StateTrackerFacts.store_events_run. intros [= _ _ <-].
  destruct (StateTrackerFacts.flushed_same_traffic st w) as [Hc _]. lia.
Qed.

Lemma requests_none_for_each {A} (body : A → M (StateTracker.t * World) unit) xs :
  (∀ x, requests_at_most 0 (body x)) → requests_at_most 0 (for_each body xs).
Proof.
  intros Hbody. induction xs as [|x xs IH].
  - apply requests_none_pure. by intros [].
  - apply requests_none_bind; [apply Hbody|by intros _].
Qed.

Lemma requests_none_collect tool_calls tool_call_tasks :
  requests_at_most 0 (collect_tool_calls tool_calls tool_call_tasks).
Proof.
  revert tool_call_tasks. induction tool_calls as [|tc tcs IH]; intros tasks.
  - apply requests_none_pure. by intros [].
  - cbn [collect_tool_calls]. destruct (String.eqb _ _); [|apply IH].
    apply requests_none_bind; [apply requests_none_pure; by intros []|]. intros answer.
    apply requests_none_bind; [apply requests_none_add_event|]. intros _.
    apply requests_none_bind; [apply requests_none_store_events|]. intros _.
    apply requests_none_pure. by intros [].
Qed.

Lemma requests_none_gather self tasks : requests_at_most 0 (gather self tasks).
Proof. intros st w r st' w'. unfold gather. intros [= _ _ <-]. cbn. lia. Qed.

Lemma requests_one_step self system_message :
  requests_at_most 1 (step self system_message).
Proof.
  unfold step.
  apply (requests_at_most_bind 0 1); [apply requests_none_pure; by intros []|]. intros st.
  apply (requests_at_most_bind 0 1); [apply requests_none_pure; by intros []|]. intros msgs.
  apply (requests_at_most_bind 1 0).
  { intros st0 w r st' w'. unfold complete. intros [= _ _ <-]. cbn. unfold Nat.succ. lia. }
  intros reply. cbv zeta.
  apply requests_none_bind; [apply requests_none_add_event|]. intros _.
  destruct (requested_tool_calls _) as [|tc tcs]; [apply requests_none_pure; by intros []|].
  apply requests_none_bind; [apply requests_none_collect|]. intros [[|task tasks]|answer];
    try (apply requests_none_pure; by intros []).
  apply requests_none_bind; [apply requests_none_gather|]. intros results.
  apply requests_none_bind; [|intros _; apply requests_none_pure; by intros []].
  apply requests_none_for_each. intros tr. apply requests_none_add_event.
Qed.

Lemma requests_none_ceiling : requests_at_most 0 step_ceiling_result.
Proof.
  intros st w r st' w'. rewrite step_ceiling_result_run. intros [= _ _ <-]. lia.
Qed.

Lemma requests_steps_loop self system_message remaining :
  requests_at_most remaining (steps_loop self system_message remaining).
Proof.
  induction remaining as [|remaining IH]; [apply requests_none_ceiling|].
  cbn [steps_loop]. apply (requests_at_most_bind 1 remaining); [apply requests_one_step|].
  intros [answer|]; [|exact IH].
  eapply requests_at_most_weaken; [|apply requests_none_pure; by intros []]. lia.
Qed.

Lemma requests_none_retrieve_history : requests_at_most 0 StateTracker.retrieve_history.
Proof.
  unfold StateTracker.retrieve_history.
  apply requests_none_bind; [apply requests_none_pure; by intros []|]. intros st.
  destruct (StateTracker.namespace st); [|apply requests_none_pure; by intros []].
  apply requests_none_bind; [apply requests_none_pure; by intros []|]. intros latest.
  destruct (last latest) as [record|]; [|apply requests_none_pure; by intros []].
  destruct (ctx_data record); apply requests_none_pure; by intros [].
Qed.

(** X14. The step ceiling is hard for the router: whatever the provider
    replies and however the call ends, by an answer, at the ceiling or by an
    exception, [WorkerAgent.call] requests at most [max_steps] completions
    from the router ([create_completion]), one per step. The chat
    completions that the summarizer requests from its own client when the
    log is compacted are not among them: the world counts them apart, in
    [summarizations]. *)
Theorem call_requests_at_most_max_steps (self : t) (request : string)
    (agent_name : option string) (w : World) :
  completions (call self request agent_name w).2.2 ≤ completions w + max_steps self.
Proof.
  unfold call.
  destruct (call_on_tracker self request (WorkerStateTracker.__init__ agent_name, w))
    as [r [st' w']] eqn:Hrun. cbn [snd].
  assert (requests_at_most (max_steps self) (call_on_tracker self request)) as Hbound.
  { unfold call_on_tracker.
    apply (requests_at_most_bind 0); [apply requests_none_retrieve_history|]. intros _.
    apply (requests_at_most_bind 0).
    { intros st0 w0 r0 st1 w1. unfold utc_now. intros [= _ _ <-]. cbn. lia. }
    intros time_str.
    apply (requests_at_most_bind 0); [apply requests_none_pure; by intros []|]. intros st.
    cbv zeta.
    apply (requests_at_most_bind 0); [apply requests_none_add_event|]. intros _.
    apply requests_steps_loop. }
  specialize (Hbound _ _ _ _ _ Hrun). lia.
Qed.

End WorkerBounds.

Section WorkerLog.
Context `{PyLib} `{Prompts} `{SummarizerClient} `{ContextQuery}
        `{CompletionRouter} `{ToolManager.ToolProviders}.
Import Worker.

(** The event kinds the worker itself adds to its log. *)
Definition worker_kind (e : Event) : bool :=
  match e with
  | EUserMessage _ | EAssistantMessage _ | EToolCallResult _ => true
  | _ => false
  end.

Definition worker_log (st : StateTracker.t) : Prop :=
  forallb worker_kind (StateTracker.events st) = true.

(** A computation that keeps the log a worker log, however it ends. *)
Definition keeps_worker_log {A} (m : M (StateTracker.t * World) A) : Prop :=
  ∀ st w r st' w', worker_log st → m (st, w) = (r, (st', w')) → worker_log st'.

Lemma keeps_worker_log_bind {A B} (m : M (StateTracker.t * World) A)
    (f : A → M (StateTracker.t * World) B) :
  keeps_worker_log m → (∀ x, keeps_worker_log (f x)) → keeps_worker_log (m ≫= f).
Proof.
  intros Hm Hf st w r st' w' Hlog. unfold mbind, M_bind.
  destruct (m (st, w)) as [[x|e] [st1 w1]] eqn:Em; specialize (Hm _ _ _ _ _ Hlog Em).
  - intros Ef. exact (Hf x _ _ _ _ _ Hm Ef).
  - by intros [= _ <- _].
Qed.

Lemma keeps_worker_log_pure {A} (m : M (StateTracker.t * World) A) :
  (∀ s, (m s).2.1 = s.1) → keeps_worker_log m.
Proof.
  intros Hm st w r st' w' Hlog Hrun. specialize (Hm (st, w)). rewrite Hrun in Hm.
  cbn in Hm. by subst.
Qed.

Lemma forallb_drop {A} (p : A → bool) n (l : list A) :
  forallb p l = true → forallb p (drop n l) = true.
Proof.
  revert n. induction l as [|x l IH]; intros [|n]; cbn; try done.
  intros [_ Hl]%andb_prop. by apply IH.
Qed.

Lemma keeps_worker_log_add_event e :
  worker_kind e = true → keeps_worker_log (StateTracker.add_event e).
Proof.
  intros He st w r st' w' Hlog.
  destruct (StateTrackerFacts.add_event_run e st w)
    as (s2 & w2 & Hev & _ & _ & _ & _ & _ & ->).
  assert (worker_log s2) as Hlog2.
  { unfold worker_log in *. rewrite Hev, forallb_app, Hlog. cbn. by rewrite He. }
  destruct (_ <? _); [destruct (StateTrackerFacts.compaction_reply _ _ _)|];
    intros [= _ <- _]; try done.
  unfold worker_log. cbn. by apply forallb_drop.
Qed.

Lemma keeps_worker_log_for_each {A} (body : A → M (StateTracker.t * World) unit) xs :
  (∀ x, keeps_worker_log (body x)) → keeps_worker_log (for_each body xs).
Proof.
  intros Hbody. induction xs as [|x xs IH].
  - apply keeps_worker_log_pure. by intros [].
  - apply keeps_worker_log_bind; [apply Hbody|by intros _].
Qed.

Lemma keeps_worker_log_collect tool_calls tool_call_tasks :
  keeps_worker_log (collect_tool_calls tool_calls tool_call_tasks).
Proof.
  revert tool_call_tasks. induction tool_calls as [|tc tcs IH]; intros tasks.
  - apply keeps_worker_log_pure. by intros [].
  - cbn [collect_tool_calls]. destruct (String.eqb _ _); [|apply IH].
    apply keeps_worker_log_bind; [apply keeps_worker_log_pure; by intros []|].
    intros answer.
    apply keeps_worker_log_bind; [by apply keeps_worker_log_add_event|]. intros _.
    apply keeps_worker_log_bind.
    { intros st w r st' w' Hlog. rewrite StateTrackerFacts.store_events_run.
      by intros [= _ <- _]. }
    intros _. apply keeps_worker_log_pure. by intros [].
Qed.

Lemma keeps_worker_log_step self system_message :
  keeps_worker_log (step self system_message).
Proof.
  unfold step.
  apply keeps_worker_log_bind; [apply keeps_worker_log_pure; by intros []|]. intros st.
  apply keeps_worker_log_bind; [apply keeps_worker_log_pure; by intros []|]. intros msgs.
  apply keeps_worker_log_bind; [apply keeps_worker_log_pure; by intros []|].
  intros reply. cbv zeta.
  apply keeps_worker_log_bind; [by apply keeps_worker_log_add_event|]. intros _.
  destruct (requested_tool_calls _) as [|tc tcs];
    [apply keeps_worker_log_pure; by intros []|].
  apply keeps_worker_log_bind; [apply keeps_worker_log_collect|].
  intros [[|task tasks]|answer]; try (apply keeps_worker_log_pure; by intros []).
  apply keeps_worker_log_bind; [apply keeps_worker_log_pure; by intros []|].
  intros results.
  apply keeps_worker_log_bind; [|intros _; apply keeps_worker_log_pure; by intros []].
  apply keeps_worker_log_for_each. intros tr. by apply keeps_worker_log_add_event.
Qed.

Lemma keeps_worker_log_steps_loop self system_message remaining :
  keeps_worker_log (steps_loop self system_message remaining).
Proof.
  induction remaining as [|remaining IH].
  - intros st w r st' w' Hlog. rewrite step_ceiling_result_run. by intros [= _ <- _].
  - cbn [steps_loop]. apply keeps_worker_log_bind; [apply keeps_worker_log_step|].
    intros [answer|]; [apply keeps_worker_log_pure; by intros []|exact IH].
Qed.

Lemma worker_log_wire events :
  forallb worker_kind events = true →
  forallb wire_kind events = true ∧
  ∃ text, ceiling_value events = Returned (PStr text).
Proof.
  intros Hlog.
  assert (forallb wire_kind events = true) as Hwire.
  { apply forallb_forall. intros e Hin.
    pose proof (proj1 (forallb_forall _ _) Hlog e Hin). by destruct e. }
  split; [done|].
  (* the last assistant message, if there is one *)
  induction events as [|e events IH] using rev_ind.
  - exists "". by apply ceiling_value_no_assistant.
  - rewrite forallb_app in Hlog, Hwire.
    apply andb_prop in Hlog as [Hlog He]. apply andb_prop in Hwire as [Hwire _].
    destruct (IH Hlog Hwire) as [text Htext].
    destruct e as [| tr | content | am | | |]; try discriminate.
    + (* a tool result after the log: the scan skips it *)
      exists text. revert Htext. unfold ceiling_value.
      destruct (to_openai_all_wire _ Hwire) as (msgs & Emsgs & _).
      rewrite to_openai_all_app, Emsgs. cbn. by rewrite reverse_snoc.
    + exists text. revert Htext. unfold ceiling_value.
      destruct (to_openai_all_wire _ Hwire) as (msgs & Emsgs & _).
      rewrite to_openai_all_app, Emsgs. cbn. by rewrite reverse_snoc.
    + exists (default "" (am_content am)).
      by apply (ceiling_value_last_message events am []).
Qed.

(** X15. The worker keeps its log renderable: from a log that holds only user
    messages, assistant messages and tool results (an empty log, or a history
    the worker wrote), the loop, however it ends, leaves such a log, so
    [messages] returns on it and the fallback at the step ceiling returns a
    string; no step of the loop fails in the rendering of its own log. In
    particular the log after a call without an agent name is such a log. *)
Theorem worker_log_stays_renderable (self : t) (system_message : Msg) (remaining : nat)
    (st : StateTracker.t) (w : World) :
  (worker_log st →
   worker_log (steps_loop self system_message remaining (st, w)).2.1 ∧
   (∃ msgs, WorkerStateTracker.messages
              (steps_loop self system_message remaining (st, w)).2.1 = Returned msgs) ∧
   (∃ text, ceiling_value
              (StateTracker.events (steps_loop self system_message remaining (st, w)).2.1)
            = Returned (PStr text))) ∧
  (∀ request, worker_log (call self request None w).2.1).
Proof.
  split.
  - intros Hlog.
    destruct (steps_loop self system_message remaining (st, w)) as [r [st' w']] eqn:Hrun.
    pose proof (keeps_worker_log_steps_loop _ _ _ _ _ _ _ _ Hlog Hrun) as Hlog'.
    cbn [snd fst]. split; [done|].
    destruct (worker_log_wire _ Hlog') as [Hwire Hceiling]. split; [|done].
    destruct (to_openai_all_wire _ Hwire) as (msgs & Emsgs & _). by exists msgs.
  - intros request. unfold call, call_on_tracker.
    erewrite bind_returned by reflexivity.
    match goal with
    | |- worker_log (?m (?st0, ?w0)).2.1 =>
        assert (keeps_worker_log m) as Hkeeps;
        [|destruct (m (st0, w0)) as [r [st' w']] eqn:Hrun;
          exact (Hkeeps st0 w0 r st' w' eq_refl Hrun)]
    end.
    apply keeps_worker_log_bind; [apply keeps_worker_log_pure; by intros []|].
    intros time_str.
    apply keeps_worker_log_bind; [apply keeps_worker_log_pure; by intros []|].
    intros st0. cbv zeta.
    apply keeps_worker_log_bind; [by apply keeps_worker_log_add_event|]. intros _.
    apply keeps_worker_log_steps_loop.
Qed.

End WorkerLog.

Section WorkerSteps.
Context `{PyLib} `{Prompts} `{SummarizerClient} `{ContextQuery}
        `{CompletionRouter} `{ToolManager.ToolProviders}.
Import Worker.


Lemma collect_tool_calls_no_final tool_calls tool_call_tasks s :
  find_final_answer_call tool_calls = None →
  collect_tool_calls tool_calls tool_call_tasks s
  = (Returned (inl (tool_call_tasks ++ tool_calls)), s).
Proof.
  revert tool_call_tasks. induction tool_calls as [|tc tcs IH]; intros tasks.
  - intros _. cbn. by rewrite app_nil_r.
  - unfold find_final_answer_call. cbn [List.find collect_tool_calls].
    destruct (String.eqb (tc_name tc) "return_final_answer"); [discriminate|].
    intros Hnone. rewrite (IH _ Hnone), <- app_assoc. done.
Qed.

(** X17. A reply without the final-answer call has every tool call it
    requests handed to the dispatch layer, once and in the order requested,
    before any result is recorded; however the results come out, the step
    does not end the call with an answer. *)
Theorem step_dispatches_every_tool_call (self : t) (system_message : Msg)
    (st : StateTracker.t) (w : World) (msgs : list Msg) (reply : AssistantMessage)
    (st1 : StateTracker.t) (w1 : World) (r : Res (option pyval))
    (st' : StateTracker.t) (w' : World) :
  WorkerStateTracker.messages st = Returned msgs →
  create_completion (completions w) (system_message :: msgs) = Returned reply →
  find_final_answer_call (requested_tool_calls reply) = None →
  StateTracker.add_event (EAssistantMessage reply) (st, set_completions Nat.succ w)
    = (Returned tt, (st1, w1)) →
  step self system_message (st, w) = (r, (st', w')) →
  tool_dispatches w' = tool_dispatches w ++ requested_tool_calls reply ∧
  (∀ answer, r ≠ Returned (Some answer)).
Proof.
  intros Hmsgs Hreply Hfind Hadd.
  rewrite (step_run _ _ _ _ _ _ Hmsgs Hreply). unfold recorded_reply. rewrite Hfind.
  erewrite bind_returned by exact Hadd.
  apply StateTrackerFacts.add_event_returned in Hadd as (_ & _ & _ & [_ Hd1] & _).
  cbn in Hd1.
  destruct (requested_tool_calls reply) as [|tc tcs] eqn:Hcalls.
  - intros [= <- _ <-]. rewrite app_nil_r. done.
  - rewrite <- Hcalls in Hfind |- *.
    erewrite bind_returned by (by apply collect_tool_calls_no_final).
    cbn [app]. rewrite Hcalls. cbv beta iota.
    unfold mbind at 1, M_bind at 1. unfold gather at 1.
    remember (set_tool_dispatches (λ ds, ds ++ tc :: tcs) w1) as w2 eqn:Hw2.
    assert (tool_dispatches w2 = tool_dispatches w ++ tc :: tcs) as Hd2
      by (subst w2; cbn; by rewrite Hd1).
    clear Hw2.
    destruct (first_raise _) as [results|e]; cycle 1.
    { intros [= <- _ <-]. done. }
    unfold mbind, M_bind.
    destruct (for_each _ results (st1, w2)) as [[[]|e] [st3 w3]] eqn:Hrec.
    + intros [= <- _ <-]. split; [|done].
      assert (requests_at_most 0
                (for_each (λ tr, StateTracker.add_event (EToolCallResult tr)) results))
        as _ by (apply requests_none_for_each; intros; apply requests_none_add_event).
      clear -Hrec Hd2. revert st1 w2 Hrec Hd2.
      induction results as [|tr results IH]; intros st1 w2.
      * by intros [= _ <-].
      * rewrite for_each_cons. intros ([] & [st4 w4] & Hfirst & Hrest)%bind_inv Hd2.
        apply StateTrackerFacts.add_event_returned in Hfirst as (_ & _ & _ & [_ Hd4] & _).
        eapply IH; [exact Hrest|]. by rewrite Hd4.
    + intros [= <- _ <-]. split; [|done].
      clear -Hrec Hd2. revert st1 w2 Hrec Hd2.
      induction results as [|tr results IH]; intros st1 w2; [discriminate|].
      rewrite for_each_cons. unfold mbind, M_bind.
      destruct (StateTracker.add_event (EToolCallResult tr) (st1, w2))
        as [[[]|e'] [st4 w4]] eqn:Hfirst.
      * intros Hrest Hd2. eapply IH; [exact Hrest|].
        apply StateTrackerFacts.add_event_returned in Hfirst as (_ & _ & _ & [_ Hd4] & _).
        by rewrite Hd4.
      * intros [= _ _ <-] Hd2.
        destruct (StateTrackerFacts.add_event_run (EToolCallResult tr) st1 w2)
          as (s2 & w5 & _ & _ & _ & _ & _ & [[_ Hd5] _] & Hrun).
        rewrite Hrun in Hfirst.
        destruct (_ <? _); [destruct (StateTrackerFacts.compaction_reply _ _ _)|];
          injection Hfirst as _ _ <-; cbn; by rewrite Hd5.
Qed.

End WorkerSteps.


Lemma step_dispatches_every_tool_call_witness :
  let run := @Worker.step Sample.pylib Sample.prompts Sample.summarizer_client
               Sample.router_searching Sample.tool_providers Sample.worker
               (WSystem "You are a worker.")
               (StateTracker.set_events (λ _, [EUserMessage "find it"])
                  (WorkerStateTracker.__init__ None),
                set_completions (λ _, 1) empty_world) in
  run.1 = Returned None ∧
  tool_dispatches run.2.2 = [] ++ [Sample.search_call].
Proof.
  intros run. split; [vm_compute; reflexivity|].
  refine (proj1 (@step_dispatches_every_tool_call
                   Sample.pylib Sample.prompts Sample.summarizer_client
                   Sample.router_searching Sample.tool_providers Sample.worker
                   (WSystem "You are a worker.")
                   (StateTracker.set_events (λ _, [EUserMessage "find it"])
                      (WorkerStateTracker.__init__ None))
                   (set_completions (λ _, 1) empty_world)
                   [WUser "find it"]
                   (mkAssistantMessage None (Some [Sample.search_call]) (Some "tool_calls"))
                   _ _ run.1 run.2.1 run.2.2 _ _ _ _ _));
    vm_compute; reflexivity.
Defined.

(** ** The scheduler step: what it takes and what it publishes *)

Section SchedulerBatch.
Context `{PyLib} `{Prompts} `{SummarizerClient} `{ContextQuery}
        `{CompletionRouter} `{UserProfile}.
Import Scheduler.

(** A computation of the scheduler that leaves the event queue as it is,
    however it ends. *)
Definition keeps_event_queue {A} (m : M (t * World) A) : Prop :=
  ∀ a w r a' w', m (a, w) = (r, (a', w')) → event_queue a' = event_queue a.

Lemma keeps_event_queue_pure {A} (m : M (t * World) A) :
  (∀ s, (m s).2.1 = s.1) → keeps_event_queue m.
Proof.
  intros Hm a w r a' w' Hrun. specialize (Hm (a, w)). rewrite Hrun in Hm.
  cbn in Hm. by subst.
Qed.

Lemma keeps_event_queue_bind {A B} (m : M (t * World) A) (f : A → M (t * World) B) :
  keeps_event_queue m → (∀ x, keeps_event_queue (f x)) → keeps_event_queue (m ≫= f).
Proof.
  intros Hm Hf a w r a' w'. unfold mbind, M_bind.
  destruct (m (a, w)) as [[x|e] [a1 w1]] eqn:Em.
  - intros Ef. rewrite (Hf x _ _ _ _ _ Ef). by eapply Hm.
  - intros [= _ <- _]. by eapply Hm.
Qed.

Lemma keeps_event_queue_on_state_tracker {A} (m : M (StateTracker.t * World) A) :
  keeps_event_queue (on_state_tracker m).
Proof.
  intros a w r a' w'. unfold on_state_tracker.
  destruct (m (state_tracker a, w)) as [r0 [st w0]]. by intros [= _ <- _].
Qed.

Lemma keeps_event_queue_for_each {A} (body : A → M (t * World) unit) xs :
  (∀ x, keeps_event_queue (body x)) → keeps_event_queue (for_each body xs).
Proof.
  intros Hbody. induction xs as [|x xs IH]; [apply keeps_event_queue_pure; by intros []|].
  apply keeps_event_queue_bind; [apply Hbody | by intros _].
Qed.

Lemma keeps_event_queue_log_debug event_type data :
  keeps_event_queue (log_debug event_type data).
Proof.
  intros a w r a' w' Hrun. destruct (log_debug_run event_type data a w) as [w1 Hlog].
  rewrite Hlog in Hrun. by injection Hrun as _ <- _.
Qed.

Lemma keeps_event_queue_send_to_user message : keeps_event_queue (send_to_user message).
Proof. apply keeps_event_queue_pure. by intros []. Qed.

Lemma keeps_event_queue_update_state_and_call_llm events :
  keeps_event_queue (update_state_and_call_llm events).
Proof.
  apply keeps_event_queue_bind.
  { apply keeps_event_queue_for_each. intros e. apply keeps_event_queue_on_state_tracker. }
  intros _. apply keeps_event_queue_bind.
  { intros a w r a' w'. unfold profile. destruct (get_user_profile w). by intros [= _ <- _]. }
  intros user_profile. apply keeps_event_queue_bind; [apply keeps_event_queue_pure; by intros []|].
  intros a. apply keeps_event_queue_pure. by intros [].
Qed.

Lemma keeps_event_queue_process_response response :
  keeps_event_queue (process_response response).
Proof.
  unfold process_response. destruct (am_content response) as [content|];
    [|apply keeps_event_queue_pure; by intros []].
  destruct (str_truthy content); [|apply keeps_event_queue_pure; by intros []].
  apply keeps_event_queue_bind; [apply keeps_event_queue_on_state_tracker|]. intros _.
  apply keeps_event_queue_bind; [apply keeps_event_queue_send_to_user|]. intros _.
  apply keeps_event_queue_log_debug.
Qed.

Lemma keeps_event_queue_handle_tool_call tool_call :
  keeps_event_queue (handle_tool_call tool_call).
Proof.
  unfold handle_tool_call. destruct (String.eqb _ _).
  - apply keeps_event_queue_bind.
    { intros a w r a' w'. unfold lift_res. destruct (make_wait _); by intros [= _ <- _]. }
    intros wait_event.
    apply keeps_event_queue_bind; [apply keeps_event_queue_on_state_tracker|]. intros _.
    apply keeps_event_queue_log_debug.
  - apply keeps_event_queue_bind; [apply keeps_event_queue_on_state_tracker|]. intros _.
    by intros a w r a' w' [= _ <- _].
Qed.

Lemma get_batch_events_cons first queue max_batch_size :
  get_batch_events (first :: queue) max_batch_size
  = Collected (take (max_batch_size `max` 1) (first :: queue))
              (drop (max_batch_size `max` 1) (first :: queue)).
Proof.
  unfold get_batch_events. cbn [queue_get]. rewrite drain_take_drop.
  destruct max_batch_size as [|m]; [done|].
  replace (S m `max` 1) with (S m) by lia. cbn. by rewrite Nat.sub_0_r.
Qed.

(** X18. A step takes its batch off the event queue for good: however the
    step ends, by completing or by an exception of the memory, the profile
    service or the provider, the queue afterwards is the queue before without
    its first [max_batch_size] events (without one event when
    [max_batch_size] is 0), and nothing is put back. On an empty queue the
    step is suspended and changes nothing. *)
Theorem step_takes_its_batch_for_good (a : t) (w : World) :
  event_queue (step (a, w)).2.1 = drop (max_batch_size a `max` 1) (event_queue a) ∧
  (event_queue a = [] → step (a, w) = (Returned StepSuspended, (a, w))).
Proof.
  unfold step. rewrite (bind_returned _ _ _ a (a, w)) by done.
  destruct (event_queue a) as [|first queue] eqn:Hq.
  - split; [|done]. rewrite drop_nil. exact Hq.
  - split; [|done]. rewrite get_batch_events_cons.
    set (k := max_batch_size a `max` 1).
    erewrite bind_returned by done.
    set (rest := drop k (first :: queue)).
    set (m := _ ≫= _).
    assert (keeps_event_queue m) as Hkeeps.
    { apply keeps_event_queue_bind; [apply keeps_event_queue_update_state_and_call_llm|].
      intros response.
      apply keeps_event_queue_bind; [apply keeps_event_queue_process_response|]. intros _.
      apply keeps_event_queue_bind; [|intros _; apply keeps_event_queue_pure; by intros []].
      apply keeps_event_queue_for_each. apply keeps_event_queue_handle_tool_call. }
    destruct (m (set_event_queue rest a, w)) as [r [a' w']] eqn:Hrun.
    cbn [snd fst]. by rewrite (Hkeeps _ _ _ _ _ Hrun).
Qed.

(** The identifiers of the published messages and of the debug log differ. *)
Lemma send_to_user_id_not_debug now event_type now' :
  "send_to_user_" +:+ now ≠ "scheduler_debug_" +:+ event_type +:+ "_" +:+ now'.
Proof. cbn. discriminate. Qed.

(** X19. A reply with text is published: when phase 3 of the step completes
    on a reply whose content is a non-empty string, memory has received the
    assistant message with that content and without the tool calls of the
    reply, and the store holds, under the identifier [send_to_user_] followed
    by the time read right after, a record of namespace [send_to_user] with
    that text, which the debug record written afterwards does not replace. A
    reply whose content is [None] or empty publishes and records nothing. *)
Theorem reply_text_is_published (response : AssistantMessage) (a : t) (w : World) :
  (∀ content a' w',
     am_content response = Some content → content ≠ "" →
     process_response response (a, w) = (Returned tt, (a', w')) →
     ∃ st' w1,
       StateTracker.add_event
         (EAssistantMessage (mkAssistantMessage (Some content) None None))
         (state_tracker a, w) = (Returned tt, (st', w1)) ∧
       a' = set_state_tracker st' a ∧
       cs_records w' !! ("send_to_user_" +:+ time_time (clock_reads w1))
       = Some (mkContextRecord (MessageData content) "send_to_user" "user_message" [])) ∧
  (am_content response = None ∨ am_content response = Some "" →
   process_response response (a, w) = (Returned tt, (a, w))).
Proof.
  split.
  - intros content a' w' Hcontent Hne. unfold process_response. rewrite Hcontent.
    assert (str_truthy content = true) as ->.
    { unfold str_truthy. by destruct (String.eqb_spec content ""). }
    intros ([] & [a1 w1] & Hadd & Hrest)%bind_inv.
    unfold on_state_tracker in Hadd.
    destruct (StateTracker.add_event _ (state_tracker a, w)) as [r1 [st' w1']] eqn:Hadd'.
    injection Hadd as -> <- <-.
    exists st', w1'. split; [done|].
    apply bind_inv in Hrest as ([] & [a2 w2] & Hsend & Hlog).
    unfold send_to_user in Hsend.
    erewrite bind_returned in Hsend by done. injection Hsend as <- <-.
    unfold log_debug in Hlog. erewrite bind_returned in Hlog by done.
    destruct (debug_enabled _); cbn [negb] in Hlog.
    + do 2 (erewrite bind_returned in Hlog by done).
      injection Hlog as <- <-. split; [done|]. cbn [cs_records context_store_store set_cs_records set_clock_reads].
      rewrite lookup_insert_ne by (apply not_eq_sym, send_to_user_id_not_debug).
      apply lookup_insert_eq.
    + injection Hlog as <- <-. split; [done|]. cbn. apply lookup_insert_eq.
  - unfold process_response. by intros [-> | ->].
Qed.


End SchedulerBatch.


(** ** The provider adapters *)

Section ModelNames.

Lemma string_length_app (s t : string) :
  String.length (s +:+ t) = String.length s + String.length t.
Proof.
  induction s as [|c s IH]; [done|].
  change (String c s +:+ t) with (String c (s +:+ t)). cbn [String.length]. by rewrite IH.
Qed.

(** A suffix no longer than [t] is looked for in [t] alone. *)
Lemma endswith_app (s t u : string) :
  String.length u ≤ String.length t →
  endswith (s +:+ t) u = endswith t u.
Proof.
  intros Hlen. induction s as [|c s IH]; [done|].
  change (String c s +:+ t) with (String c (s +:+ t)).
  cbn [endswith]. rewrite IH.
  destruct (String.eqb_spec (String c (s +:+ t)) u) as [Heq|_]; [|done].
  apply (f_equal String.length) in Heq. cbn [String.length] in Heq.
  rewrite string_length_app in Heq. lia.
Qed.

Lemma latest_not_alias (model : string) :
  AnthropicClient.mapping !! (model +:+ "-latest") = None.
Proof.
  destruct (AnthropicClient.mapping !! (model +:+ "-latest")) as [name|] eqn:E; [|done].
  assert (endswith (model +:+ "-latest") "-direct" = false) as Hends.
  { rewrite endswith_app by (cbn; lia). vm_compute. reflexivity. }
  apply (elem_of_list_to_map_2 (M := gmap string)) in E.
  repeat (apply elem_of_cons in E as [[= Hk _]|E];
          [rewrite Hk in Hends; vm_compute in Hends; discriminate|]).
  by apply elem_of_nil in E.
Qed.

(** The family aliases that [_normalize_model_name] completes. *)
Definition bare_alias (model : string) : bool :=
  endswith model "-sonnet"
  || endswith model "-haiku"
  || endswith model "-opus".

Lemma latest_not_bare (model : string) : bare_alias (model +:+ "-latest") = false.
Proof.
  unfold bare_alias. rewrite !endswith_app by (cbn; lia). vm_compute. reflexivity.
Qed.

Lemma normalized_not_bare (model : string) :
  bare_alias (AnthropicClient._normalize_model_name model) = false.
Proof.
  unfold AnthropicClient._normalize_model_name.
  destruct (AnthropicClient.mapping !! model) as [name|] eqn:E.
  - apply (elem_of_list_to_map_2 (M := gmap string)) in E.
    repeat (apply elem_of_cons in E as [[= _ ->]|E]; [vm_compute; reflexivity|]).
    by apply elem_of_nil in E.
  - destruct (endswith model "-sonnet") eqn:E1; [apply latest_not_bare|].
    destruct (endswith model "-haiku") eqn:E2; [apply latest_not_bare|].
    destruct (endswith model "-opus") eqn:E3; [apply latest_not_bare|].
    unfold bare_alias. by rewrite E1, E2, E3.
Qed.

Lemma normalize_fixed (model : string) :
  AnthropicClient.mapping !! model = None → bare_alias model = false →
  AnthropicClient._normalize_model_name model = model.
Proof.
  intros Hmap Hbare. unfold AnthropicClient._normalize_model_name. rewrite Hmap.
  unfold bare_alias in Hbare.
  destruct (endswith model "-sonnet"); [done|].
  destruct (endswith model "-haiku"); [done|].
  by destruct (endswith model "-opus").
Qed.

(** X21. The model name sent to Anthropic never ends in a bare family alias
    ([-sonnet], [-haiku], [-opus]), whatever name the caller gave, and a name
    already normalised is sent as it is: [_normalize_model_name] is
    idempotent. The model name conversion of the Bedrock adapter is
    idempotent as well. *)
Theorem model_name_conversions_are_idempotent (model : string) :
  bare_alias (AnthropicClient._normalize_model_name model) = false ∧
  AnthropicClient._normalize_model_name (AnthropicClient._normalize_model_name model)
  = AnthropicClient._normalize_model_name model ∧
  BedrockClient._convert_model_name (BedrockClient._convert_model_name model)
  = BedrockClient._convert_model_name model.
Proof.
  split; [apply normalized_not_bare|]. split.
  - apply normalize_fixed; [|apply normalized_not_bare].
    unfold AnthropicClient._normalize_model_name.
    destruct (AnthropicClient.mapping !! model) as [name|] eqn:E.
    + apply (elem_of_list_to_map_2 (M := gmap string)) in E.
      repeat (apply elem_of_cons in E as [[= _ ->]|E]; [vm_compute; reflexivity|]).
      by apply elem_of_nil in E.
    + destruct (endswith model "-sonnet"); [apply latest_not_alias|].
      destruct (endswith model "-haiku"); [apply latest_not_alias|].
      destruct (endswith model "-opus"); [apply latest_not_alias|done].
  - unfold BedrockClient._convert_model_name.
    destruct (BedrockClient.model_mapping !! model) as [name|] eqn:E; cbn [default].
    + apply (elem_of_list_to_map_2 (M := gmap string)) in E.
      repeat (apply elem_of_cons in E as [[= _ ->]|E]; [vm_compute; reflexivity|]).
      by apply elem_of_nil in E.
    + by rewrite E.
Qed.

End ModelNames.

Section ToolsToProviders.
Import ToolManager.

(** The Anthropic form of an offered tool. *)
Definition anthropic_tool (tool : OpenAITool) : pyval :=
  PDict [("name", PStr (fn_name tool));
         ("description", PStr (fn_description tool));
         ("input_schema", fn_parameters tool)].

(** The Bedrock form of an offered tool. *)
Definition bedrock_tool (tool : OpenAITool) : pyval :=
  PDict [("toolSpec",
          PDict [("name", PStr (fn_name tool));
                 ("description", PStr (fn_description tool));
                 ("inputSchema", PDict [("json", fn_parameters tool)])])].

Lemma converted_tools_offered (tools : list OpenAITool) :
  AnthropicClient.converted_tools (map to_openai_dict tools)
  = Returned (map anthropic_tool tools).
Proof.
  induction tools as [|tool tools IH]; [done|].
  cbn [map AnthropicClient.converted_tools]. unfold to_openai_dict at 1. cbn.
  rewrite IH. done.
Qed.

Lemma bedrock_tools_offered (tools : list OpenAITool) :
  BedrockClient._convert_tools_to_bedrock (map to_openai_dict tools)
  = Ok (map bedrock_tool tools).
Proof.
  induction tools as [|tool tools IH]; [done|].
  cbn [map BedrockClient._convert_tools_to_bedrock]. unfold to_openai_dict at 1. cbn.
  rewrite IH. done.
Qed.

(** X22. Every tool the tool manager offers reaches both providers: the
    conversions of the Anthropic and of the Bedrock adapter keep each tool
    of [_convert_mcp_to_openai_tools], in order, under the same name and with
    the same description and schema, and neither raises; an empty offer is
    sent as no tools at all. *)
Theorem offered_tools_reach_both_providers (tools : list OpenAITool) :
  AnthropicClient._convert_openai_tools_to_anthropic (Some (map to_openai_dict tools))
  = Returned (match tools with [] => None | _ => Some (map anthropic_tool tools) end) ∧
  BedrockClient._convert_tools_to_bedrock (map to_openai_dict tools)
  = Ok (map bedrock_tool tools) ∧
  BedrockClient.tool_config (Some (map to_openai_dict tools))
  = Ok (match tools with [] => None | _ => Some (map bedrock_tool tools) end).
Proof.
  split; [|split; [apply bedrock_tools_offered|]].
  - destruct tools as [|tool tools]; [done|].
    pose proof (converted_tools_offered (tool :: tools)) as Hconv.
    unfold AnthropicClient._convert_openai_tools_to_anthropic.
    cbn [map] in Hconv |- *. rewrite Hconv. done.
  - destruct tools as [|tool tools]; [done|].
    pose proof (bedrock_tools_offered (tool :: tools)) as Hconv.
    unfold BedrockClient.tool_config.
    cbn [map] in Hconv |- *. rewrite Hconv. done.
Qed.

End ToolsToProviders.

Section BedrockMessages.
Context `{PyLib}.
Import BedrockClient.

Lemma convert_message_assistant_role content tool_calls message :
  convert_message (WAssistant content tool_calls) = Ok (Some message) →
  role message = "assistant".
Proof.
  cbn [convert_message].
  destruct (match tool_calls with Some (tc :: tcs) => tool_uses (tc :: tcs) | _ => Ok [] end)
    as [uses|e]; [|discriminate].
  by intros [= <-].
Qed.

(** X23. The system prompt reaches Bedrock only inside a leading user
    message that has text. With a non-empty system message in front: when
    the next message is a user message with text, the prompt and a blank
    line are put before that text; when it is a user message with empty
    content the conversion raises IndexError; when it is an assistant
    message the request is the conversion of the other messages alone, the
    prompt appears nowhere; and when it is a tool result the prompt is added
    to the tool-result block as a [text] key. *)
Theorem bedrock_system_prompt_needs_leading_user_text
    (system_content : string) (rest : list Msg) (converted : list Message) :
  system_content ≠ "" →
  convert_messages rest = Ok converted →
  (∀ content, content ≠ "" →
     _convert_messages_to_bedrock (WSystem system_content :: WUser content :: rest)
     = Ok (mkMessage "user"
             [mkBlock (Some (system_content +:+ nl +:+ nl +:+ content)) None None]
           :: converted)) ∧
  _convert_messages_to_bedrock (WSystem system_content :: WUser "" :: rest)
  = Raise (IndexError "list index out of range") ∧
  (∀ content tool_calls message,
     convert_message (WAssistant content tool_calls) = Ok (Some message) →
     _convert_messages_to_bedrock (WSystem system_content :: WAssistant content tool_calls :: rest)
     = Ok (message :: converted)) ∧
  (∀ tool_call_id content,
     _convert_messages_to_bedrock (WSystem system_content :: WTool tool_call_id content :: rest)
     = Ok (mkMessage "user"
             [mkBlock (Some (system_content +:+ nl +:+ nl +:+ "")) None
                      (Some (mkToolResult tool_call_id content))]
           :: converted)).
Proof.
  intros Hsystem Hrest.
  assert (str_truthy system_content = true) as Htruthy.
  { unfold str_truthy. by destruct (String.eqb_spec system_content ""). }
  split; [|split; [|split]].
  - intros content Hcontent.
    assert (str_truthy content = true) as Hc.
    { unfold str_truthy. by destruct (String.eqb_spec content ""). }
    unfold _convert_messages_to_bedrock.
    cbn [convert_messages convert_message first_system mbind Result_bind].
    rewrite Hrest, Hc. cbn. by rewrite Htruthy.
  - unfold _convert_messages_to_bedrock.
    cbn [convert_messages convert_message first_system mbind Result_bind].
    rewrite Hrest. cbn. by rewrite Htruthy.
  - intros content tool_calls message Hmsg.
    pose proof (convert_message_assistant_role _ _ _ Hmsg) as Hrole.
    unfold _convert_messages_to_bedrock.
    cbn [convert_messages first_system mbind Result_bind].
    change (convert_message (WSystem system_content)) with (@Ok error _ (@None Message)).
    cbv beta iota. rewrite Hmsg. cbn [mbind Result_bind]. rewrite Hrest.
    cbn [mbind Result_bind]. rewrite Hrole. cbn. by rewrite andb_false_r.
  - intros tool_call_id content.
    unfold _convert_messages_to_bedrock.
    cbn [convert_messages convert_message first_system mbind Result_bind].
    rewrite Hrest. cbn. by rewrite Htruthy.
Qed.

Lemma tool_uses_malformed (tool_calls : list FunctionCall) (tc : FunctionCall) :
  tc ∈ tool_calls → json_loads (fc_arguments tc) = None →
  ∃ doc, tool_uses tool_calls = Raise (JSONDecodeError doc).
Proof.
  intros Hin Hbad. induction tool_calls as [|tc' tcs IH]; [by apply elem_of_nil in Hin|].
  cbn [tool_uses]. destruct (json_loads (fc_arguments tc')) as [input|] eqn:Hload.
  - apply elem_of_cons in Hin as [->|Hin]; [congruence|].
    destruct (IH Hin) as [doc ->]. by exists doc.
  - by eexists.
Qed.

Lemma convert_messages_raises (before after : list Msg) (msg : Msg) e :
  convert_message msg = Raise e →
  ∃ e', convert_messages (before ++ msg :: after) = Raise e'.
Proof.
  intros Hmsg. induction before as [|m before [e' IH]].
  - cbn [app convert_messages]. rewrite Hmsg. by eexists.
  - cbn [app convert_messages]. rewrite IH.
    destruct (convert_message m); by eexists.
Qed.

Lemma elem_of_map_image {A B} (f : A → B) (l : list A) (x : A) :
  x ∈ l → f x ∈ map f l.
Proof.
  induction l as [|y l IH]; [by intros ?%elem_of_nil|].
  intros [->|Hin]%elem_of_cons; cbn [map]; apply elem_of_cons; [by left|right; by apply IH].
Qed.

(** The messages prepared for Anthropic only grow. *)
Lemma prepare_message_keeps acc msg m :
  m ∈ acc.2 → m ∈ (AnthropicClient.prepare_message acc msg).2.
Proof.
  destruct acc as [system_text simple_messages]. intros Hin.
  destruct msg; cbn; try done; apply elem_of_app; by left.
Qed.

Lemma prepare_messages_keeps messages acc m :
  m ∈ acc.2 → m ∈ (foldl AnthropicClient.prepare_message acc messages).2.
Proof.
  revert acc. induction messages as [|msg messages IH]; intros acc Hin; [done|].
  cbn [foldl]. by apply IH, prepare_message_keeps.
Qed.

(** X24. A history that holds an assistant message with a tool call whose
    arguments are not JSON cannot be sent to Bedrock: its conversion raises,
    the [json.loads] of the arguments being unguarded. The Anthropic adapter
    sends the same history, with that call as a [tool_use] block of its
    identifier and name and the input [{}]. *)
Theorem malformed_arguments_stop_bedrock_not_anthropic
    (before after : list Msg) (content : option string)
    (tool_calls : list FunctionCall) (tc : FunctionCall) :
  tc ∈ tool_calls → json_loads (fc_arguments tc) = None →
  let messages := before ++ WAssistant content (Some tool_calls) :: after in
  (∃ e, _convert_messages_to_bedrock messages = Raise e) ∧
  (∃ blocks,
     AnthropicClient.mkMessage (Some "assistant") (AnthropicClient.Blocks blocks)
       ∈ (AnthropicClient.prepare_messages messages).2 ∧
     AnthropicClient.ToolUse (fc_id tc) (fc_name tc) (PDict []) ∈ blocks).
Proof.
  intros Hin Hbad messages. split.
  - destruct (tool_uses_malformed tool_calls tc Hin Hbad) as [doc Huses].
    assert (convert_message (WAssistant content (Some tool_calls))
            = Raise (JSONDecodeError doc)) as Hmsg.
    { cbn [convert_message]. destruct tool_calls as [|tc' tcs]; [by apply elem_of_nil in Hin|].
      by rewrite Huses. }
    destruct (convert_messages_raises before after _ _ Hmsg) as [e He].
    exists e. unfold _convert_messages_to_bedrock, messages. by rewrite He.
  - unfold messages, AnthropicClient.prepare_messages. rewrite foldl_app. cbn [foldl].
    destruct (foldl AnthropicClient.prepare_message (None, []) before)
      as [system_text simple_messages].
    cbn [AnthropicClient.prepare_message default].
    set (blocks := (if opt_truthy content then _ else _) ++ _).
    assert (AnthropicClient.ToolUse (fc_id tc) (fc_name tc) (PDict []) ∈ blocks) as Hblock.
    { apply elem_of_app. right.
      replace (AnthropicClient.ToolUse (fc_id tc) (fc_name tc) (PDict []))
        with (AnthropicClient.tool_use_block tc)
        by (unfold AnthropicClient.tool_use_block; by rewrite Hbad).
      by apply elem_of_map_image. }
    exists blocks. split; [|done].
    apply prepare_messages_keeps. cbn [snd]. apply elem_of_app. right.
    destruct blocks; [by apply elem_of_nil in Hblock|]. by apply list_elem_of_singleton.
Qed.

(** The tool uses among the content items of a Bedrock response: an item
    with a [text] key counts as text. *)
Definition response_tool_uses (response_content : list ContentItem) : list ResponseToolUse :=
  omap (λ content_item,
          match item_text content_item with
          | Some _ => None
          | None => item_toolUse content_item
          end) response_content.

(** The block in which a tool use is sent back. *)
Definition sent_back (tool_use : ResponseToolUse) : Block :=
  mkBlock None
    (Some (mkToolUse (ru_id tool_use) (ru_name tool_use)
             (default (PDict []) (ru_input tool_use))))
    None.

Lemma omap_cons {A B} (f : A → option B) (x : A) (l : list A) :
  omap f (x :: l) = match f x with Some y => y :: omap f l | None => omap f l end.
Proof. reflexivity. Qed.

Lemma assistant_message_tool_calls response_content stop_reason :
  am_tool_calls (assistant_message response_content stop_reason)
  = Some (map (λ tool_use,
                 mkToolCall (ru_id tool_use) (ru_name tool_use)
                   (json_dumps (default (PDict []) (ru_input tool_use))))
              (response_tool_uses response_content)).
Proof.
  unfold assistant_message, response_tool_uses. cbn [am_tool_calls]. f_equal.
  induction response_content as [|content_item items IH]; [done|].
  rewrite !omap_cons. cbv beta. destruct (item_text content_item); [exact IH|].
  destruct (item_toolUse content_item) as [tool_use|]; cbn [mbind option_bind];
    [|exact IH].
  cbn [map fc_id fc_name fc_arguments]. by rewrite IH.
Qed.

Lemma tool_uses_sent_back (uses : list ResponseToolUse) :
  (∀ tool_use, tool_use ∈ uses →
     json_loads (json_dumps (default (PDict []) (ru_input tool_use)))
     = Some (default (PDict []) (ru_input tool_use))) →
  tool_uses (map (λ tool_use,
                    WorkerStateTracker.tool_call_to_openai
                      (mkToolCall (ru_id tool_use) (ru_name tool_use)
                         (json_dumps (default (PDict []) (ru_input tool_use))))) uses)
  = Ok (map sent_back uses).
Proof.
  intros Hjson. induction uses as [|tool_use uses IH]; [done|].
  cbn [map tool_uses WorkerStateTracker.tool_call_to_openai
       tc_id tc_name tc_arguments fc_id fc_name fc_arguments].
  rewrite (Hjson tool_use) by (by left). cbn [mbind Result_bind].
  rewrite IH by (intros tu Htu; apply Hjson; by right). done.
Qed.

(** X25. The tool calls of a Bedrock reply survive the round trip through
    the worker's history: when [json.loads] undoes [json.dumps] on the inputs
    of the reply's tool uses, the reply recorded as an assistant event,
    rendered by [_to_openai_format] and converted for the next request is an
    assistant message whose tool-use blocks are those of the reply, with the
    same identifiers, names and inputs (the input [{}] where the reply had
    none), in order, after at most one text block. *)
Theorem bedrock_tool_calls_round_trip
    (response_content : list ContentItem) (stop_reason : option string) :
  (∀ tool_use, tool_use ∈ response_tool_uses response_content →
     json_loads (json_dumps (default (PDict []) (ru_input tool_use)))
     = Some (default (PDict []) (ru_input tool_use))) →
  ∃ msg texts,
    WorkerStateTracker._to_openai_format
      (EAssistantMessage (assistant_message response_content stop_reason)) = Returned msg ∧
    convert_message msg
    = Ok (Some (mkMessage "assistant"
                  (texts ++ map sent_back (response_tool_uses response_content)))) ∧
    length texts ≤ 1 ∧
    Forall (λ block, toolUse block = None ∧ toolResult block = None) texts.
Proof.
  intros Hjson.
  set (am := assistant_message response_content stop_reason).
  exists (WAssistant (am_content am)
            (match am_tool_calls am with
             | Some (tc :: tcs) => Some (map WorkerStateTracker.tool_call_to_openai (tc :: tcs))
             | _ => None
             end)),
         (if opt_truthy (am_content am)
          then [mkBlock (Some (default "" (am_content am))) None None] else []).
  split; [reflexivity|]. split; [|split].
  - cbn [convert_message]. unfold am at 2 3. rewrite assistant_message_tool_calls.
    pose proof (tool_uses_sent_back _ Hjson) as Hsent.
    destruct (response_tool_uses response_content) as [|tool_use uses]; [done|].
    cbn [map] in Hsent |- *. rewrite map_map. rewrite Hsent. done.
  - destruct (opt_truthy (am_content am)); cbn; lia.
  - destruct (opt_truthy (am_content am)); repeat constructor.
Qed.

(** X26. Of the text a provider returns, the Bedrock adapter keeps the last
    text item only and reports the empty string when there is none, while
    the Anthropic adapter joins all text blocks and reports [None] when the
    joined text is empty. *)
Theorem reply_text_last_item_or_all_blocks
    (response_content : list ContentItem) (blocks : list AnthropicClient.ResponseBlock)
    (stop_reason : option string) :
  am_content (assistant_message response_content stop_reason)
  = Some (default "" (last (omap item_text response_content))) ∧
  am_content (AnthropicClient.assistant_message blocks stop_reason)
  = (let joined :=
       String.concat ""
         (omap (λ block, match block with
                         | AnthropicClient.RText value => Some (default "" value)
                         | AnthropicClient.RToolUse _ _ _ => None
                         end) blocks) in
     if str_truthy joined then Some joined else None).
Proof.
  split.
  - unfold assistant_message. cbn [am_content]. f_equal.
    induction response_content as [|content_item items IH] using rev_ind; [done|].
    rewrite foldl_snoc, omap_app, omap_cons.
    change (omap item_text []) with (@nil string).
    destruct (item_text content_item) as [value|]; cbn [default].
    + by rewrite last_snoc.
    + rewrite app_nil_r. exact IH.
  - unfold AnthropicClient.assistant_message. cbv zeta. cbn [am_content].
    assert (∀ start,
              foldl (λ text block,
                       match block with
                       | AnthropicClient.RText value => text +:+ default "" value
                       | AnthropicClient.RToolUse _ _ _ => text
                       end) start blocks
              = start +:+ String.concat ""
                  (omap (λ block, match block with
                                  | AnthropicClient.RText value => Some (default "" value)
                                  | AnthropicClient.RToolUse _ _ _ => None
                                  end) blocks)) as Hfold.
    { induction blocks as [|block blocks IH]; intros start.
      - cbn [foldl]. change (omap _ []) with (@nil string).
        cbn [String.concat]. by rewrite string_app_nil_r.
      - cbn [foldl]. rewrite omap_cons. destruct block as [value|id name input].
        + by rewrite IH, concat_empty_cons, string_app_assoc.
        + apply IH. }
    rewrite Hfold. reflexivity.
Qed.

End BedrockMessages.

Lemma bedrock_system_prompt_needs_leading_user_text_witness :
  @BedrockClient._convert_messages_to_bedrock Sample.pylib
    [WSystem "You are a worker."; WUser "find it"]
  = Ok
      [BedrockClient.mkMessage "user"
         [BedrockClient.mkBlock (Some ("You are a worker." +:+ nl +:+ nl +:+ "find it"))
            None None]] ∧
  @BedrockClient._convert_messages_to_bedrock Sample.pylib
    [WSystem "You are a worker."; WUser ""]
  = Raise (BedrockClient.IndexError "list index out of range") ∧
  @BedrockClient._convert_messages_to_bedrock Sample.pylib
    [WSystem "You are a worker."; WAssistant (Some "Working on it") None]
  = Ok
      [BedrockClient.mkMessage "assistant"
         [BedrockClient.mkBlock (Some "Working on it") None None]].
Proof.
  destruct (@bedrock_system_prompt_needs_leading_user_text Sample.pylib
              "You are a worker." [] [] ltac:(discriminate) eq_refl)
    as (Huser & Hempty & Hassistant & _).
  split; [apply (Huser "find it"); discriminate|].
  split; [exact Hempty|].
  apply Hassistant. reflexivity.
Defined.

Lemma malformed_arguments_stop_bedrock_not_anthropic_witness :
  let broken := mkFunctionCall "call_7" "docs__search" "{oops" in
  let messages :=
    [WUser "find it"] ++ WAssistant None (Some [broken])
      :: [WTool "call_7" (PStr "Invalid JSON arguments")] in
  (∃ e, @BedrockClient._convert_messages_to_bedrock Sample.pylib messages
        = Raise e) ∧
  (∃ blocks,
     AnthropicClient.mkMessage (Some "assistant") (AnthropicClient.Blocks blocks)
       ∈ (@AnthropicClient.prepare_messages Sample.pylib messages).2 ∧
     AnthropicClient.ToolUse "call_7" "docs__search" (PDict []) ∈ blocks).
Proof.
  intros broken messages.
  apply (@malformed_arguments_stop_bedrock_not_anthropic Sample.pylib
           [WUser "find it"] [WTool "call_7" (PStr "Invalid JSON arguments")] None
           [broken] broken).
  - apply elem_of_cons. by left.
  - reflexivity.
Defined.

Lemma bedrock_tool_calls_round_trip_witness :
  let response_content :=
    [BedrockClient.mkContentItem (Some "Searching") None;
     BedrockClient.mkContentItem None
       (Some (BedrockClient.mkResponseToolUse "tu_1" "docs__search" (Some (PDict []))))] in
  ∃ msg texts,
    WorkerStateTracker._to_openai_format
      (EAssistantMessage
         (@BedrockClient.assistant_message Sample.pylib response_content (Some "tool_use")))
    = Returned msg ∧
    @BedrockClient.convert_message Sample.pylib msg
    = Ok
        (Some (BedrockClient.mkMessage "assistant"
                 (texts ++ map sent_back (response_tool_uses response_content)))) ∧
    length texts ≤ 1 ∧
    Forall (λ block, BedrockClient.toolUse block = None
                     ∧ BedrockClient.toolResult block = None) texts.
Proof.
  intros response_content.
  apply (@bedrock_tool_calls_round_trip Sample.pylib response_content (Some "tool_use")).
  intros tool_use Hin. apply list_elem_of_singleton in Hin as ->. reflexivity.
Defined.

(** ** The workflow agent *)

Section WorkflowFacts.
Context `{PyLib} `{WorkflowPrompts} `{CompletionRouter} `{ToolManager.ToolProviders}.
Import Workflow.

(** A history is answered when every assistant message is followed by the
    results of exactly the tool calls it carries, in their order, and no tool
    result stands elsewhere: the form in which a chat history can be sent.
    [expected] holds the identifiers still to be answered. *)
Fixpoint answers (expected : list string) (messages : list Msg) : bool :=
  match messages with
  | [] => match expected with [] => true | _ => false end
  | WTool tool_call_id _ :: rest =>
      match expected with
      | id :: expected' => String.eqb tool_call_id id && answers expected' rest
      | [] => false
      end
  | WAssistant _ tool_calls :: rest =>
      match expected with
      | [] => answers (map fc_id (default [] tool_calls)) rest
      | _ => false
      end
  | _ :: rest =>
      match expected with
      | [] => answers [] rest
      | _ => false
      end
  end.

Definition answered (messages : list Msg) : bool := answers [] messages.

Lemma answers_app expected messages suffix :
  answers expected messages = true → answered suffix = true →
  answers expected (messages ++ suffix) = true.
Proof.
  intros Hm Hs. revert expected Hm.
  induction messages as [|msg messages IH]; intros expected Hm.
  - destruct expected; [exact Hs|discriminate].
  - destruct msg; cbn [app answers] in Hm |- *; destruct expected; try discriminate;
      try (by apply IH).
    apply andb_true_iff in Hm as [-> Hm]. by apply IH.
Qed.

Lemma answers_results (results : list ToolCallResult) :
  answers (map tr_id results) (map (λ tr, WTool (tr_id tr) (tr_result tr)) results) = true.
Proof.
  induction results as [|tr results IH]; [done|].
  cbn [map answers]. by rewrite String.eqb_refl.
Qed.

Lemma call_openai_tool_id (tm : ToolManager.t) (tc : ToolCall) seconds result :
  ToolManager.call_openai_tool tm tc = (seconds, Returned result) → tr_id result = tc_id tc.
Proof.
  unfold ToolManager.call_openai_tool.
  destruct (ToolManager.openai_dispatch tm) as [dispatch|]; [|discriminate].
  destruct (dispatch !! tc_name tc) as [[server_name tool_name]|]; [|by intros [= _ <-]].
  destruct (ToolManager.call _ _ _ _) as [s [r|e]]; [by intros [= _ <-]|discriminate].
Qed.

Lemma gathered_ids (tm : ToolManager.t) (tasks : list ToolCall) results :
  Worker.first_raise (map (λ tc, snd (ToolManager.call_openai_tool tm tc)) tasks)
  = Returned results →
  map tr_id results = map tc_id tasks.
Proof.
  revert results. induction tasks as [|tc tasks IH]; intros results.
  - by intros [= <-].
  - cbn [map Worker.first_raise].
    destruct (ToolManager.call_openai_tool tm tc) as [seconds [result|e]] eqn:Hcall;
      cbn [snd mbind Res_bind]; [|discriminate].
    destruct (Worker.first_raise _) as [rest|e]; cbn [mbind Res_bind]; [|discriminate].
    intros [= <-]. cbn [map]. by rewrite (call_openai_tool_id _ _ _ _ Hcall), (IH rest).
Qed.

Lemma collect_tool_calls_tasks tool_calls tool_call_tasks tasks :
  collect_tool_calls tool_calls tool_call_tasks = Returned (inl tasks) →
  tasks = tool_call_tasks ++ tool_calls.
Proof.
  revert tool_call_tasks. induction tool_calls as [|tc tcs IH]; intros tool_call_tasks.
  - intros [= <-]. by rewrite app_nil_r.
  - cbn [collect_tool_calls]. destruct (String.eqb _ _).
    + destruct (workflow_output _); discriminate.
    + intros Hrest. rewrite (IH _ Hrest), <- app_assoc. done.
Qed.

Lemma for_each_append (results : list ToolCallResult) messages w :
  for_each (λ tr, append (WTool (tr_id tr) (tr_result tr))) results (messages, w)
  = (Returned tt,
     (messages ++ map (λ tr, WTool (tr_id tr) (tr_result tr)) results, w)).
Proof.
  revert messages. induction results as [|tr results IH]; intros messages.
  - cbn. by rewrite app_nil_r.
  - rewrite for_each_cons. erewrite bind_returned by reflexivity.
    rewrite IH, <- app_assoc. done.
Qed.

(** What a step that lets the loop go on has appended: the reply with its
    tool calls, then the results of these calls. *)
Lemma step_continues (self : t) messages w messages' w' :
  step self (messages, w) = (Returned None, (messages', w')) →
  ∃ content (tool_calls : list ToolCall) (results : list ToolCallResult),
    messages' = messages
                ++ WAssistant content
                     (Some (map WorkerStateTracker.tool_call_to_openai tool_calls))
                   :: map (λ tr, WTool (tr_id tr) (tr_result tr)) results ∧
    map tr_id results = map tc_id tool_calls.
Proof.
  unfold step. intros Hrun.
  apply bind_inv in Hrun as ([ms w0] & s1 & Hget & Hrun). injection Hget as <- <- <-.
  apply bind_inv in Hrun as (reply & s1 & Hreply & Hrun).
  unfold complete in Hreply. injection Hreply as Hreply <-.
  apply bind_inv in Hrun as (calls & s1 & Hcalls & Hrun).
  unfold lift_res in Hcalls. injection Hcalls as Hcalls <-.
  destruct (am_tool_calls reply) as [tool_calls|] eqn:Htcs; [|discriminate].
  injection Hcalls as <-.
  apply bind_inv in Hrun as ([] & s1 & Happend & Hrun). injection Happend as <-.
  unfold requested_tool_calls in Hrun. rewrite Htcs in Hrun. cbn [default] in Hrun.
  destruct tool_calls as [|tc tcs].
  - injection Hrun as <- <-. exists (am_content reply), [], []. done.
  - apply bind_inv in Hrun as (collected & s1 & Hcollect & Hrun).
    unfold lift_res in Hcollect. injection Hcollect as Hcollect <-.
    destruct collected as [tasks|output]; [|by injection Hrun].
    apply (collect_tool_calls_tasks (tc :: tcs) []) in Hcollect.
    cbn [app] in Hcollect. subst tasks.
    apply bind_inv in Hrun as (results & s1 & Hgather & Hrun).
    unfold gather in Hgather. injection Hgather as Hgather <-.
    apply bind_inv in Hrun as ([] & s1 & Hfor & Hrun).
    rewrite for_each_append in Hfor. injection Hfor as <-.
    injection Hrun as <- <-. exists (am_content reply), (tc :: tcs), results.
    split; [by rewrite <- app_assoc|]. exact (gathered_ids (tool_manager self) (tc :: tcs) results Hgather).
Qed.

(** The histories from which the loop requests a completion: the one it
    starts with, and the one a step leaves when the loop goes on. *)
Inductive continues (self : t) : list Msg * World → list Msg * World → Prop :=
  | continues_here s : continues self s s
  | continues_step s s' s'' :
      step self s = (Returned None, s') → continues self s' s'' → continues self s s''.

Lemma continues_answered (self : t) s s' :
  continues self s s' → answered s.1 = true → answered s'.1 = true.
Proof.
  induction 1 as [s|[messages w] [messages1 w1] s'' Hstep _ IH]; [done|].
  intros Hs. apply IH. cbn [fst] in Hs |- *.
  apply step_continues in Hstep as (content & tool_calls & results & -> & Hids).
  apply answers_app; [exact Hs|].
  unfold answered. cbn [answers default id].
  assert (map fc_id (map WorkerStateTracker.tool_call_to_openai tool_calls)
          = map tc_id tool_calls) as -> by (by rewrite map_map).
  rewrite <- Hids. apply answers_results.
Qed.

(** X27. The workflow agent keeps its chat history answered: in the history
    [execute] starts with and in every history a step leaves when the loop
    goes on, each assistant message is followed by the results of exactly the
    tool calls it carries, with their identifiers and in their order, and no
    tool result stands anywhere else. *)
Theorem workflow_history_stays_answered (self : t) (task output_format : string)
    (w : World) (messages : list Msg) (w' : World) :
  continues self
    ([WSystem (workflow_system_prompt task output_format);
      WUser "Execute the workflow as specified in your task definition."], w)
    (messages, w') →
  answered messages = true.
Proof.
  intros Hsteps. by apply (continues_answered _ _ _ Hsteps).
Qed.

(** A computation of the workflow agent that requests at most [k]
    completions, however it ends. *)
Definition asks_at_most {A} (k : nat) (m : M (list Msg * World) A) : Prop :=
  ∀ messages w r messages' w', m (messages, w) = (r, (messages', w')) →
    completions w' ≤ completions w + k.

Lemma asks_at_most_bind {A B} k1 k2 (m : M (list Msg * World) A)
    (f : A → M (list Msg * World) B) :
  asks_at_most k1 m → (∀ x, asks_at_most k2 (f x)) → asks_at_most (k1 + k2) (m ≫= f).
Proof.
  intros Hm Hf messages w r messages' w'. unfold mbind, M_bind.
  destruct (m (messages, w)) as [[x|e] [messages1 w1]] eqn:Em;
    specialize (Hm _ _ _ _ _ Em).
  - intros Ef. specialize (Hf x _ _ _ _ _ Ef). lia.
  - intros [= _ _ <-]. lia.
Qed.

Lemma asks_none {A} (m : M (list Msg * World) A) :
  (∀ s, completions (m s).2.2 = completions s.2) → asks_at_most 0 m.
Proof.
  intros Hm messages w r messages' w' Hrun. specialize (Hm (messages, w)).
  rewrite Hrun in Hm. cbn in Hm. lia.
Qed.

Lemma asks_none_for_each {A} (body : A → M (list Msg * World) unit) xs :
  (∀ x, asks_at_most 0 (body x)) → asks_at_most 0 (for_each body xs).
Proof.
  intros Hbody. induction xs as [|x xs IH]; [apply asks_none; by intros []|].
  apply (asks_at_most_bind 0 0); [apply Hbody|by intros _].
Qed.

Lemma asks_one_step (self : t) : asks_at_most 1 (step self).
Proof.
  unfold step.
  apply (asks_at_most_bind 0 1); [apply asks_none; by intros []|]. intros [messages w0].
  apply (asks_at_most_bind 1 0).
  { intros ms w r ms' w'. unfold complete. intros [= _ _ <-]. cbn. unfold Nat.succ. lia. }
  intros reply.
  apply (asks_at_most_bind 0 0); [apply asks_none; by intros []|]. intros tool_calls.
  apply (asks_at_most_bind 0 0); [apply asks_none; by intros []|]. intros _.
  destruct (requested_tool_calls reply) as [|tc tcs]; [apply asks_none; by intros []|].
  apply (asks_at_most_bind 0 0); [apply asks_none; by intros []|].
  intros [[|task tasks]|output]; try (apply asks_none; by intros []).
  apply (asks_at_most_bind 0 0); [apply asks_none; by intros []|]. intros results.
  apply (asks_at_most_bind 0 0); [|intros _; apply asks_none; by intros []].
  apply asks_none_for_each. intros tr. apply asks_none. by intros [].
Qed.

Lemma asks_steps_loop (self : t) remaining :
  asks_at_most remaining (steps_loop self remaining).
Proof.
  induction remaining as [|remaining IH].
  - apply asks_none. by intros [].
  - cbn [steps_loop]. apply (asks_at_most_bind 1 remaining); [apply asks_one_step|].
    intros [output|]; [|exact IH].
    intros messages w r messages' w' [= _ _ <-]. lia.
Qed.

(** X28. [WorkflowAgent.execute] requests at most [max_steps] completions,
    however it ends. When the loop runs out of steps the call returns, and
    what it returns is never empty: the content of the last assistant
    message when that is a non-empty string, and the text
    [Workflow failed to complete within step limit.] otherwise. *)
Theorem execute_stops_at_max_steps_with_text (self : t) (task output_format : string)
    (w : World) :
  completions (execute self task output_format w).2.2 ≤ completions w + max_steps self ∧
  (∀ messages w0,
     ∃ text, steps_loop self 0 (messages, w0) = (Returned (PStr text), (messages, w0)) ∧
             text ≠ "" ∧
             (text = "Workflow failed to complete within step limit." ∨
              last_assistant (reverse messages) = Some text)).
Proof.
  split.
  - unfold execute.
    destruct (steps_loop self (max_steps self) _) as [r [messages' w']] eqn:Hrun.
    exact (asks_steps_loop self _ _ _ _ _ _ Hrun).
  - intros messages w0. exists (step_limit_result messages). split; [done|].
    unfold step_limit_result.
    destruct (last_assistant (reverse messages)) as [text|]; cbn [opt_truthy default];
      [|split; [discriminate|by left]].
    unfold str_truthy. destruct (String.eqb_spec text "") as [->|Hne]; cbn [negb].
    + split; [discriminate|by left].
    + split; [done|by right].
Qed.

End WorkflowFacts.

(** A workflow agent on the sample tool manager. *)
Definition sample_workflow : Workflow.t := Workflow.mk Sample.tool_manager 15.

Definition sample_workflow_prompts : WorkflowPrompts := {|
  workflow_system_prompt := λ task output_format,
    "Task: " +:+ task +:+ " Output: " +:+ output_format |}.

Lemma workflow_history_stays_answered_witness :
  let start :=
    [WSystem "Task: look it up Output: one line";
     WUser "Execute the workflow as specified in your task definition."] in
  let after :=
    start
    ++ [WAssistant None (Some [mkFunctionCall "call_1" "docs__search" "{}"]);
        WTool "call_1"
          (PStr (@json_dumps Sample.pylib
                   (PDict [("server_name", PStr "docs"); ("tool_name", PStr "search");
                           ("result", PStr "3 hits")])))] in
  @Workflow.step Sample.pylib Sample.router_searching Sample.tool_providers sample_workflow
    (start, set_completions (λ _, 1) empty_world)
  = (Returned None,
     (after, set_tool_dispatches (λ _, [Sample.search_call])
               (set_completions (λ _, 2) empty_world))) ∧
  answered after = true.
Proof.
  intros start after.
  assert (@Workflow.step Sample.pylib Sample.router_searching Sample.tool_providers
            sample_workflow (start, set_completions (λ _, 1) empty_world)
          = (Returned None,
             (after, set_tool_dispatches (λ _, [Sample.search_call])
                       (set_completions (λ _, 2) empty_world)))) as Hstep
    by (vm_compute; reflexivity).
  split; [exact Hstep|].
  apply (@workflow_history_stays_answered Sample.pylib sample_workflow_prompts
           Sample.router_searching Sample.tool_providers sample_workflow
           "look it up" "one line" (set_completions (λ _, 1) empty_world) after
           (set_tool_dispatches (λ _, [Sample.search_call])
              (set_completions (λ _, 2) empty_world))).
  eapply continues_step; [exact Hstep|]. apply continues_here.
Defined.

(** ** The tool configuration loader *)

Section ConfigLoaderFacts.
Context `{PyLib} `{ConfigLoader.FileSystem}.
Variable environ : gmap string string.
Import ConfigLoader.





(** What a returned configuration owes to the entry it was loaded from. *)
Definition loaded_from (item : pyval) (config : ServerConfig) : Prop :=
  ∃ entries name command,
    item = PDict entries ∧
    dict_get entries "name" = Some name ∧ truthy name = true ∧
    dict_get entries "command" = Some command ∧ truthy command = true ∧
    ConfigLoader.name config = name ∧
    ConfigLoader.command config = py_str command.

Lemma truthy_default_some (o : option pyval) :
  truthy (default PNone o) = true → ∃ v, o = Some v ∧ truthy v = true.
Proof. destruct o as [v|]; [eauto|discriminate]. Qed.

Lemma load_servers_loaded i servers configs :
  load_servers environ i servers = Ok configs → Forall2 loaded_from servers configs.
Proof.
  revert i configs. induction servers as [|item servers IH]; intros i configs.
  - intros [= <-]. constructor.
  - cbn [load_servers]. destruct item as [| | | | |entries]; try discriminate.
    cbv zeta.
    destruct (truthy (default PNone (dict_get entries "name"))) eqn:Hname;
      [|discriminate].
    destruct (truthy (default PNone (dict_get entries "command"))) eqn:Hcommand;
      [|discriminate].
    cbn [negb orb].
    apply truthy_default_some in Hname as (name & Hname & Hn).
    apply truthy_default_some in Hcommand as (command & Hcommand & Hc).
    destruct (default (PList []) (dict_get entries "args")) as [| | | |args|];
      try discriminate;
      destruct (default (PDict []) (dict_get entries "env")) as [| | | | |env];
      try discriminate.
    destruct (load_servers environ (S i) servers) as [server_configs|e] eqn:Hrest;
      [|discriminate].
    intros [= <-]. constructor; [|by eapply IH].
    exists entries, name, command. rewrite Hname, Hcommand. done.
Qed.

Lemma load_servers_first_invalid i prefix bad rest configs :
  load_servers environ i prefix = Ok configs →
  (∀ entries, bad ≠ PDict entries) →
  load_servers environ i (prefix ++ bad :: rest)
  = Raise (ValueError ("Server entry at index " +:+ pretty (i + length prefix)
                         +:+ " must be a mapping")).
Proof.
  intros Hprefix Hbad. revert i configs Hprefix.
  induction prefix as [|item prefix IH]; intros i configs Hprefix.
  - cbn [app length load_servers]. rewrite Nat.add_0_r.
    destruct bad; try done. by destruct (Hbad entries).
  - cbn [app length load_servers] in Hprefix |- *.
    destruct item as [| | | | |entries]; try discriminate. cbv zeta in Hprefix |- *.
    destruct (negb _ || negb _); [discriminate|].
    destruct (default (PList []) (dict_get entries "args")) as [| | | |args|];
      try discriminate;
      destruct (default (PDict []) (dict_get entries "env")) as [| | | | |env];
      try discriminate.
    destruct (load_servers environ (S i) prefix) as [server_configs|e] eqn:Hrest;
      [|discriminate].
    rewrite (IH _ _ Hrest). cbn [mbind Result_bind]. by rewrite Nat.add_succ_r.
Qed.

(** X30. [load_tools_yaml] returns one configuration per entry of [servers]
    of the file it read, in order, and only when every entry is a mapping
    with a truthy [name] and [command], which the configuration carries (the
    command as a string); nothing is returned for a part of the entries. An
    entry that is no mapping, after entries that load, raises the ValueError
    that names its index. *)
Theorem load_tools_yaml_checks_every_entry (config_path : option string) :
  (∀ configs,
     load_tools_yaml environ config_path = Ok configs →
     ∃ path loaded entries servers,
       path_exists path = true ∧
       yaml_safe_load path = Ok loaded ∧
       (if truthy loaded then loaded else PDict []) = PDict entries ∧
       dict_get entries "servers" = Some (PList servers) ∧
       Forall2 loaded_from servers configs) ∧
  (∀ prefix bad rest configs,
     load_servers environ 0 prefix = Ok configs →
     (∀ entries, bad ≠ PDict entries) →
     load_servers environ 0 (prefix ++ bad :: rest)
     = Raise (ValueError ("Server entry at index " +:+ pretty (length prefix)
                            +:+ " must be a mapping"))).
Proof.
  split.
  - intros configs. unfold load_tools_yaml. cbv zeta.
    set (path := if opt_truthy config_path then _ else _).
    destruct (path_exists path) eqn:Hexists; cbn [negb]; [|discriminate].
    destruct (yaml_safe_load path) as [loaded|e] eqn:Hload; [|discriminate].
    cbn [mbind Result_bind].
    destruct (if truthy loaded then loaded else PDict []) as [| | | | |entries] eqn:Hdata;
      try discriminate.
    destruct (dict_get entries "servers") as [[| | | |servers|]|] eqn:Hservers;
      try discriminate.
    intros Hloaded. exists path, loaded, entries, servers.
    repeat split; try done. by eapply load_servers_loaded.
  - intros prefix bad rest configs Hprefix Hbad.
    by apply (load_servers_first_invalid 0 prefix bad rest configs).
Qed.

End ConfigLoaderFacts.

(** A configuration file with one server whose key comes from the
    environment. *)
Definition sample_file_system : ConfigLoader.FileSystem := {|
  ConfigLoader.path_exists := λ path, String.eqb path "tools.yaml";
  ConfigLoader.yaml_safe_load := λ path,
    Ok (PDict [("servers",
                PList [PDict [("name", PStr "docs");
                              ("command", PStr "python");
                              ("args", PList [PStr "docs_server.py"]);
                              ("env", PDict [("DOCS_KEY", PStr "${env:DOCS_KEY}");
                                             ("MODE", PStr "fast")])]])]);
  ConfigLoader.packaged_tools_yaml := "tools.yaml" |}.

Example load_tools_yaml_sample :
  @ConfigLoader.load_tools_yaml Sample.pylib sample_file_system
    {[ "DOCS_KEY" := "s3cret" ]} None
  = Ok [ConfigLoader.mkServerConfig (PStr "docs") "python" ["docs_server.py"]
          [("DOCS_KEY", "s3cret"); ("MODE", "fast")]] ∧
  @ConfigLoader.load_tools_yaml Sample.pylib sample_file_system ∅ (Some "missing.yaml")
  = Raise (ConfigLoader.FileNotFoundError "Config file not found: missing.yaml").
Proof. split; vm_compute; reflexivity. Qed.
